(** * Empathy Engine: emotion detection, voice mapping and synthesis dispatch

    A shallow embedding of the Python sources

      - [empathy_engine/emotion_detector.py]  (module [EmotionDetector])
      - [empathy_engine/voice_mapper.py]      (module [VoiceMapper])
      - [empathy_engine/tts_engine.py]        (modules [TTSEngine], [Backends])
      - [empathy_engine/engine.py]            (module [EmpathyEngine])
      - [web/app.py]                          (module [WebApp])
      - [cli.py]                              (module [Cli])

    Python floats are IEEE 754 binary64 values; they are modelled with the
    standard library's executable specification [SpecFloat] instantiated at
    precision 53 and maximal exponent 1024, so that every arithmetic
    operation rounds exactly as CPython does.  Exceptions are modelled with
    an error monad, mutable objects by explicit state passing.  A string is
    the UTF-8 encoding of the Python [str]. *)

From Stdlib Require Import ZArith List String Ascii Bool Lia.
From Stdlib Require Import Decimal DecimalZ DecimalString.
From Stdlib Require Import SpecFloat.
Import ListNotations.

Local Open Scope string_scope.
Local Open Scope Z_scope.

(* ===================================================================== *)
(** * Python primitives *)
(* ===================================================================== *)

Module Py.

(** ** Exceptions and the error monad *)

Inductive exn : Type :=
| ValueError (msg : string)
| OverflowError (msg : string)
| KeyError (key : string)
| IndexError (msg : string)
| RuntimeError (msg : string)
| Exception (msg : string).

Inductive result (A : Type) : Type :=
| Ok (a : A)
| Raise (e : exn).

Arguments Ok {A} a.
Arguments Raise {A} e.

Definition bind {A B : Type} (r : result A) (k : A -> result B) : result B :=
  match r with
  | Ok a => k a
  | Raise e => Raise e
  end.

Declare Scope py_scope.
Delimit Scope py_scope with py.
Notation "x <- r ;; k" := (bind r (fun x => k))
  (at level 61, r at next level, right associativity) : py_scope.
Notation "' p <- r ;; k" := (bind r (fun p => k))
  (at level 61, p pattern, r at next level, right associativity) : py_scope.

(** ** Floats: IEEE 754 binary64 *)

Definition prec : Z := 53.
Definition emax : Z := 1024.

Definition float : Type := spec_float.

(** A [spec_float] is a Python float when its mantissa is canonical for
    binary64. *)
Definition wf (x : float) : Prop := valid_binary prec emax x = true.

Definition fadd : float -> float -> float := SFadd prec emax.
Definition fsub : float -> float -> float := SFsub prec emax.
Definition fmul : float -> float -> float := SFmul prec emax.
Definition fdiv : float -> float -> float := SFdiv prec emax.
Definition fabs : float -> float := SFabs.
Definition fltb : float -> float -> bool := SFltb.
Definition fleb : float -> float -> bool := SFleb.
Definition feqb : float -> float -> bool := SFeqb.

(** [x > y] and [x >= y] are the flipped comparisons. *)
Definition fgtb (x y : float) : bool := fltb y x.
Definition fgeb (x y : float) : bool := fleb y x.

(** The float nearest to an integer (exact below [2^53]). *)
Definition float_of_Z (z : Z) : float := binary_normalize prec emax z 0 false.

(** The float denoted by the decimal literal [n * 10^-k]: both [n] and
    [10^k] are exactly representable for the literals of this program, so
    the correctly rounded quotient is the value the Python parser yields. *)
Definition lit (n : Z) (k : Z) : float :=
  fdiv (float_of_Z n) (float_of_Z (10 ^ k)).

(** [float(i)] for a Python int, as done implicitly by [int + float] and
    [int * float]: integers too large for a float raise. *)
Definition float_of_int (z : Z) : result float :=
  match float_of_Z z with
  | S754_infinity _ => Raise (OverflowError "int too large to convert to float")
  | f => Ok f
  end.

(** [int(x)]: truncation toward zero; NaN and the infinities raise. *)
Definition int_of_float (x : float) : result Z :=
  match x with
  | S754_nan => Raise (ValueError "cannot convert float NaN to integer")
  | S754_infinity _ =>
      Raise (OverflowError "cannot convert float infinity to integer")
  | S754_zero _ => Ok 0
  | S754_finite s m e =>
      let a := if 0 <=? e then Zpos m * 2 ^ e else Zpos m / 2 ^ (- e) in
      Ok (if s then - a else a)
  end.

(** [a / b] for two ints, the divisor positive: the exact quotient rounded
    once to the nearest float; a quotient beyond the floats raises. *)
Definition int_truediv (a : Z) (b : positive) : result float :=
  let quotient (s : bool) (p : positive) : result float :=
    let '(q, e, l) := SFdiv_core_binary prec emax (Zpos p) 0 (Zpos b) 0 in
    match binary_round_aux prec emax s q e l with
    | S754_infinity _ =>
        Raise (OverflowError "integer division result too large for a float")
    | f => Ok f
    end in
  match a with
  | Z0 => Ok (S754_zero false)
  | Zpos p => quotient false p
  | Zneg p => quotient true p
  end.

(** The builtins [min(a, b)] and [max(a, b)] on floats: the first argument
    is kept unless the second is strictly smaller (resp. greater); a
    comparison with NaN is false. *)
Definition min2 (a b : float) : float := if fltb b a then b else a.
Definition max2 (a b : float) : float := if fgtb b a then b else a.

(** [mag_leb x b]: [x] is a zero or a finite float of magnitude below
    [2^b]. *)
Definition mag_leb (x : float) (b : Z) : bool :=
  match x with
  | S754_zero _ => true
  | S754_finite _ m e => Zpos (digits2_pos m) + e <=? b
  | _ => false
  end.

(** ** Dictionaries with string keys, in insertion order *)

Definition dict (V : Type) : Type := list (string * V).

Fixpoint dict_get {V : Type} (d : dict V) (k : string) : option V :=
  match d with
  | [] => None
  | (k', v) :: d' => if String.eqb k k' then Some v else dict_get d' k
  end.

(** [d.get(k, default)] *)
Definition dict_get_default {V : Type} (d : dict V) (k : string) (dflt : V) : V :=
  match dict_get d k with
  | Some v => v
  | None => dflt
  end.

(** [d[k]] *)
Definition dict_index {V : Type} (d : dict V) (k : string) : result V :=
  match dict_get d k with
  | Some v => Ok v
  | None => Raise (KeyError k)
  end.

(** [d[k] = v]: an existing key keeps its position. *)
Fixpoint dict_set {V : Type} (d : dict V) (k : string) (v : V) : dict V :=
  match d with
  | [] => [(k, v)]
  | (k', v') :: d' =>
      if String.eqb k k' then (k', v) :: d' else (k', v') :: dict_set d' k v
  end.

(** ** Strings *)

Definition nl : string := String (ascii_of_nat 10) EmptyString.

(** A Python [str] is modelled by its UTF-8 encoding. *)

(** [str.lower()].  Text within ASCII has its letters [A-Z] lowered; text
    with other characters is lowered by the case mapping of Unicode, which
    is taken from outside as [unicode_lower]. *)
Definition lower_ascii (c : ascii) : ascii :=
  let n := nat_of_ascii c in
  if andb (Nat.leb 65 n) (Nat.leb n 90) then ascii_of_nat (n + 32) else c.

Fixpoint is_ascii (s : string) : bool :=
  match s with
  | EmptyString => true
  | String c r => andb (Nat.ltb (nat_of_ascii c) 128) (is_ascii r)
  end.

Fixpoint lower_ascii_str (s : string) : string :=
  match s with
  | EmptyString => EmptyString
  | String c r => String (lower_ascii c) (lower_ascii_str r)
  end.

Definition lower (unicode_lower : string -> string) (s : string) : string :=
  if is_ascii s then lower_ascii_str s else unicode_lower s.

(** The white space [str.strip()] removes: the characters U+0009 to U+000D,
    U+001C to U+0020, U+0085, U+00A0, U+1680, U+2000 to U+200A, U+2028,
    U+2029, U+202F, U+205F and U+3000, each by the bytes of its
    encoding. *)
Definition bytes (l : list nat) : string :=
  string_of_list_ascii (List.map ascii_of_nat l).

Definition WHITESPACE : list string :=
  List.map bytes
    [ [9]; [10]; [11]; [12]; [13]; [28]; [29]; [30]; [31]; [32];
      [194; 133]; [194; 160]; [225; 154; 128];
      [226; 128; 128]; [226; 128; 129]; [226; 128; 130]; [226; 128; 131];
      [226; 128; 132]; [226; 128; 133]; [226; 128; 134]; [226; 128; 135];
      [226; 128; 136]; [226; 128; 137]; [226; 128; 138];
      [226; 128; 168]; [226; 128; 169]; [226; 128; 175];
      [226; 129; 159]; [227; 128; 128] ]%nat.

Definition is_space (t : string) : bool := existsb (String.eqb t) WHITESPACE.

(** Removal of the white space at the head of a string: as long as the
    first one, two or three bytes are a white space character, they are
    dropped.  [order] puts the bytes read in the order of the encoding. *)
Fixpoint strip_lead (order : string -> string) (s : string) : string :=
  match s with
  | EmptyString => EmptyString
  | String c1 r1 =>
      if is_space (order (String c1 EmptyString)) then strip_lead order r1
      else
        match r1 with
        | EmptyString => s
        | String c2 r2 =>
            if is_space (order (String c1 (String c2 EmptyString)))
            then strip_lead order r2
            else
              match r2 with
              | EmptyString => s
              | String c3 r3 =>
                  if is_space
                       (order (String c1 (String c2 (String c3 EmptyString))))
                  then strip_lead order r3
                  else s
              end
        end
  end.

Definition reverse (s : string) : string :=
  string_of_list_ascii (List.rev (list_ascii_of_string s)).

(** [str.lstrip()] *)
Definition lstrip (s : string) : string := strip_lead (fun t => t) s.

(** [str.rstrip()]: the same removal at the other end, where the bytes of
    a character are met last byte first. *)
Definition rstrip (s : string) : string :=
  reverse (strip_lead reverse (reverse s)).

(** [str.strip()] *)
Definition strip (s : string) : string := rstrip (lstrip s).

(** A string of white space only: white space characters, each read
    through [order], one after the other. *)
Inductive blank (order : string -> string) : string -> Prop :=
| blank_nil : blank order EmptyString
| blank_app (t r : string) :
    t <> EmptyString -> is_space (order t) = true -> blank order r ->
    blank order (t ++ r).

Fixpoint has_slash (s : string) : bool :=
  match s with
  | EmptyString => false
  | String c r => if Ascii.eqb c "/" then true else has_slash r
  end.

(** [os.path.basename] *)
Fixpoint basename (s : string) : string :=
  match s with
  | EmptyString => EmptyString
  | String c r =>
      if has_slash r then basename r
      else if Ascii.eqb c "/" then r else s
  end.

(** ** Number formatting *)

(** [str(z)] for an int. *)
Definition str_int (z : Z) : string := NilZero.string_of_int (Z.to_int z).

(** [int(s)] restricted to an optional minus sign followed by digits. *)
Definition parse_int (s : string) : option Z :=
  option_map Z.of_int (NilZero.int_of_string s).

(** [f"{z:+d}"] *)
Definition format_plus_d (z : Z) : string :=
  if 0 <=? z then "+" ++ str_int z else str_int z.

Definition digit_char (d : Z) : ascii := ascii_of_nat (48 + Z.to_nat d).

(** The [w] low decimal digits of [n], most significant first, before
    [acc]. *)
Fixpoint pad_digits (w : nat) (n : Z) (acc : string) : string :=
  match w with
  | O => acc
  | S w' => pad_digits w' (n / 10) (String (digit_char (n mod 10)) acc)
  end.

(** The integer nearest to [m * 2^e * 10^p], ties to even: the digits that
    a correctly rounded fixed-point conversion prints. *)
Definition scaled_round (p : nat) (m : positive) (e : Z) : Z :=
  let num := Zpos m * 10 ^ Z.of_nat p in
  if 0 <=? e then num * 2 ^ e
  else
    let d := 2 ^ (- e) in
    let q := num / d in
    let r := num mod d in
    match 2 * r ?= d with
    | Lt => q
    | Gt => q + 1
    | Eq => if Z.even q then q else q + 1
    end.

Definition fixed_digits (p : nat) (n : Z) : string :=
  str_int (n / 10 ^ Z.of_nat p) ++
  match p with
  | O => EmptyString
  | _ => "." ++ pad_digits p n EmptyString
  end.

(** [f"{x:.pf}"], and [f"{x:+.pf}"] when [plus] is set. *)
Definition format_f (plus : bool) (p : nat) (x : float) : string :=
  let sign (s : bool) := if s then "-" else if plus then "+" else "" in
  match x with
  | S754_nan => sign false ++ "nan"
  | S754_infinity s => sign s ++ "inf"
  | S754_zero s => sign s ++ fixed_digits p 0
  | S754_finite s m e => sign s ++ fixed_digits p (scaled_round p m e)
  end.

(** [f"{x:.p%}"]: the value is multiplied by 100 as a float, printed in
    fixed point and followed by a percent sign. *)
Definition format_pct (p : nat) (x : float) : string :=
  format_f false p (fmul x (float_of_Z 100)) ++ "%".

(** [float(s)] for a fixed-point numeral [[-]digits.digits] whose digits,
    read as an integer, stay below [2^53] and whose scale stays below
    [10^16]: there the correctly rounded value is one float division.
    Other strings are outside this model. *)
Fixpoint split_point (s : string) : string * option string :=
  match s with
  | EmptyString => (EmptyString, None)
  | String c r =>
      if Ascii.eqb c "." then (EmptyString, Some r)
      else let '(a, b) := split_point r in (String c a, b)
  end.

Definition parse_float (s : string) : option float :=
  let '(neg, body) :=
    match s with
    | String c r => if Ascii.eqb c "-" then (true, r) else (false, s)
    | EmptyString => (false, s)
    end in
  let '(ip, fp) := split_point body in
  let fp := match fp with Some f => f | None => EmptyString end in
  match NilZero.uint_of_string (ip ++ fp) with
  | Some u =>
      let n := Z.of_uint u in
      let k := Z.of_nat (String.length fp) in
      if andb (n <? 2 ^ 53) (k <? 16)
      then let v := lit n k in Some (if neg then SFopp v else v)
      else None
  | None => None
  end.

End Py.

Import Py.
Local Open Scope py_scope.

(* ===================================================================== *)
(** * voice_mapper.py *)
(* ===================================================================== *)

Module VoiceMapper.

Record VoiceParams : Type := mkVoiceParams {
  rate : Z;
  pitch : float;
  volume : float
}.

(** Baseline values *)
Definition BASELINE_RATE : Z := 200.
Definition BASELINE_PITCH : float := lit 10 1.
Definition BASELINE_VOLUME : float := lit 85 2.

(** Per-emotion adjustments at maximum intensity:
    (rate_delta, pitch_mult, vol_delta).  [lit 135 2] is the literal
    [1.35]; a negative literal is the negation of the positive one. *)
Definition profile : Type := (Z * float * float)%type.

Definition EMOTION_PROFILE : dict profile :=
  [ ("joy",         ( 60, lit 135 2, lit 15 2));
    ("sadness",     (-50, lit 78 2,  SFopp (lit 15 2)));
    ("anger",       ( 40, lit 122 2, lit 15 2));
    ("surprise",    ( 70, lit 145 2, lit 10 2));
    ("fear",        ( 50, lit 118 2, SFopp (lit 10 2)));
    ("disgust",     (-20, lit 88 2,  SFopp (lit 5 2)));
    ("neutral",     (  0, lit 100 2, lit 0 2));
    ("inquisitive", ( 15, lit 120 2, lit 5 2));
    ("concerned",   (-15, lit 92 2,  SFopp (lit 5 2)));
    ("excited",     ( 65, lit 140 2, lit 15 2));
    ("calm",        (-30, lit 90 2,  SFopp (lit 10 2))) ].

(** The mapper object: its three baseline attributes. *)
Record t : Type := mkVoiceMapper {
  baseline_rate : Z;
  baseline_pitch : float;
  baseline_volume : float
}.

(** [VoiceMapper.__init__] *)
Definition __init__ (baseline_rate : Z) (baseline_pitch baseline_volume : float)
  : t :=
  mkVoiceMapper baseline_rate baseline_pitch baseline_volume.

(** [VoiceMapper()]: the three arguments at their defaults. *)
Definition default : t :=
  __init__ BASELINE_RATE BASELINE_PITCH BASELINE_VOLUME.

(** [max(0.0, min(1.0, intensity))] *)
Definition clamp_intensity (intensity : float) : float :=
  max2 (lit 0 1) (min2 (lit 10 1) intensity).

(** [EMOTION_PROFILE.get(emotion, EMOTION_PROFILE["neutral"])]: the default
    is evaluated first and is itself a subscript. *)
Definition lookup_profile (emotion : string) : result profile :=
  dflt <- dict_index EMOTION_PROFILE "neutral" ;;
  Ok (dict_get_default EMOTION_PROFILE emotion dflt).

(** The row [EMOTION_PROFILE["neutral"]]. *)
Definition neutral_profile : profile := (0, lit 100 2, lit 0 2).

(** [VoiceMapper.map] *)
Definition map (self : t) (emotion : string) (intensity : float)
  : result VoiceParams :=
  let intensity := clamp_intensity intensity in
  prof <- lookup_profile emotion ;;
  let '(rate_delta, pitch_mult, vol_delta) := prof in
  rd <- float_of_int rate_delta ;;
  br <- float_of_int (baseline_rate self) ;;
  rate <- int_of_float (fadd br (fmul rd intensity)) ;;
  let pitch :=
    fadd (baseline_pitch self)
         (fmul (fsub pitch_mult (baseline_pitch self)) intensity) in
  let volume :=
    max2 (lit 1 1)
         (min2 (lit 10 1)
               (fadd (baseline_volume self) (fmul vol_delta intensity))) in
  Ok (mkVoiceParams rate pitch volume).

(** [VoiceMapper.explain]; [float_repr] is Python's [repr] of a float (the
    shortest decimal string that reads back as the same float), used for
    the three interpolated constants. *)
Section Explain.
Variable float_repr : float -> string.

Definition explain (self : t) (emotion : string) (intensity : float)
  : result string :=
  params <- map self emotion intensity ;;
  prof <- lookup_profile emotion ;;
  let '(rate_delta, pitch_mult, vol_delta) := prof in
  let lines :=
    [ "Emotion:   " ++ emotion;
      "Intensity: " ++ format_pct 1 intensity;
      "";
      "Voice Parameters (intensity-scaled):";
      "  Rate:   " ++ str_int (rate params) ++ " wpm  (baseline "
        ++ str_int (baseline_rate self) ++ ", "
        ++ "delta " ++ format_plus_d rate_delta ++ " × "
        ++ format_f false 2 intensity ++ ")";
      "  Pitch:  " ++ format_f false 2 (pitch params) ++ "×  (baseline "
        ++ float_repr (baseline_pitch self) ++ ", "
        ++ "target " ++ float_repr pitch_mult ++ "× × "
        ++ format_f false 2 intensity ++ ")";
      "  Volume: " ++ format_f false 2 (volume params) ++ "  (baseline "
        ++ float_repr (baseline_volume self) ++ ", "
        ++ "delta " ++ format_f true 2 vol_delta ++ " × "
        ++ format_f false 2 intensity ++ ")" ] in
  Ok (String.concat nl lines).

End Explain.

(** The three numerals [explain] prints for [params.rate],
    [params.pitch:.2f] and [params.volume:.2f], and the parameters one
    gets by reading them back with [int] and [float]. *)
Definition rendered (params : VoiceParams) : string * string * string :=
  (str_int (rate params),
   format_f false 2 (pitch params),
   format_f false 2 (volume params)).

Definition reparse (r : string * string * string) : option VoiceParams :=
  let '(a, b, c) := r in
  match parse_int a, parse_float b, parse_float c with
  | Some ra, Some pi, Some vo => Some (mkVoiceParams ra pi vo)
  | _, _, _ => None
  end.

End VoiceMapper.

(* ===================================================================== *)
(** * emotion_detector.py *)
(* ===================================================================== *)

Module EmotionDetector.

(** The dictionary returned by the sentiment scorer's [polarity_scores]:
    it always has these four keys, so it is a record here and the
    subscript [scores["compound"]] is a field access. *)
Record VaderScores : Type := mkVaderScores {
  compound : float;
  pos : float;
  neg : float;
  neu : float
}.

(** The loaded classifier, called as [self.hf_classifier(text)]: it
    returns, for the one input text, a list holding one list of
    ([label], [score]) entries, or raises. *)
Definition classifier : Type := string -> result (list (list (string * float))).

Definition EMOTION_CATEGORIES : list string :=
  ["joy"; "sadness"; "anger"; "surprise"; "fear"; "disgust"; "neutral"].

(** Map HuggingFace model labels to canonical labels. *)
Definition HF_LABEL_MAP : dict string :=
  [ ("joy", "joy"); ("sadness", "sadness"); ("anger", "anger");
    ("surprise", "surprise"); ("fear", "fear"); ("disgust", "disgust");
    ("neutral", "neutral") ].

(** Map VADER-only polarity to a coarse emotion. *)
Definition VADER_POLARITY_MAP : dict string :=
  [ ("positive", "joy"); ("negative", "sadness"); ("neutral", "neutral") ].

Record EmotionResult : Type := mkEmotionResult {
  text : string;
  primary_emotion : string;
  intensity : float;
  granular_label : string;
  vader_scores : VaderScores;
  hf_scores : dict float
}.

(** The detector object. *)
Record t : Type := mkEmotionDetector {
  vader : string -> VaderScores;
  hf_classifier : option classifier
}.

(** [EmotionDetector.__init__]: [HF_AVAILABLE] tells whether the import of
    [transformers] succeeded, [hf_pipeline] is the outcome of building the
    classification pipeline; a failure there is caught and leaves
    [hf_classifier] at [None]. *)
Definition __init__ (analyzer : string -> VaderScores) (HF_AVAILABLE : bool)
  (hf_pipeline : result classifier) (use_hf : bool) : t :=
  let hf :=
    if andb use_hf HF_AVAILABLE then
      match hf_pipeline with
      | Ok c => Some c
      | Raise _ => None
      end
    else None in
  mkEmotionDetector analyzer hf.

Definition _vader_analyse (self : t) (text : string) : VaderScores :=
  vader self text.

Definition _vader_polarity (scores : VaderScores) : string :=
  let compound := compound scores in
  if fgeb compound (lit 5 2) then "positive"
  else if fleb compound (SFopp (lit 5 2)) then "negative"
  else "neutral".

(** [min(abs(vader_scores["compound"]) * 1.2, 1.0)] *)
Definition _compute_intensity (vader_scores : VaderScores) : float :=
  min2 (fmul (fabs (compound vader_scores)) (lit 12 1)) (lit 10 1).

(** [{r["label"]: r["score"] for r in results}] *)
Definition scores_of_results (results : list (string * float)) : dict float :=
  fold_left (fun d r => dict_set d (fst r) (snd r)) results [].

(** [max(scores, key=scores.get)]: the first key whose score no later
    score exceeds; the empty dictionary raises. *)
Definition max_key (scores : dict float) : result string :=
  match scores with
  | [] => Raise (ValueError "max() arg is an empty sequence")
  | (k0, v0) :: rest =>
      Ok (fst (fold_left
                 (fun best kv => if fgtb (snd kv) (snd best) then kv else best)
                 rest (k0, v0)))
  end.

Definition _hf_analyse (clf : classifier) (text : string)
  : result (dict float * string) :=
  out <- clf text ;;
  results <- match out with
             | r :: _ => Ok r
             | [] => Raise (IndexError "list index out of range")
             end ;;
  let scores := scores_of_results results in
  top_label <- max_key scores ;;
  Ok (scores, top_label).

(** [EmotionDetector.detect] *)
Definition detect (self : t) (text : string) : result EmotionResult :=
  let vader_scores := _vader_analyse self text in
  let intensity := _compute_intensity vader_scores in
  match hf_classifier self with
  | Some clf =>
      '(hf_scores, granular_label) <- _hf_analyse clf text ;;
      let primary_emotion :=
        dict_get_default HF_LABEL_MAP granular_label granular_label in
      Ok (mkEmotionResult text primary_emotion intensity granular_label
                          vader_scores hf_scores)
  | None =>
      let hf_scores := [] in
      let polarity := _vader_polarity vader_scores in
      primary_emotion <- dict_index VADER_POLARITY_MAP polarity ;;
      let granular_label := primary_emotion in
      Ok (mkEmotionResult text primary_emotion intensity granular_label
                          vader_scores hf_scores)
  end.

End EmotionDetector.

(* ===================================================================== *)
(** * tts_engine.py *)
(* ===================================================================== *)

Module TTSEngine.

Import VoiceMapper.

(** What synthesis changes outside the program: the audio files written so
    far and the number of [uuid.uuid4()] values drawn. *)
Record World : Type := mkWorld {
  files : list string;
  uuids_drawn : nat
}.

(** A backend method ([_synthesize_macos_say], [_synthesize_pyttsx3],
    [_synthesize_gtts]): each runs external programs or services, so it is
    taken from the environment as a function of the text, the parameters
    and the output path that returns a path or raises, and may write
    files. *)
Definition backend_method : Type :=
  string -> VoiceParams -> string -> World -> result string * World.

Record Env : Type := mkEnv {
  is_macos : bool;
  OUTPUT_DIR : string;
  uuid4_hex8 : nat -> string;
  _synthesize_macos_say : backend_method;
  _synthesize_pyttsx3 : backend_method;
  _synthesize_gtts : backend_method;
  (** Unicode's lower-casing, which [str.lower()] applies to a name with
      characters outside ASCII. *)
  unicode_lower : string -> string
}.

(** The engine object: its one attribute. *)
Record t : Type := mkTTSEngine {
  backend : string
}.

(** [TTSEngine.__init__] *)
Definition __init__ (env : Env) (backend : string) : t :=
  if String.eqb backend "auto"
  then mkTTSEngine (if is_macos env then "macos_say" else "pyttsx3")
  else mkTTSEngine (lower (unicode_lower env) backend).

(** [TTSEngine.synthesize] *)
Definition synthesize (env : Env) (self : t) (text : string)
  (params : VoiceParams) (output_path : option string) (w : World)
  : result string * World :=
  let '(output_path, w) :=
    match output_path with
    | Some p => (p, w)
    | None =>
        let ext := if String.eqb (backend self) "gtts" then ".mp3" else ".wav" in
        (OUTPUT_DIR env ++ "/" ++ "empathy_"
           ++ uuid4_hex8 env (uuids_drawn w) ++ ext,
         mkWorld (files w) (S (uuids_drawn w)))
    end in
  if String.eqb (backend self) "macos_say" then
    _synthesize_macos_say env text params output_path w
  else if String.eqb (backend self) "pyttsx3" then
    _synthesize_pyttsx3 env text params output_path w
  else if String.eqb (backend self) "gtts" then
    _synthesize_gtts env text params output_path w
  else
    (Raise (ValueError ("Unknown TTS backend: " ++ backend self)), w).

(** The backend names [synthesize] dispatches on. *)
Definition known_backend (b : string) : bool :=
  (String.eqb b "macos_say" || String.eqb b "pyttsx3" || String.eqb b "gtts")%bool.

End TTSEngine.

(* ===================================================================== *)
(** * engine.py *)
(* ===================================================================== *)

Module EmpathyEngine.

(** What the orchestrator needs from outside: the sentiment scorer, the
    optional classifier, Python's float [repr] and the synthesis
    environment. *)
Record Env : Type := mkEnv {
  polarity_scores : string -> EmotionDetector.VaderScores;
  HF_AVAILABLE : bool;
  hf_pipeline : result EmotionDetector.classifier;
  float_repr : float -> string;
  tts_env : TTSEngine.Env
}.

Record t : Type := mkEmpathyEngine {
  detector : EmotionDetector.t;
  mapper : VoiceMapper.t;
  tts : TTSEngine.t
}.

(** [EmpathyEngine.__init__] *)
Definition __init__ (env : Env) (tts_backend : string) (use_hf : bool) : t :=
  mkEmpathyEngine
    (EmotionDetector.__init__ (polarity_scores env) (HF_AVAILABLE env)
                          (hf_pipeline env) use_hf)
    VoiceMapper.default
    (TTSEngine.__init__ (tts_env env) tts_backend).

(** The dictionary [process] returns, without [time_ms]; the emotion and
    the voice parameters are kept as objects (the source rounds them for
    display with [to_dict]). *)
Record ProcessResult : Type := mkProcessResult {
  emotion : EmotionDetector.EmotionResult;
  voice : VoiceMapper.VoiceParams;
  mapping : string;
  audio : string
}.

(** [EmpathyEngine.process] *)
Definition process (env : Env) (self : t) (text : string)
  (output_path : option string) (w : TTSEngine.World)
  : result ProcessResult * TTSEngine.World :=
  match
    (emotion <- EmotionDetector.detect (detector self) text ;;
     voice_params <- VoiceMapper.map (mapper self)
                       (EmotionDetector.primary_emotion emotion)
                       (EmotionDetector.intensity emotion) ;;
     mapping_explanation <- VoiceMapper.explain (float_repr env) (mapper self)
                       (EmotionDetector.primary_emotion emotion)
                       (EmotionDetector.intensity emotion) ;;
     Ok (emotion, voice_params, mapping_explanation))
  with
  | Raise e => (Raise e, w)
  | Ok (emotion, voice_params, mapping_explanation) =>
      match TTSEngine.synthesize (tts_env env) (tts self) text voice_params
                                 output_path w with
      | (Raise e, w') => (Raise e, w')
      | (Ok audio_path, w') =>
          (Ok (mkProcessResult emotion voice_params mapping_explanation
                               audio_path), w')
      end
  end.

End EmpathyEngine.

(* ===================================================================== *)
(** * web/app.py *)
(* ===================================================================== *)

Module WebApp.

(** The module-level variable [_engine]. *)
Record State : Type := mkState {
  _engine : option EmpathyEngine.t
}.

Definition initial : State := mkState None.

(** [get_engine]: the engine is built on first use and kept. *)
Definition get_engine (env : EmpathyEngine.Env) (st : State)
  : EmpathyEngine.t * State :=
  match _engine st with
  | Some e => (e, st)
  | None =>
      let e := EmpathyEngine.__init__ env "auto" true in
      (e, mkState (Some e))
  end.

(** The JSON body of a response. *)
Inductive body : Type :=
| ErrorBody (error : string)
| ResultBody (result : EmpathyEngine.ProcessResult) (audio_url : string).

Record Response : Type := mkResponse {
  content : body;
  status : Z
}.

(** [str(exc)] *)
Definition str_exn (e : exn) : string :=
  match e with
  | ValueError m | OverflowError m | IndexError m | RuntimeError m
  | Exception m => m
  | KeyError k => "'" ++ k ++ "'"
  end.

(** The handler of [POST /synthesize].  [json] is what
    [request.get_json(silent=True)] returns: [None] without a JSON body,
    else the object, whose members the front end sends as strings.  The
    assignment [engine.tts.backend = backend] changes the one shared engine
    object, so the new state holds the changed engine. *)
Definition synthesize (env : EmpathyEngine.Env) (json : option (dict string))
  (st : State) (w : TTSEngine.World)
  : Response * State * TTSEngine.World :=
  let data := match json with Some d => d | None => [] end in
  let text := strip (dict_get_default data "text" "") in
  if String.eqb text "" then
    (mkResponse (ErrorBody "Please provide some text.") 400, st, w)
  else
    let backend := dict_get_default data "engine" "pyttsx3" in
    let '(engine, st) := get_engine env st in
    let engine :=
      EmpathyEngine.mkEmpathyEngine
        (EmpathyEngine.detector engine) (EmpathyEngine.mapper engine)
        (TTSEngine.mkTTSEngine backend) in
    let st := mkState (Some engine) in
    match EmpathyEngine.process env engine text None w with
    | (Raise exc, w') => (mkResponse (ErrorBody (str_exn exc)) 500, st, w')
    | (Ok result, w') =>
        let audio_filename := basename (EmpathyEngine.audio result) in
        (mkResponse (ResultBody result ("/audio/" ++ audio_filename)) 200,
         st, w')
    end.

End WebApp.

(* ===================================================================== *)
(** * Sample collaborators, used to run the model on concrete inputs *)
(* ===================================================================== *)

Module Sample.

Import EmotionDetector.

(** A sentiment scorer that answers every text with compound score [c]. *)
Definition scorer (c : float) : string -> VaderScores :=
  fun _ => mkVaderScores c (lit 0 1) (lit 0 1) (lit 10 1).

(** A classifier whose best label, "love", is outside [HF_LABEL_MAP]. *)
Definition clf_love : classifier :=
  fun _ => Ok [[("joy", lit 1 1); ("love", lit 9 1)]].

(** A classifier whose inference fails. *)
Definition clf_failing : classifier :=
  fun _ => Raise (RuntimeError "inference failed").

(** Backends that write the requested file and return its path. *)
Definition writing_backend : TTSEngine.backend_method :=
  fun _ _ path w =>
    (Ok path, TTSEngine.mkWorld (path :: TTSEngine.files w)
                                (TTSEngine.uuids_drawn w)).

(** The sample requests name their engines within ASCII, where
    [unicode_lower] is not consulted. *)
Definition tts_env (macos : bool) : TTSEngine.Env :=
  TTSEngine.mkEnv macos "/srv/output" (fun _ => "0a1b2c3d")
                  writing_backend writing_backend writing_backend
                  (fun s => s).

(** A host without the optional classifier. *)
Definition env (macos : bool) : EmpathyEngine.Env :=
  EmpathyEngine.mkEnv (scorer (lit 5 1)) false
                      (Raise (Exception "transformers is not installed"))
                      (fun _ => "<float>") (tts_env macos).

Definition world0 : TTSEngine.World := TTSEngine.mkWorld [] 0.

Definition same_float (x y : float) : bool :=
  match x, y with
  | S754_zero a, S754_zero b | S754_infinity a, S754_infinity b => Bool.eqb a b
  | S754_nan, S754_nan => true
  | S754_finite a m e, S754_finite b n f =>
      (Bool.eqb a b && Pos.eqb m n && Z.eqb e f)%bool
  | _, _ => false
  end.

(** Python's [repr] on the float constants of [voice_mapper.py]. *)
Definition float_repr (x : float) : string :=
  let table :=
    [ (lit 10 1, "1.0"); (lit 85 2, "0.85"); (lit 135 2, "1.35");
      (lit 78 2, "0.78"); (lit 122 2, "1.22"); (lit 145 2, "1.45");
      (lit 118 2, "1.18"); (lit 88 2, "0.88"); (lit 12 1, "1.2");
      (lit 92 2, "0.92"); (lit 14 1, "1.4"); (lit 9 1, "0.9") ] in
  match find (fun row => same_float (fst row) x) table with
  | Some row => snd row
  | None => "?"
  end.

End Sample.

(* ===================================================================== *)
(** * tts_engine.py: the three backend methods *)
(* ===================================================================== *)

Module Backends.

Import VoiceMapper.
Import TTSEngine.

(** ** String methods used on paths *)

(** [s.endswith(suffix)] *)
Definition endswith (s suffix : string) : bool :=
  let n := String.length s in
  let k := String.length suffix in
  (Nat.leb k n && String.eqb (substring (n - k) k s) suffix)%bool.

(** [s[:-k]] *)
Definition drop_last (k : nat) (s : string) : string :=
  substring 0 (String.length s - k) s.

Fixpoint has_dot (s : string) : bool :=
  match s with
  | EmptyString => false
  | String c r => if Ascii.eqb c "." then true else has_dot r
  end.

(** [s.rsplit(".", 1)[0]]: what precedes the last dot, or all of [s]. *)
Fixpoint rsplit_dot_head (s : string) : string :=
  match s with
  | EmptyString => EmptyString
  | String c r =>
      if has_dot r then String c (rsplit_dot_head r)
      else if Ascii.eqb c "." then EmptyString else s
  end.

(** [os.path.join(a, b)] for a [b] that does not start with a slash: the
    separator is added unless [a] is empty or ends with one. *)
Definition os_path_join (a b : string) : string :=
  if (String.eqb a "" || endswith a "/")%bool then a ++ b
  else a ++ "/" ++ b.

(** ** The operating system, as the methods see it *)

(** What [subprocess.run(cmd, capture_output=True, text=True, timeout=t)]
    does: it returns a completed process, or raises [FileNotFoundError],
    [subprocess.TimeoutExpired] or something else. *)
Inductive run_outcome : Type :=
| Completed (returncode : Z) (stderr : string)
| FileNotFoundError
| TimeoutExpired
| OtherError (e : exn).

(** What a call into pydub does inside the [try] block of
    [_synthesize_gtts]: it returns, it raises [ImportError], which the
    method catches, or it raises something else, which the method lets
    through. *)
Inductive attempt (A : Type) : Type :=
| Returned (a : A)
| ImportErrorRaised
| Raised (e : exn).

Arguments Returned {A} a.
Arguments ImportErrorRaised {A}.
Arguments Raised {A} e.

(** What [AudioSegment.from_mp3] yields, as far as the method reads it. *)
Record Audio : Type := mkAudio {
  frame_rate : Z
}.

(** The whole of the pydub post-processing of [_synthesize_gtts], once the
    numbers are computed: the segment loaded from [tmp_path], respawned at
    [new_frame_rate] when there is one, amplified by [volume_db] and
    exported to [output_path]. *)
Record GttsExport : Type := mkGttsExport {
  source : string;
  new_frame_rate : option Z;
  gain_db : float;
  target : string
}.

Record OS : Type := mkOS {
  platform_is_macos : bool;
  output_dir : string;
  uuid_hex8 : nat -> string;
  abspath : string -> string;
  subprocess_run : list string -> Z -> World -> run_outcome * World;
  (** [os.remove(path)]; the callers swallow its [OSError]. *)
  os_remove : string -> World -> World;
  os_path_exists : string -> World -> bool;
  sys_executable : string;
  (** The text of the script handed to the Python subprocess, in which the
      rate, the volume, the text and the path are interpolated. *)
  pyttsx3_script : Z -> float -> string -> string -> string;
  (** The volume adjustment of [_synthesize_macos_say] on a file: import
      of pydub, load, gain, export; the caller swallows every exception,
      so only the change of the world is seen. *)
  pydub_gain_file : string -> float -> string -> World -> World;
  (** [from gtts import gTTS] succeeds. *)
  gtts_installed : bool;
  (** [gTTS(text=text, lang="en", slow=False).save(tmp_path)] *)
  gtts_save : string -> string -> World -> result unit * World;
  tempdir : string;
  (** [from pydub import AudioSegment] succeeds. *)
  pydub_installed : bool;
  pydub_from_mp3 : string -> World -> attempt Audio * World;
  pydub_export : GttsExport -> World -> attempt unit * World;
  shutil_move : string -> string -> World -> result unit * World;
  (** Unicode's lower-casing, for [TTSEngine.__init__]. *)
  str_lower : string -> string
}.

Definition ImportError (name : string) : exn :=
  Exception ("No module named '" ++ name ++ "'").

(** ** [_synthesize_macos_say] *)

Definition _synthesize_macos_say (os : OS) : backend_method :=
  fun text params output_path w =>
  (* Ensure .wav extension for browser compatibility *)
  let output_path :=
    if endswith output_path ".aiff" then drop_last 5 output_path ++ ".wav"
    else if negb (endswith output_path ".wav" || endswith output_path ".mp3")
         then output_path ++ ".wav"
         else output_path in
  let aiff_path := rsplit_dot_head output_path ++ ".aiff" in
  let voice :=
    if fltb (pitch params) (lit 9 1) then "Daniel"
    else if fgtb (pitch params) (lit 12 1) then "Samantha"
    else "Samantha" in
  let cmd := ["say"; "-r"; str_int (rate params); "-v"; voice;
              "-o"; aiff_path; text] in
  match subprocess_run os cmd 30 w with
  | (FileNotFoundError, w) =>
      (Raise (RuntimeError
                "macOS 'say' command not found. Use --engine pyttsx3 or --engine gtts."),
       w)
  | (TimeoutExpired, w) => (Raise (Exception "TimeoutExpired"), w)
  | (OtherError e, w) => (Raise e, w)
  | (Completed returncode stderr, w) =>
      if negb (returncode =? 0) then
        (Raise (RuntimeError ("'say' command failed: " ++ stderr)), w)
      else
        (* Convert AIFF to WAV using afconvert *)
        let convert : result string * World :=
          match subprocess_run os
                  ["afconvert"; "-f"; "WAVE"; "-d"; "LEI16";
                   aiff_path; output_path] 15 w with
          | (Completed rc _, w) =>
              if rc =? 0 then (Ok output_path, os_remove os aiff_path w)
              else (Ok aiff_path, w)
          | (FileNotFoundError, w) | (TimeoutExpired, w) => (Ok aiff_path, w)
          | (OtherError e, w) => (Raise e, w)
          end in
        match convert with
        | (Raise e, w) => (Raise e, w)
        | (Ok output_path, w) =>
            (* Post-process volume with pydub if needed *)
            let w :=
              if fgtb (fabs (fsub (volume params) (lit 85 2))) (lit 5 2) then
                let volume_db :=
                  fmul (fsub (volume params) (lit 85 2)) (float_of_Z 30) in
                let fmt := if endswith output_path ".wav" then "wav"
                           else "aiff" in
                pydub_gain_file os output_path volume_db fmt w
              else w in
            (Ok (abspath os output_path), w)
        end
  end.

(** ** [_synthesize_pyttsx3] *)

Definition _synthesize_pyttsx3 (os : OS) : backend_method :=
  fun text params output_path w =>
  let output_path :=
    if negb (endswith output_path ".wav" || endswith output_path ".mp3"
             || endswith output_path ".aiff")
    then output_path ++ ".aiff" else output_path in
  let output_path := abspath os output_path in
  let script :=
    pyttsx3_script os (rate params) (volume params) text output_path in
  match subprocess_run os [sys_executable os; "-c"; script] 30 w with
  | (TimeoutExpired, w) =>
      (* Fallback to macos_say if on macOS *)
      if platform_is_macos os
      then _synthesize_macos_say os text params output_path w
      else (Raise (RuntimeError "pyttsx3 timed out during synthesis."), w)
  | (FileNotFoundError, w) => (Raise (Exception "FileNotFoundError"), w)
  | (OtherError e, w) => (Raise e, w)
  | (Completed returncode stderr, w) =>
      if negb (returncode =? 0)
      then (Raise (RuntimeError ("pyttsx3 failed: " ++ stderr)), w)
      else (Ok output_path, w)
  end.

(** ** [_synthesize_gtts] *)

(** The [finally] clause: the temporary file is removed if it is there. *)
Definition remove_tmp (os : OS) (tmp_path : string) (w : World) : World :=
  if os_path_exists os tmp_path w then os_remove os tmp_path w else w.

(** The body of the [try] block: the post-processing with pydub. *)
Definition postprocess (os : OS) (params : VoiceParams)
    (tmp_path output_path : string) (w : World) : attempt unit * World :=
  if negb (pydub_installed os) then (ImportErrorRaised, w)
  else
    match pydub_from_mp3 os tmp_path w with
    | (ImportErrorRaised, w) => (ImportErrorRaised, w)
    | (Raised e, w) => (Raised e, w)
    | (Returned audio, w) =>
        (* Speed adjustment: map rate (wpm) to a playback speed factor *)
        let baseline_rate := 200%positive in
        let respawn :=
          speed_factor <- int_truediv (rate params) baseline_rate ;;
          let speed_factor := max2 (lit 5 1) (min2 (lit 20 1) speed_factor) in
          if fgtb (fabs (fsub speed_factor (lit 10 1))) (lit 5 2) then
            fr <- float_of_int (frame_rate audio) ;;
            nfr <- int_of_float (fmul fr speed_factor) ;;
            Ok (Some nfr)
          else Ok None in
        match respawn with
        | Raise e => (Raised e, w)
        | Ok nfr =>
            (* Volume adjustment *)
            let volume_db :=
              fmul (fsub (volume params) (lit 85 2)) (float_of_Z 20) in
            pydub_export os (mkGttsExport tmp_path nfr volume_db output_path) w
        end
    end.

(** The [try] block with its [except ImportError] clause. *)
Definition try_postprocess (os : OS) (params : VoiceParams)
    (tmp_path output_path : string) (w : World) : result unit * World :=
  match postprocess os params tmp_path output_path w with
  | (Returned u, w) => (Ok u, w)
  | (ImportErrorRaised, w) => shutil_move os tmp_path output_path w
  | (Raised e, w) => (Raise e, w)
  end.

Definition _synthesize_gtts (os : OS) : backend_method :=
  fun text params output_path w =>
  if negb (gtts_installed os) then (Raise (ImportError "gtts"), w)
  else
    (* gTTS produces an mp3 *)
    let output_path :=
      if negb (endswith output_path ".mp3")
      then rsplit_dot_head output_path ++ ".mp3" else output_path in
    let tmp_path :=
      os_path_join (tempdir os)
                   ("gtts_" ++ uuid_hex8 os (uuids_drawn w) ++ ".mp3") in
    let w := mkWorld (files w) (S (uuids_drawn w)) in
    match gtts_save os text tmp_path w with
    | (Raise e, w) => (Raise e, w)
    | (Ok _, w) =>
        let '(outcome, w) :=
          try_postprocess os params tmp_path output_path w in
        let w := remove_tmp os tmp_path w in
        match outcome with
        | Raise e => (Raise e, w)
        | Ok _ => (Ok (abspath os output_path), w)
        end
    end.

(** The environment of [TTSEngine.synthesize] with these three methods. *)
Definition env (os : OS) : TTSEngine.Env :=
  TTSEngine.mkEnv (platform_is_macos os) (output_dir os) (uuid_hex8 os)
                  (_synthesize_macos_say os) (_synthesize_pyttsx3 os)
                  (_synthesize_gtts os) (str_lower os).

End Backends.

(* ===================================================================== *)
(** * A sample operating system *)
(* ===================================================================== *)

Module SampleOS.

Import TTSEngine.
Import Backends.

Definition write (path : string) (w : World) : World :=
  mkWorld (path :: files w) (uuids_drawn w).

(** A macOS host: [say] writes its output file, [afconvert] is missing,
    the Python subprocess hangs, and neither gtts nor pydub is installed. *)
Definition run (cmd : list string) (timeout : Z) (w : World)
  : run_outcome * World :=
  match cmd with
  | "say" :: _ => (Completed 0 "", write (nth 6 cmd "") w)
  | "afconvert" :: _ => (FileNotFoundError, w)
  | _ => (TimeoutExpired, w)
  end.

Definition mac : OS :=
  mkOS true "/srv/app/output" (fun _ => "0a1b2c3d")
       (fun p => p) run (fun _ w => w) (fun _ _ => false)
       "/usr/bin/python3" (fun _ _ _ _ => "<script>")
       (fun _ _ _ w => w)
       false (fun _ _ w => (Ok tt, w)) "/tmp"
       false (fun _ w => (Returned (mkAudio 24000), w))
       (fun _ w => (Returned tt, w))
       (fun _ _ w => (Ok tt, w))
       (fun s => s).

Definition remove (path : string) (w : World) : World :=
  mkWorld (filter (fun f => negb (String.eqb f path)) (files w))
          (uuids_drawn w).

Definition present (path : string) (w : World) : bool :=
  existsb (String.eqb path) (files w).

(** A host with gtts and pydub, where every step works. *)
Definition cloud : OS :=
  mkOS false "/srv/app/output" (fun _ => "0a1b2c3d")
       (fun p => p) run remove present
       "/usr/bin/python3" (fun _ _ _ _ => "<script>")
       (fun _ _ _ w => w)
       true (fun _ tmp w => (Ok tt, write tmp w)) "/tmp"
       true (fun _ w => (Returned (mkAudio 24000), w))
       (fun x w => (Returned tt, write (target x) w))
       (fun _ dst w => (Ok tt, write dst w))
       (fun s => s).

Definition params : VoiceMapper.VoiceParams :=
  VoiceMapper.mkVoiceParams 230 (lit 1175 3) (lit 925 3).

End SampleOS.

(* ===================================================================== *)
(** * cli.py *)
(* ===================================================================== *)

Module Cli.





(** The [choices] of [--engine] in [main]: [argparse] accepts no other
    value, and [main] hands the value to [EmpathyEngine]. *)
Definition ENGINE_CHOICES : list string := ["pyttsx3"; "gtts"; "auto"].

End Cli.

(* ===================================================================== *)
(** * Facts about floats *)
(* ===================================================================== *)

Section FloatFacts.

Lemma fltb_fleb (a b : float) : fltb a b = true -> fleb a b = true.
Proof.
  unfold fltb, fleb, SFltb, SFleb.
  destruct (SFcompare a b) as [[ | | ] | ]; congruence.
Qed.

Lemma one_eq : lit 10 1 = S754_finite false 4503599627370496 (-52).
Proof. vm_compute. reflexivity. Qed.

Lemma zero_eq : lit 0 1 = S754_zero false.
Proof. vm_compute. reflexivity. Qed.

(** *** Binary digits *)

Lemma digits2_pos_bounds (m : positive) :
  2 ^ (Zpos (digits2_pos m) - 1) <= Zpos m < 2 ^ Zpos (digits2_pos m).
Proof.
  induction m as [m IH | m IH | ]; cbn [digits2_pos].
  - rewrite Pos2Z.inj_succ, Pos2Z.inj_xI.
    replace (Z.succ (Zpos (digits2_pos m)) - 1)
      with (Z.succ (Zpos (digits2_pos m) - 1)) by lia.
    rewrite !Z.pow_succ_r by lia. lia.
  - rewrite Pos2Z.inj_succ. change (Zpos m~0) with (2 * Zpos m).
    replace (Z.succ (Zpos (digits2_pos m)) - 1)
      with (Z.succ (Zpos (digits2_pos m) - 1)) by lia.
    rewrite !Z.pow_succ_r by lia. lia.
  - split; vm_compute; congruence.
Qed.

Lemma digits2_pos_le (m : positive) (k : Z) :
  Zpos m < 2 ^ k -> Zpos (digits2_pos m) <= k.
Proof.
  intros H. destruct (digits2_pos_bounds m) as [Hl _].
  destruct (Z_lt_le_dec k (Zpos (digits2_pos m))) as [Hlt | Hle]; [ | exact Hle].
  exfalso.
  assert (2 ^ k <= 2 ^ (Zpos (digits2_pos m) - 1)).
  { destruct (Z_lt_le_dec k 0) as [Hneg | Hnn].
    - rewrite (Z.pow_neg_r 2 k) by lia. apply Z.pow_nonneg. lia.
    - apply Z.pow_le_mono_r; lia. }
  lia.
Qed.

Lemma digits2_pos_lt (m : positive) (k : Z) :
  Zpos (digits2_pos m) <= k -> Zpos m < 2 ^ k.
Proof.
  intros H. destruct (digits2_pos_bounds m) as [_ Hu].
  assert (2 ^ Zpos (digits2_pos m) <= 2 ^ k) by (apply Z.pow_le_mono_r; lia).
  lia.
Qed.

(** *** Shifting a mantissa right *)

Lemma shr_1_m (r : shr_record) :
  0 <= shr_m r -> shr_m (shr_1 r) = shr_m r / 2.
Proof.
  destruct r as [m rb sb]. cbn [shr_m]. intros H.
  destruct m as [ | [q | q | ] | q]; cbn [shr_1 shr_m]; try lia.
  - reflexivity.
  - apply (Z.div_unique _ 2 _ 1); lia.
  - apply (Z.div_unique _ 2 _ 0); lia.
  - reflexivity.
Qed.

Lemma iter_shr_m (p : positive) (r : shr_record) :
  0 <= shr_m r -> shr_m (iter_pos shr_1 p r) = shr_m r / 2 ^ Zpos p.
Proof.
  revert r. induction p as [p IH | p IH | ]; intros r H; cbn [iter_pos].
  - assert (H1 : 0 <= shr_m (shr_1 r))
      by (rewrite shr_1_m by exact H; apply Z.div_pos; lia).
    assert (H2 : 0 <= shr_m (iter_pos shr_1 p (shr_1 r)))
      by (rewrite IH by exact H1; apply Z.div_pos; [exact H1 | lia]).
    rewrite (IH _ H2), (IH _ H1), (shr_1_m _ H).
    assert (Hp : 0 < 2 ^ Zpos p) by (apply Z.pow_pos_nonneg; lia).
    rewrite !Z.div_div by lia. f_equal.
    rewrite Pos2Z.inj_xI.
    replace (2 * Zpos p + 1) with (Z.succ (Zpos p + Zpos p)) by lia.
    rewrite Z.pow_succ_r, Z.pow_add_r by lia. lia.
  - assert (H1 : 0 <= shr_m (iter_pos shr_1 p r))
      by (rewrite IH by exact H; apply Z.div_pos; [exact H | lia]).
    rewrite (IH _ H1), (IH _ H).
    assert (Hp : 0 < 2 ^ Zpos p) by (apply Z.pow_pos_nonneg; lia).
    rewrite Z.div_div by lia. f_equal.
    change (Zpos p~0) with (2 * Zpos p).
    replace (2 * Zpos p) with (Zpos p + Zpos p) by lia.
    rewrite Z.pow_add_r by lia. reflexivity.
  - rewrite (shr_1_m _ H). reflexivity.
Qed.

Lemma shr_fexp_spec (m e : Z) (l : location) :
  0 <= m ->
  let e' := Z.max e (fexp prec emax (Zdigits2 m + e)) in
  snd (shr_fexp prec emax m e l) = e'
  /\ shr_m (fst (shr_fexp prec emax m e l)) = m / 2 ^ (e' - e).
Proof.
  intros Hm e'. unfold shr_fexp, shr.
  assert (Hrec : shr_m (shr_record_of_loc m l) = m)
    by (destruct l as [ | [ | | ]]; reflexivity).
  subst e'. set (f := fexp prec emax (Zdigits2 m + e)).
  destruct (f - e) as [ | p | p] eqn:Hd; cbn [fst snd].
  - replace (Z.max e f) with e by lia.
    rewrite Z.sub_diag, Z.pow_0_r, Z.div_1_r. split; [reflexivity | exact Hrec].
  - replace (Z.max e f) with (e + Zpos p) by lia.
    replace (e + Zpos p - e) with (Zpos p) by lia.
    split; [reflexivity | ].
    rewrite iter_shr_m by (rewrite Hrec; exact Hm). rewrite Hrec. reflexivity.
  - replace (Z.max e f) with e by lia.
    rewrite Z.sub_diag, Z.pow_0_r, Z.div_1_r. split; [reflexivity | exact Hrec].
Qed.

Lemma round_nearest_even_bounds (m : Z) (l : location) :
  m <= round_nearest_even m l <= m + 1.
Proof.
  destruct l as [ | [ | | ]]; cbn [round_nearest_even]; try lia.
  destruct (Z.even m); lia.
Qed.

(** *** Rounding keeps small numbers finite *)

Lemma round_aux_mag (s : bool) (mx ex : Z) (l : location) (b : Z) :
  0 < mx -> mx < 2 ^ (b - ex) -> b <= 971 ->
  mag_leb (binary_round_aux prec emax s mx ex l) (Z.max b (-1073) + 54) = true.
Proof.
  intros Hpos Hlt Hb.
  assert (Hd : 1 <= Zdigits2 mx <= b - ex /\ mx < 2 ^ Zdigits2 mx).
  { destruct mx as [ | q | q]; try lia. cbn [Zdigits2].
    pose proof (digits2_pos_le q _ Hlt).
    pose proof (Pos2Z.is_pos (digits2_pos q)).
    pose proof (digits2_pos_bounds q). lia. }
  destruct Hd as [Hd Hmx].
  unfold binary_round_aux.
  destruct (shr_fexp_spec mx ex l) as [He1 Hm1]; [lia | ].
  destruct (shr_fexp prec emax mx ex l) as [r1 e1]. cbn [fst snd] in He1, Hm1.
  rewrite <- He1 in Hm1.
  set (m2 := round_nearest_even (shr_m r1) (loc_of_shr_record r1)).
  pose proof (round_nearest_even_bounds (shr_m r1) (loc_of_shr_record r1)) as Hm2.
  fold m2 in Hm2.
  assert (He1' : ex <= e1 /\ Zdigits2 mx + ex - 53 <= e1 /\ -1074 <= e1
                 /\ e1 <= Z.max (b - 1) (-1074)).
  { rewrite He1. unfold fexp, SpecFloat.emin, prec, emax. lia. }
  assert (Hpow : 0 < 2 ^ (e1 - ex)) by (apply Z.pow_pos_nonneg; lia).
  assert (H53 : 2 ^ 53 < 2 ^ 54) by (vm_compute; reflexivity).
  assert (Hm1' : 0 <= shr_m r1 < 2 ^ 53).
  { rewrite Hm1. split.
    - apply Z.div_pos; lia.
    - apply Z.div_lt_upper_bound; [exact Hpow | ].
      rewrite <- Z.pow_add_r by lia.
      assert (2 ^ Zdigits2 mx <= 2 ^ (e1 - ex + 53))
        by (apply Z.pow_le_mono_r; lia).
      lia. }
  assert (Hd2 : 0 <= Zdigits2 m2 <= 54).
  { destruct m2 as [ | q | q]; cbn [Zdigits2]; try lia.
    pose proof (digits2_pos_le q 54). pose proof (Pos2Z.is_pos (digits2_pos q)).
    lia. }
  destruct (shr_fexp_spec m2 e1 loc_Exact) as [He2 Hm3]; [lia | ].
  destruct (shr_fexp prec emax m2 e1 loc_Exact) as [r2 e2].
  cbn [fst snd] in He2, Hm3. rewrite <- He2 in Hm3.
  assert (He2' : e1 <= e2 <= e1 + 1).
  { rewrite He2. unfold fexp, SpecFloat.emin, prec, emax. lia. }
  assert (Hpow2 : 0 < 2 ^ (e2 - e1)) by (apply Z.pow_pos_nonneg; lia).
  assert (Hm3' : 0 <= shr_m r2 <= m2).
  { rewrite Hm3. split.
    - apply Z.div_pos; lia.
    - apply Z.div_le_upper_bound; [exact Hpow2 | nia]. }
  destruct (shr_m r2) as [ | q | q] eqn:Hr2; [reflexivity | | lia].
  unfold prec, emax.
  replace (e2 <=? 1024 - 53) with true by (symmetry; apply Z.leb_le; lia).
  cbn [mag_leb]. apply Z.leb_le.
  pose proof (digits2_pos_le q 54). lia.
Qed.

Lemma pos_iter_xO (m d : positive) :
  Zpos (Pos.iter xO m d) = Zpos m * 2 ^ Zpos d.
Proof.
  induction d as [ | d IH] using Pos.peano_ind.
  - cbn [Pos.iter]. change (Zpos m~0) with (2 * Zpos m).
    change (2 ^ 1) with 2. lia.
  - rewrite Pos.iter_succ.
    change (Zpos (Pos.iter xO m d)~0) with (2 * Zpos (Pos.iter xO m d)).
    rewrite IH, Pos2Z.inj_succ, Z.pow_succ_r by lia. lia.
Qed.

Lemma shl_align_bound (m : positive) (e e' b : Z) :
  Zpos m < 2 ^ (b - e) ->
  Zpos (fst (shl_align m e e')) < 2 ^ (b - snd (shl_align m e e'))
  /\ snd (shl_align m e e') <= e.
Proof.
  intros H. unfold shl_align.
  destruct (e' - e) as [ | d | d] eqn:Hd; cbn [fst snd]; try (split; [exact H | lia]).
  split; [ | lia].
  rewrite pos_iter_xO.
  assert (Hbe : 0 <= b - e).
  { destruct (Z_lt_le_dec (b - e) 0) as [Hneg | Hnn]; [ | exact Hnn].
    rewrite (Z.pow_neg_r 2 (b - e)) in H by lia. lia. }
  replace (b - e') with ((b - e) + Zpos d) by lia.
  rewrite Z.pow_add_r by lia.
  assert (0 < 2 ^ Zpos d) by (apply Z.pow_pos_nonneg; lia). nia.
Qed.

Lemma shl_align_value (m : positive) (e e' : Z) :
  e' <= e -> Zpos (fst (shl_align m e e')) = Zpos m * 2 ^ (e - e').
Proof.
  intros H. unfold shl_align.
  destruct (e' - e) as [ | d | d] eqn:Hd; cbn [fst]; try lia.
  - replace (e - e') with 0 by lia. rewrite Z.pow_0_r. lia.
  - rewrite pos_iter_xO. replace (e - e') with (Zpos d) by lia. reflexivity.
Qed.

Lemma binary_round_mag (s : bool) (m : positive) (e b : Z) :
  Zpos m < 2 ^ (b - e) -> b <= 971 ->
  mag_leb (binary_round prec emax s m e) (Z.max b (-1073) + 54) = true.
Proof.
  intros H Hb. unfold binary_round.
  destruct (shl_align_bound m e
              (fexp prec emax (Zpos (digits2_pos m) + e)) b H) as [Hlt _].
  destruct (shl_align m e (fexp prec emax (Zpos (digits2_pos m) + e)))
    as [mz ez]. cbn [fst snd] in Hlt.
  apply round_aux_mag; [lia | exact Hlt | exact Hb].
Qed.

Lemma mag_leb_lt (s : bool) (m : positive) (e b : Z) :
  mag_leb (S754_finite s m e) b = true -> Zpos m < 2 ^ (b - e).
Proof.
  cbn [mag_leb]. intros H. apply Z.leb_le in H.
  apply digits2_pos_lt. lia.
Qed.

(** The product of two bounded floats is bounded, hence finite. *)
Lemma fmul_mag (x y : float) (bx by_ : Z) :
  mag_leb x bx = true -> mag_leb y by_ = true -> bx + by_ <= 971 ->
  mag_leb (fmul x y) (Z.max (bx + by_) (-1073) + 54) = true.
Proof.
  intros Hx Hy Hb.
  destruct x as [sx | sx | | sx mx ex]; try discriminate Hx;
    destruct y as [sy | sy | | sy my ey]; try discriminate Hy;
      try reflexivity.
  unfold fmul, SFmul. apply round_aux_mag; [lia | | exact Hb].
  apply mag_leb_lt in Hx. apply mag_leb_lt in Hy.
  assert (Hbx : 0 <= bx - ex).
  { destruct (Z_lt_le_dec (bx - ex) 0) as [Hneg | Hnn]; [ | exact Hnn].
    rewrite (Z.pow_neg_r 2 (bx - ex)) in Hx by lia. lia. }
  assert (Hby : 0 <= by_ - ey).
  { destruct (Z_lt_le_dec (by_ - ey) 0) as [Hneg | Hnn]; [ | exact Hnn].
    rewrite (Z.pow_neg_r 2 (by_ - ey)) in Hy by lia. lia. }
  replace (bx + by_ - (ex + ey)) with ((bx - ex) + (by_ - ey)) by lia.
  rewrite Z.pow_add_r by lia. rewrite Pos2Z.inj_mul. nia.
Qed.

(** The sum of two bounded floats is bounded, hence finite. *)
Lemma fadd_mag (x y : float) (b : Z) :
  mag_leb x b = true -> mag_leb y b = true -> b + 1 <= 971 ->
  mag_leb (fadd x y) (Z.max (b + 1) (-1073) + 54) = true.
Proof.
  intros Hx Hy Hb.
  assert (Hweak : forall z, mag_leb z b = true ->
                            mag_leb z (Z.max (b + 1) (-1073) + 54) = true).
  { intros [sz | sz | | sz mz ez]; cbn [mag_leb]; try congruence.
    intros H. apply Z.leb_le in H. apply Z.leb_le. lia. }
  destruct x as [sx | sx | | sx mx ex]; try discriminate Hx;
    destruct y as [sy | sy | | sy my ey]; try discriminate Hy.
  - destruct sx, sy; reflexivity.
  - apply Hweak. exact Hy.
  - apply Hweak. exact Hx.
  - unfold fadd, SFadd. cbv zeta.
    set (ez := Z.min ex ey).
    rewrite (shl_align_value mx ex ez), (shl_align_value my ey ez)
      by (unfold ez; lia).
    apply mag_leb_lt in Hx. apply mag_leb_lt in Hy.
    assert (Hbx : 0 <= b - ex).
    { destruct (Z_lt_le_dec (b - ex) 0) as [Hneg | Hnn]; [ | exact Hnn].
      rewrite (Z.pow_neg_r 2 (b - ex)) in Hx by lia. lia. }
    assert (Hby : 0 <= b - ey).
    { destruct (Z_lt_le_dec (b - ey) 0) as [Hneg | Hnn]; [ | exact Hnn].
      rewrite (Z.pow_neg_r 2 (b - ey)) in Hy by lia. lia. }
    assert (Hax : 0 < Zpos mx * 2 ^ (ex - ez) < 2 ^ (b - ez)).
    { assert (0 < 2 ^ (ex - ez)) by (apply Z.pow_pos_nonneg; unfold ez; lia).
      replace (b - ez) with ((b - ex) + (ex - ez)) by lia.
      rewrite Z.pow_add_r by (unfold ez; lia). nia. }
    assert (Hay : 0 < Zpos my * 2 ^ (ey - ez) < 2 ^ (b - ez)).
    { assert (0 < 2 ^ (ey - ez)) by (apply Z.pow_pos_nonneg; unfold ez; lia).
      replace (b - ez) with ((b - ey) + (ey - ez)) by lia.
      rewrite Z.pow_add_r by (unfold ez; lia). nia. }
    set (ax := Zpos mx * 2 ^ (ex - ez)) in *.
    set (ay := Zpos my * 2 ^ (ey - ez)) in *.
    assert (Hsum : Z.abs (cond_Zopp sx ax + cond_Zopp sy ay) < 2 ^ (b + 1 - ez)).
    { replace (b + 1 - ez) with (Z.succ (b - ez)) by lia.
      rewrite Z.pow_succ_r by (unfold ez; lia).
      destruct sx, sy; cbn [cond_Zopp]; lia. }
    destruct (cond_Zopp sx ax + cond_Zopp sy ay) as [ | q | q];
      cbn [binary_normalize]; [reflexivity | | ];
      apply binary_round_mag; (exact Hb || (cbn [Z.abs] in Hsum; exact Hsum)).
Qed.

(** A bounded float converts to an integer. *)
Lemma int_of_float_mag (x : float) (b : Z) :
  mag_leb x b = true -> exists z, int_of_float x = Ok z.
Proof.
  destruct x as [sx | sx | | sx mx ex]; cbn [mag_leb]; try discriminate;
    intros _; eexists; reflexivity.
Qed.

End FloatFacts.

(* ===================================================================== *)
(** * The emotion detector *)
(* ===================================================================== *)

Section DetectorFacts.

Import EmotionDetector.

(** The polarity-only path always produces a result. *)
Lemma detect_polarity_only (analyzer : string -> VaderScores) (txt : string) :
  detect (mkEmotionDetector analyzer None) txt =
  Ok (let s := analyzer txt in
      let e := if fgeb (compound s) (lit 5 2) then "joy"
               else if fleb (compound s) (SFopp (lit 5 2)) then "sadness"
               else "neutral" in
      mkEmotionResult txt e (_compute_intensity s) e s []).
Proof.
  unfold detect, _vader_analyse, _vader_polarity. cbn [hf_classifier vader].
  destruct (fgeb (compound (analyzer txt)) (lit 5 2)); [reflexivity | ].
  destruct (fleb (compound (analyzer txt)) (SFopp (lit 5 2))); reflexivity.
Qed.

(** With a classifier, [detect] succeeds exactly when [_hf_analyse] does. *)
Lemma detect_with_classifier (analyzer : string -> VaderScores)
  (clf : classifier) (txt : string) :
  detect (mkEmotionDetector analyzer (Some clf)) txt =
  match _hf_analyse clf txt with
  | Ok (scores, label) =>
      Ok (mkEmotionResult txt (dict_get_default HF_LABEL_MAP label label)
            (_compute_intensity (analyzer txt)) label (analyzer txt) scores)
  | Raise e => Raise e
  end.
Proof.
  unfold detect. cbn [hf_classifier].
  destruct (_hf_analyse clf txt) as [[scores label] | e]; reflexivity.
Qed.

End DetectorFacts.

(** C5: the intensity [detect] reports is [min(abs(compound) * 1.2, 1.0)]
    of the sentiment scorer's compound score, on the polarity-only path and
    on the classifier path alike ([detect] yields no result only when the
    classifier path raises); a compound of 0.5 gives 0.6, of -1.0 gives the
    clamped 1.0, and of 0 gives 0. *)
Theorem C5_intensity_formula :
  (forall (d : EmotionDetector.t) (txt : string),
      let a := fmul (fabs (EmotionDetector.compound (EmotionDetector.vader d txt)))
                    (lit 12 1) in
      match EmotionDetector.detect d txt with
      | Ok r => EmotionDetector.intensity r
                = (if fltb (lit 10 1) a then lit 10 1 else a)
      | Raise _ => EmotionDetector.hf_classifier d <> None
      end)
  /\ (forall txt,
         exists r,
           EmotionDetector.detect
             (EmotionDetector.mkEmotionDetector (Sample.scorer (lit 5 1)) None) txt
           = Ok r /\ EmotionDetector.intensity r = lit 6 1)
  /\ (forall txt,
         exists r,
           EmotionDetector.detect
             (EmotionDetector.mkEmotionDetector
                (Sample.scorer (SFopp (lit 10 1))) None) txt
           = Ok r /\ EmotionDetector.intensity r = lit 10 1)
  /\ (forall txt,
         exists r,
           EmotionDetector.detect
             (EmotionDetector.mkEmotionDetector (Sample.scorer (lit 0 1)) None) txt
           = Ok r /\ EmotionDetector.intensity r = lit 0 1).
Proof.
  split; [ | repeat split; intros txt; rewrite detect_polarity_only;
             eexists; (split; [reflexivity | vm_compute; reflexivity]) ].
  intros [analyzer [clf | ]] txt a.
  - rewrite detect_with_classifier.
    destruct (EmotionDetector._hf_analyse clf txt) as [[scores label] | e].
    + reflexivity.
    + discriminate.
  - rewrite detect_polarity_only. reflexivity.
Qed.

(** C6: without a classifier the primary emotion follows the polarity
    bucket of the compound score: at least 0.05 is "positive" and gives
    "joy", at most -0.05 is "negative" and gives "sadness", anything else
    is "neutral"; both thresholds belong to their bucket. *)
Theorem C6_polarity_fallback :
  (forall (analyzer : string -> EmotionDetector.VaderScores) (txt : string),
      let c := EmotionDetector.compound (analyzer txt) in
      exists r,
        EmotionDetector.detect
          (EmotionDetector.mkEmotionDetector analyzer None) txt = Ok r
        /\ EmotionDetector._vader_polarity (analyzer txt)
           = (if fleb (lit 5 2) c then "positive"
              else if fleb c (SFopp (lit 5 2)) then "negative"
              else "neutral")
        /\ EmotionDetector.primary_emotion r
           = (if fleb (lit 5 2) c then "joy"
              else if fleb c (SFopp (lit 5 2)) then "sadness"
              else "neutral")
        /\ EmotionDetector.granular_label r = EmotionDetector.primary_emotion r
        /\ EmotionDetector.hf_scores r = [])
  /\ EmotionDetector._vader_polarity (Sample.scorer (lit 5 2) "") = "positive"
  /\ EmotionDetector._vader_polarity (Sample.scorer (SFopp (lit 5 2)) "")
     = "negative"
  /\ EmotionDetector._vader_polarity (Sample.scorer (SFopp (lit 6 2)) "")
     = "negative"
  /\ EmotionDetector._vader_polarity (Sample.scorer (lit 0 1) "") = "neutral"
  /\ EmotionDetector._vader_polarity (Sample.scorer (lit 49 3) "") = "neutral"
  /\ EmotionDetector._vader_polarity (Sample.scorer (SFopp (lit 49 3)) "")
     = "neutral".
Proof.
  split; [ | repeat split; vm_compute; reflexivity ].
  intros analyzer txt c. rewrite detect_polarity_only.
  eexists. split; [reflexivity | ]. cbn zeta.
  cbn [EmotionDetector.primary_emotion EmotionDetector.granular_label
       EmotionDetector.hf_scores].
  unfold EmotionDetector._vader_polarity, fgeb. fold c.
  repeat split.
Qed.

(** C1, as stated, fails: with a classifier whose best label is "love",
    which the normalization table does not list, [detect] reports "love"
    as the primary emotion, not "neutral", and "love" is none of the
    enumerated emotions. *)
Lemma C1_counterexample :
  let d := EmotionDetector.mkEmotionDetector (Sample.scorer (lit 5 1))
                                            (Some Sample.clf_love) in
  exists r,
    EmotionDetector.detect d "I adore you" = Ok r
    /\ dict_get EmotionDetector.HF_LABEL_MAP "love" = None
    /\ EmotionDetector.granular_label r = "love"
    /\ EmotionDetector.primary_emotion r <> "neutral"
    /\ ~ In (EmotionDetector.primary_emotion r)
            EmotionDetector.EMOTION_CATEGORIES.
Proof.
  cbv zeta. eexists. split; [vm_compute; reflexivity | ].
  cbn [EmotionDetector.granular_label EmotionDetector.primary_emotion].
  repeat split; try reflexivity.
  - discriminate.
  - cbn. intros H. repeat (destruct H as [H | H]; [discriminate H | ]). exact H.
Qed.

(** C1, amended: when the classifier is active and its best label is not
    in the normalization table, [detect] returns that label unchanged both
    as granular label and as primary emotion; it is the mapper that then
    treats a label absent from its profile table like "neutral". *)
Theorem C1_unknown_label_passes_through
  (analyzer : string -> EmotionDetector.VaderScores)
  (clf : EmotionDetector.classifier) (txt : string)
  (scores : dict float) (label : string)
  (Hrun : EmotionDetector._hf_analyse clf txt = Ok (scores, label))
  (Hunknown : dict_get EmotionDetector.HF_LABEL_MAP label = None) :
  (exists r,
      EmotionDetector.detect
        (EmotionDetector.mkEmotionDetector analyzer (Some clf)) txt = Ok r
      /\ EmotionDetector.granular_label r = label
      /\ EmotionDetector.primary_emotion r = label)
  /\ (dict_get VoiceMapper.EMOTION_PROFILE label = None ->
      forall (m : VoiceMapper.t) (i : float),
        VoiceMapper.map m label i = VoiceMapper.map m "neutral" i).
Proof.
  split.
  - rewrite detect_with_classifier, Hrun. eexists. split; [reflexivity | ].
    cbn [EmotionDetector.granular_label EmotionDetector.primary_emotion].
    unfold dict_get_default. rewrite Hunknown. split; reflexivity.
  - intros Hprof m i. unfold VoiceMapper.map, VoiceMapper.lookup_profile.
    unfold dict_get_default. rewrite Hprof. reflexivity.
Qed.

Lemma C1_unknown_label_passes_through_witness :
  EmotionDetector._hf_analyse Sample.clf_love "I adore you"
  = Ok ([("joy", lit 1 1); ("love", lit 9 1)], "love")
  /\ (exists r,
         EmotionDetector.detect
           (EmotionDetector.mkEmotionDetector (Sample.scorer (lit 5 1))
                                              (Some Sample.clf_love))
           "I adore you" = Ok r
         /\ EmotionDetector.granular_label r = "love"
         /\ EmotionDetector.primary_emotion r = "love").
Proof.
  split; [vm_compute; reflexivity | ].
  apply (C1_unknown_label_passes_through (Sample.scorer (lit 5 1))
           Sample.clf_love "I adore you"
           [("joy", lit 1 1); ("love", lit 9 1)] "love");
    vm_compute; reflexivity.
Defined.

(** C2, as stated, fails: an exception raised by the classifier during
    classification leaves [detect] as that exception; no result is
    returned. *)
Lemma C2_counterexample :
  let d := EmotionDetector.mkEmotionDetector (Sample.scorer (lit 5 1))
                                            (Some Sample.clf_failing) in
  EmotionDetector.detect d "hello" = Raise (RuntimeError "inference failed")
  /\ ~ (exists r, EmotionDetector.detect d "hello" = Ok r).
Proof.
  cbv zeta. split; [vm_compute; reflexivity | ].
  intros [r Hr]. vm_compute in Hr. discriminate Hr.
Qed.

(** C2, amended: only a failure to load the classifier is absorbed (by the
    constructor, which leaves the detector on the polarity-only path, where
    [detect] always returns a result); an exception raised by the
    classifier while classifying propagates out of [detect] unchanged. *)
Theorem C2_classifier_failure_propagates
  (analyzer : string -> EmotionDetector.VaderScores)
  (clf : EmotionDetector.classifier) (txt : string) (e : exn)
  (Hfail : clf txt = Raise e) :
  EmotionDetector.detect
    (EmotionDetector.mkEmotionDetector analyzer (Some clf)) txt = Raise e
  /\ (exists r,
         EmotionDetector.detect
           (EmotionDetector.mkEmotionDetector analyzer None) txt = Ok r)
  /\ (forall (available use_hf : bool) (load_error : exn),
         let d := EmotionDetector.__init__ analyzer available (Raise load_error)
                                       use_hf in
         EmotionDetector.hf_classifier d = None
         /\ exists r, EmotionDetector.detect d txt = Ok r).
Proof.
  split; [ | split ].
  - rewrite detect_with_classifier. unfold EmotionDetector._hf_analyse.
    rewrite Hfail. reflexivity.
  - rewrite detect_polarity_only. eexists. reflexivity.
  - intros available use_hf load_error d.
    assert (Hd : d = EmotionDetector.mkEmotionDetector analyzer None).
    { unfold d, EmotionDetector.__init__.
      destruct (use_hf && available)%bool; reflexivity. }
    rewrite Hd. split; [reflexivity | ].
    rewrite detect_polarity_only. eexists. reflexivity.
Qed.

Lemma C2_classifier_failure_propagates_witness :
  EmotionDetector.detect
    (EmotionDetector.mkEmotionDetector (Sample.scorer (lit 5 1))
                                       (Some Sample.clf_failing)) "hello"
  = Raise (RuntimeError "inference failed").
Proof.
  apply (C2_classifier_failure_propagates (Sample.scorer (lit 5 1))
           Sample.clf_failing "hello" (RuntimeError "inference failed")).
  reflexivity.
Defined.

(* ===================================================================== *)
(** * Synthesis dispatch and the HTTP handler *)
(* ===================================================================== *)

Section DispatchFacts.

(** An unknown backend reaches the final [else]: a [ValueError], and no
    backend method has run. *)
Lemma synthesize_unknown (env : TTSEngine.Env) (self : TTSEngine.t)
  (txt : string) (params : VoiceMapper.VoiceParams)
  (output_path : option string) (w : TTSEngine.World) :
  TTSEngine.known_backend (TTSEngine.backend self) = false ->
  fst (TTSEngine.synthesize env self txt params output_path w)
  = Raise (ValueError ("Unknown TTS backend: " ++ TTSEngine.backend self))
  /\ TTSEngine.files (snd (TTSEngine.synthesize env self txt params output_path w))
     = TTSEngine.files w.
Proof.
  unfold TTSEngine.known_backend. intros H.
  apply orb_false_elim in H. destruct H as [H Hg].
  apply orb_false_elim in H. destruct H as [Hm Hp].
  unfold TTSEngine.synthesize.
  destruct output_path as [p | ]; rewrite ?Hg, Hm, Hp; split; reflexivity.
Qed.

(** Whatever the earlier stages do, [process] with an unknown backend ends
    in an exception and writes no file. *)
Lemma process_unknown (env : EmpathyEngine.Env) (self : EmpathyEngine.t)
  (txt : string) (w : TTSEngine.World) :
  TTSEngine.known_backend (TTSEngine.backend (EmpathyEngine.tts self)) = false ->
  (exists e, fst (EmpathyEngine.process env self txt None w) = Raise e)
  /\ TTSEngine.files (snd (EmpathyEngine.process env self txt None w))
     = TTSEngine.files w.
Proof.
  intros H. unfold EmpathyEngine.process.
  match goal with
  | |- context [match ?stages with Ok _ => _ | Raise _ => _ end] =>
      destruct stages as [[[emo vp] expl] | e]
  end.
  - destruct (synthesize_unknown (EmpathyEngine.tts_env env)
                (EmpathyEngine.tts self) txt vp None w H) as [Hr Hf].
    destruct (TTSEngine.synthesize (EmpathyEngine.tts_env env)
                (EmpathyEngine.tts self) txt vp None w) as [[p | e] w'];
      cbn [fst snd] in *; [discriminate Hr | ].
    split; [eexists; reflexivity | exact Hf].
  - split; [eexists; reflexivity | reflexivity].
Qed.

(** The state the handler leaves behind. *)
Lemma handler_state (env : EmpathyEngine.Env) (json : option (dict string))
  (st : WebApp.State) (w : TTSEngine.World) :
  let data := match json with Some d => d | None => [] end in
  snd (fst (WebApp.synthesize env json st w))
  = if String.eqb (strip (dict_get_default data "text" "")) ""
    then st
    else
      let e := fst (WebApp.get_engine env st) in
      WebApp.mkState
        (Some (EmpathyEngine.mkEmpathyEngine
                 (EmpathyEngine.detector e) (EmpathyEngine.mapper e)
                 (TTSEngine.mkTTSEngine
                    (dict_get_default data "engine" "pyttsx3")))).
Proof.
  intros data. unfold WebApp.synthesize. fold data.
  destruct (String.eqb (strip (dict_get_default data "text" "")) "");
    [reflexivity | ].
  destruct (WebApp.get_engine env st) as [e st1]. cbn [fst].
  destruct (EmpathyEngine.process env _ _ None w) as [[r | exc] w'];
    reflexivity.
Qed.

End DispatchFacts.

(** C10, as stated, fails: a request whose engine value is unknown is
    answered with 400, not 500, when it carries no text or only white
    space, since the handler refuses it before it reads the engine
    member. *)
Lemma C10_counterexample :
  let env := Sample.env false in
  let no_text := WebApp.synthesize env (Some [("engine", "espeak")])
                   WebApp.initial Sample.world0 in
  let blank := WebApp.synthesize env
                 (Some [("text", "   "); ("engine", "espeak")])
                 WebApp.initial Sample.world0 in
  TTSEngine.known_backend "espeak" = false
  /\ WebApp.status (fst (fst no_text)) = 400
  /\ WebApp.status (fst (fst no_text)) <> 500
  /\ WebApp.status (fst (fst blank)) = 400
  /\ WebApp.status (fst (fst blank)) <> 500.
Proof.
  cbv zeta. split; [reflexivity | ].
  split; [vm_compute; reflexivity | ]. split; [vm_compute; discriminate | ].
  split; [vm_compute; reflexivity | vm_compute; discriminate].
Qed.

(** C10, amended: an engine whose backend is none of "macos_say",
    "pyttsx3" and "gtts" makes [synthesize] raise [ValueError] before any
    backend method runs, so no audio file is written; "auto" never gives
    such an engine, any other name gives one exactly when its lower-cased
    form is none of the three.  The HTTP handler stores the request's engine
    string unvalidated, so a request whose text is not blank and whose
    engine string is unknown is answered with status 500, not 400, and
    writes no file; a request whose text is blank is answered with 400
    whatever its engine string. *)
Theorem C10_unknown_backend
  (env : EmpathyEngine.Env) (b : string)
  (Hunknown : TTSEngine.known_backend b = false) :
  (forall (txt : string) (params : VoiceMapper.VoiceParams)
          (output_path : option string) (w : TTSEngine.World),
      let out := TTSEngine.synthesize (EmpathyEngine.tts_env env)
                   (TTSEngine.mkTTSEngine b) txt params output_path w in
      fst out = Raise (ValueError ("Unknown TTS backend: " ++ b))
      /\ TTSEngine.files (snd out) = TTSEngine.files w)
  /\ TTSEngine.known_backend
       (TTSEngine.backend (TTSEngine.__init__ (EmpathyEngine.tts_env env) "auto"))
     = true
  /\ (forall (name txt : string) (params : VoiceMapper.VoiceParams)
             (output_path : option string) (w : TTSEngine.World),
         name <> "auto" ->
         lower (TTSEngine.unicode_lower (EmpathyEngine.tts_env env)) name = b ->
         let out := TTSEngine.synthesize (EmpathyEngine.tts_env env)
                      (TTSEngine.__init__ (EmpathyEngine.tts_env env) name)
                      txt params output_path w in
         fst out = Raise (ValueError ("Unknown TTS backend: " ++ b))
         /\ TTSEngine.files (snd out) = TTSEngine.files w)
  /\ (forall (data : dict string) (st : WebApp.State) (w : TTSEngine.World),
         strip (dict_get_default data "text" "") <> "" ->
         dict_get data "engine" = Some b ->
         let out := WebApp.synthesize env (Some data) st w in
         WebApp.status (fst (fst out)) = 500
         /\ WebApp.status (fst (fst out)) <> 400
         /\ TTSEngine.files (snd out) = TTSEngine.files w)
  /\ (forall (data : dict string) (st : WebApp.State) (w : TTSEngine.World),
         strip (dict_get_default data "text" "") = "" ->
         dict_get data "engine" = Some b ->
         WebApp.synthesize env (Some data) st w
         = (WebApp.mkResponse (WebApp.ErrorBody "Please provide some text.")
                              400, st, w)).
Proof.
  split; [ | split; [ | split; [ | split ] ] ].
  - intros txt params output_path w out.
    exact (synthesize_unknown (EmpathyEngine.tts_env env)
             (TTSEngine.mkTTSEngine b) txt params output_path w Hunknown).
  - unfold TTSEngine.__init__. cbn [String.eqb Ascii.eqb Bool.eqb].
    destruct (TTSEngine.is_macos (EmpathyEngine.tts_env env)); reflexivity.
  - intros name txt params output_path w Hname Hlower out.
    unfold out, TTSEngine.__init__.
    apply String.eqb_neq in Hname. rewrite Hname, Hlower.
    exact (synthesize_unknown (EmpathyEngine.tts_env env)
             (TTSEngine.mkTTSEngine b) txt params output_path w Hunknown).
  - intros data st w Htext Hengine out. unfold out, WebApp.synthesize.
    apply String.eqb_neq in Htext. rewrite Htext.
    set (txt := strip (dict_get_default data "text" "")).
    replace (dict_get_default data "engine" "pyttsx3") with b
      by (unfold dict_get_default; rewrite Hengine; reflexivity).
    destruct (WebApp.get_engine env st) as [e st1].
    set (eng := EmpathyEngine.mkEmpathyEngine _ _ _).
    destruct (process_unknown env eng txt w Hunknown) as [[exc Hexc] Hfiles].
    destruct (EmpathyEngine.process env eng _ None w) as [[r | exc'] w'];
      cbn [fst snd] in *; [discriminate Hexc | ].
    repeat split; [discriminate | exact Hfiles].
  - intros data st w Htext _. unfold WebApp.synthesize.
    rewrite Htext. reflexivity.
Qed.

Lemma C10_unknown_backend_witness :
  let out := WebApp.synthesize (Sample.env false)
               (Some [("text", "Good morning"); ("engine", "espeak")])
               WebApp.initial Sample.world0 in
  WebApp.status (fst (fst out)) = 500
  /\ WebApp.status (fst (fst out)) <> 400
  /\ TTSEngine.files (snd out) = [].
Proof.
  refine (proj1 (proj2 (proj2 (proj2
            (C10_unknown_backend (Sample.env false) "espeak" _)))) _ _ _ _ _);
    [reflexivity | vm_compute; discriminate | reflexivity].
Defined.




(* ===================================================================== *)
(** * The voice mapper *)
(* ===================================================================== *)

Section MapperFacts.

Import VoiceMapper.

Lemma dict_get_In {V : Type} (d : dict V) (k : string) (v : V) :
  dict_get d k = Some v -> In (k, v) d.
Proof.
  induction d as [ | [k' v'] d IH]; cbn [dict_get]; [discriminate | ].
  destruct (String.eqb_spec k k') as [-> | Hne].
  - intros [= ->]. left. reflexivity.
  - intros H. right. exact (IH H).
Qed.

Lemma lookup_profile_eq (emotion : string) :
  lookup_profile emotion
  = Ok (dict_get_default EMOTION_PROFILE emotion neutral_profile).
Proof. reflexivity. Qed.

(** Whatever the emotion, the profile used is one of the table's rows. *)
Lemma lookup_in_table (emotion : string) :
  exists k, In (k, dict_get_default EMOTION_PROFILE emotion neutral_profile)
               EMOTION_PROFILE.
Proof.
  unfold dict_get_default.
  destruct (dict_get EMOTION_PROFILE emotion) as [v | ] eqn:H.
  - exists emotion. exact (dict_get_In _ _ _ H).
  - exists "neutral". apply (dict_get_In _ "neutral"). reflexivity.
Qed.

(** What the proofs need of each row: the rate delta converts to a float
    below [2^7], and the pitch at intensity zero of either sign is the
    baseline. *)
Lemma table_rows (k : string) (rd : Z) (pt vd : float) :
  In (k, (rd, pt, vd)) EMOTION_PROFILE ->
  (exists f, float_of_int rd = Ok f /\ mag_leb f 7 = true)
  /\ (forall s, fadd BASELINE_PITCH
                     (fmul (fsub pt BASELINE_PITCH) (S754_zero s))
                = BASELINE_PITCH).
Proof.
  unfold EMOTION_PROFILE. cbn [In]. intros H.
  repeat (destruct H as [H | H];
          [ injection H as <- <- <- <-;
            split; [ eexists; split; vm_compute; reflexivity
                   | intros [ | ]; vm_compute; reflexivity ]
          | ]).
  contradiction H.
Qed.

(** The clamped intensity is [0.0], [1.0] or the intensity itself, and is
    at most one. *)
Lemma clamp_cases (i : float) :
  wf i ->
  mag_leb (clamp_intensity i) 1 = true
  /\ (clamp_intensity i = S754_zero false
      \/ clamp_intensity i = lit 10 1
      \/ (clamp_intensity i = i /\ fltb (lit 0 1) i = true
          /\ fltb i (lit 10 1) = true)).
Proof.
  intros Hwf. unfold clamp_intensity, max2, min2, fgtb.
  rewrite one_eq, zero_eq.
  destruct (fltb i (S754_finite false 4503599627370496 (-52))) eqn:H1.
  - destruct (fltb (S754_zero false) i) eqn:H0.
    + split; [ | right; right; repeat split; reflexivity ].
      destruct i as [s | s | | s m e]; try discriminate H0.
      * destruct s; discriminate.
      * destruct s; [discriminate H0 | ].
        unfold wf in Hwf. cbn [valid_binary] in Hwf.
        unfold bounded, canonical_mantissa in Hwf.
        apply andb_prop in Hwf. destruct Hwf as [Hc _].
        apply Z.eqb_eq in Hc. unfold fexp, SpecFloat.emin, prec, emax in Hc.
        unfold fltb, SFltb in H1. cbn [SFcompare] in H1.
        cbn [mag_leb]. apply Z.leb_le.
        destruct (Z.compare_spec e (-52)); try discriminate H1; lia.
    + split; [reflexivity | left; reflexivity].
  - split; [reflexivity | right; left; reflexivity].
Qed.

(** [map] with the default baselines never raises: the rate, before
    truncation, stays far below the largest float. *)
Lemma map_total (emotion : string) (i : float) :
  wf i ->
  let c := clamp_intensity i in
  let prof := dict_get_default EMOTION_PROFILE emotion neutral_profile in
  exists r,
    map default emotion i
    = Ok (mkVoiceParams r
            (fadd BASELINE_PITCH
                  (fmul (fsub (snd (fst prof)) BASELINE_PITCH) c))
            (max2 (lit 1 1)
                  (min2 (lit 10 1)
                        (fadd BASELINE_VOLUME (fmul (snd prof) c))))).
Proof.
  intros Hwf c prof.
  destruct (lookup_in_table emotion) as [k Hin]. fold prof in Hin.
  unfold map. rewrite lookup_profile_eq. fold prof. fold c. cbn [bind].
  destruct prof as [[rd pt] vd]. cbn [fst snd].
  destruct (table_rows k rd pt vd Hin) as [[f [Hf Hmag]] _].
  rewrite Hf. cbn [bind baseline_rate default __init__].
  assert (H200 : float_of_int BASELINE_RATE
                 = Ok (S754_finite false 7036874417766400 (-45)))
    by (vm_compute; reflexivity).
  rewrite H200. cbn [bind].
  destruct (clamp_cases i Hwf) as [Hc _]. fold c in Hc.
  pose proof (fmul_mag f c 7 1 Hmag Hc ltac:(lia)) as Hmul.
  assert (Hbr : mag_leb (S754_finite false 7036874417766400 (-45))
                        (Z.max (7 + 1) (-1073) + 54) = true)
    by (vm_compute; reflexivity).
  pose proof (fadd_mag _ _ _ Hbr Hmul ltac:(lia)) as Hadd.
  destruct (int_of_float_mag _ _ Hadd) as [z Hz].
  rewrite Hz. cbn [bind baseline_pitch baseline_volume]. exists z. reflexivity.
Qed.

(** The clamp of a value between two comparable floats lies between them. *)
Lemma clamp_between (lo hi x : float) :
  fleb lo hi = true ->
  fleb lo (max2 lo (min2 hi x)) = true /\ fleb (max2 lo (min2 hi x)) hi = true.
Proof.
  intros Hlohi. unfold max2, min2, fgtb.
  assert (Hrefl : forall a b, fleb a b = true -> fleb a a = true /\ fleb b b = true).
  { intros a b. unfold fleb, SFleb.
    destruct a as [sa | sa | | sa ma ea], b as [sb | sb | | sb mb eb];
      cbn [SFcompare]; try discriminate;
      repeat match goal with
             | |- context [if ?s then _ else _] => destruct s
             end;
      try discriminate; intros _; split; try reflexivity;
      rewrite ?Z.compare_refl, ?Pos.compare_cont_refl; reflexivity. }
  destruct (Hrefl _ _ Hlohi) as [Hlo Hhi].
  destruct (fltb x hi) eqn:Hx.
  - destruct (fltb lo x) eqn:Hl.
    + split; apply fltb_fleb; assumption.
    + split; assumption.
  - destruct (fltb lo hi) eqn:Hl.
    + split; assumption.
    + split; assumption.
Qed.

(** An intensity between 0 and 1 is its own clamp, but for the negative
    zero, which becomes the positive one. *)
Lemma clamp_in_range (i : float) :
  fleb (lit 0 1) i = true -> fleb i (lit 10 1) = true ->
  clamp_intensity i = i
  \/ exists s, i = S754_zero s /\ clamp_intensity i = S754_zero false.
Proof.
  unfold clamp_intensity, max2, min2, fgtb, fltb, fleb, SFltb, SFleb.
  rewrite one_eq, zero_eq.
  destruct i as [s | s | | s m e]; cbn [SFcompare].
  - intros _ _. right. exists s. split; reflexivity.
  - destruct s; discriminate.
  - discriminate.
  - destruct s; [discriminate | ]. intros _.
    destruct (Z.compare_spec e (-52)) as [He | He | He].
    + destruct (Pos.compare_cont Eq m 4503599627370496) eqn:Hm.
      * intros _. left.
        apply (Pos.compare_eq m 4503599627370496) in Hm. subst. reflexivity.
      * intros _. left. reflexivity.
      * discriminate.
    + intros _. left. reflexivity.
    + discriminate.
Qed.

End MapperFacts.

(** C4: for a known emotion and an intensity between 0 and 1 the pitch is
    the baseline plus the intensity times the distance from the baseline to
    the profile's absolute pitch target; for "joy" at 0.5 this is
    [1.0 + (1.35 - 1.0) * 0.5], which is the float 1.175. *)
Theorem C4_pitch_interpolates
  (emotion : string) (rd : Z) (pt vd : float) (i : float)
  (Hknown : dict_get VoiceMapper.EMOTION_PROFILE emotion = Some (rd, pt, vd))
  (Hwf : wf i)
  (Hlo : fleb (lit 0 1) i = true) (Hhi : fleb i (lit 10 1) = true) :
  (exists p,
      VoiceMapper.map VoiceMapper.default emotion i = Ok p
      /\ VoiceMapper.pitch p
         = fadd VoiceMapper.BASELINE_PITCH
                (fmul (fsub pt VoiceMapper.BASELINE_PITCH) i))
  /\ (exists p,
         VoiceMapper.map VoiceMapper.default "joy" (lit 5 1) = Ok p
         /\ VoiceMapper.pitch p
            = fadd (lit 10 1) (fmul (fsub (lit 135 2) (lit 10 1)) (lit 5 1))
         /\ VoiceMapper.pitch p = lit 1175 3).
Proof.
  split.
  - destruct (map_total emotion i Hwf) as [r Hr].
    rewrite Hr. eexists. split; [reflexivity | ].
    cbn [VoiceMapper.pitch]. unfold dict_get_default. rewrite Hknown.
    cbn [fst snd].
    destruct (clamp_in_range i Hlo Hhi) as [-> | [s [-> ->]]]; [reflexivity | ].
    destruct (table_rows emotion rd pt vd (dict_get_In _ _ _ Hknown)) as [_ Hz].
    rewrite (Hz false), (Hz s). reflexivity.
  - eexists. split; [vm_compute; reflexivity | ].
    split; vm_compute; reflexivity.
Qed.

Lemma C4_pitch_interpolates_witness :
  exists p,
    VoiceMapper.map VoiceMapper.default "sadness" (lit 25 2) = Ok p
    /\ VoiceMapper.pitch p
       = fadd VoiceMapper.BASELINE_PITCH
              (fmul (fsub (lit 78 2) VoiceMapper.BASELINE_PITCH) (lit 25 2)).
Proof.
  apply (C4_pitch_interpolates "sadness" (-50) (lit 78 2) (SFopp (lit 15 2))
           (lit 25 2)); vm_compute; reflexivity.
Defined.

(** C7: an emotion that the profile table does not list is mapped exactly
    like "neutral", for every intensity and every mapper; and with the
    default baselines [map] raises for no emotion string and no float
    intensity. *)
Theorem C7_unknown_emotion_is_neutral
  (emotion : string)
  (Hunknown : dict_get VoiceMapper.EMOTION_PROFILE emotion = None) :
  (forall (m : VoiceMapper.t) (i : float),
      VoiceMapper.map m emotion i = VoiceMapper.map m "neutral" i)
  /\ (forall (any : string) (i : float),
         wf i -> exists p, VoiceMapper.map VoiceMapper.default any i = Ok p).
Proof.
  split.
  - intros m i. unfold VoiceMapper.map, VoiceMapper.lookup_profile.
    unfold dict_get_default. rewrite Hunknown. reflexivity.
  - intros any i Hwf. destruct (map_total any i Hwf) as [r Hr].
    rewrite Hr. eexists. reflexivity.
Qed.

Lemma C7_unknown_emotion_is_neutral_witness :
  VoiceMapper.map VoiceMapper.default "love" (lit 5 1)
  = VoiceMapper.map VoiceMapper.default "neutral" (lit 5 1).
Proof.
  apply (C7_unknown_emotion_is_neutral "love"). reflexivity.
Defined.

(** C8: for every emotion string and every float intensity, inside or
    outside [0,1], the volume [map] returns lies between 0.1 and 1.0; this
    holds for whatever baselines the mapper was built with, and with the
    default ones [map] does return. *)
Theorem C8_volume_in_range (emotion : string) (i : float) (Hwf : wf i) :
  (exists p,
      VoiceMapper.map VoiceMapper.default emotion i = Ok p
      /\ fleb (lit 1 1) (VoiceMapper.volume p) = true
      /\ fleb (VoiceMapper.volume p) (lit 10 1) = true)
  /\ (forall (m : VoiceMapper.t) (p : VoiceMapper.VoiceParams),
         VoiceMapper.map m emotion i = Ok p ->
         fleb (lit 1 1) (VoiceMapper.volume p) = true
         /\ fleb (VoiceMapper.volume p) (lit 10 1) = true).
Proof.
  assert (Hbounds : fleb (lit 1 1) (lit 10 1) = true) by (vm_compute; reflexivity).
  split.
  - destruct (map_total emotion i Hwf) as [r Hr].
    rewrite Hr. eexists. split; [reflexivity | ].
    cbn [VoiceMapper.volume]. apply clamp_between. exact Hbounds.
  - intros m p. unfold VoiceMapper.map.
    destruct (VoiceMapper.lookup_profile emotion) as [[[rd pt] vd] | e];
      cbn [bind]; [ | discriminate ].
    destruct (float_of_int rd) as [f | e]; cbn [bind]; [ | discriminate ].
    destruct (float_of_int (VoiceMapper.baseline_rate m)) as [g | e];
      cbn [bind]; [ | discriminate ].
    destruct (int_of_float _) as [z | e]; cbn [bind]; [ | discriminate ].
    intros [= <-]. cbn [VoiceMapper.volume]. apply clamp_between. exact Hbounds.
Qed.

Lemma C8_volume_in_range_witness :
  exists p,
    VoiceMapper.map VoiceMapper.default "anger" (lit 25 1) = Ok p
    /\ fleb (lit 1 1) (VoiceMapper.volume p) = true
    /\ fleb (VoiceMapper.volume p) (lit 10 1) = true.
Proof.
  apply (C8_volume_in_range "anger" (lit 25 1)). vm_compute. reflexivity.
Defined.

(* ===================================================================== *)
(** * The explanation *)
(* ===================================================================== *)

Section ExplainFacts.

(** [int(str(z)) == z] *)
Lemma parse_int_str_int (z : Z) : parse_int (str_int z) = Some z.
Proof.
  unfold parse_int, str_int.
  rewrite NilZero.isi.
  - cbn [option_map]. rewrite DecimalZ.of_to. reflexivity.
  - destruct z as [ | q | q]; cbn; try discriminate.
    intros [= H]. destruct (Pos.to_uint q) eqn:Hq; try discriminate H.
    apply (f_equal Pos.of_uint) in Hq.
    rewrite DecimalPos.Unsigned.of_to in Hq. discriminate Hq.
  - destruct z as [ | q | q]; cbn; try discriminate.
    intros [= H]. destruct (Pos.to_uint q) eqn:Hq; try discriminate H.
    apply (f_equal Pos.of_uint) in Hq.
    rewrite DecimalPos.Unsigned.of_to in Hq. discriminate Hq.
Qed.

(** The digits printed for a finite float are within half a unit of the
    last printed decimal of its exact value [m * 2^e]. *)
Lemma scaled_round_error (p : nat) (m : positive) (e : Z) :
  let n := scaled_round p m e in
  let exact := Zpos m * 10 ^ Z.of_nat p in
  (0 <= e -> n = exact * 2 ^ e)
  /\ (e < 0 -> 2 * Z.abs (n * 2 ^ (- e) - exact) <= 2 ^ (- e)).
Proof.
  intros n exact. unfold n, scaled_round. fold exact. split.
  - intros He. replace (0 <=? e) with true by (symmetry; apply Z.leb_le; lia).
    reflexivity.
  - intros He. replace (0 <=? e) with false by (symmetry; apply Z.leb_gt; lia).
    assert (Hd : 0 < 2 ^ (- e)) by (apply Z.pow_pos_nonneg; lia).
    set (d := 2 ^ (- e)) in *.
    pose proof (Z.div_mod exact d ltac:(lia)) as Hdm.
    pose proof (Z.mod_pos_bound exact d Hd) as Hr.
    set (q := exact / d) in *. set (r := exact mod d) in *.
    destruct (Z.compare_spec (2 * r) d) as [Heq | Hlt | Hgt].
    + destruct (Z.even q); nia.
    + nia.
    + nia.
Qed.

End ExplainFacts.

(** C9, as stated, fails: for "joy" at intensity 0.5 [map] yields pitch
    1.175 and volume [0.85 + 0.15 * 0.5]; [explain] prints them as 1.18 and
    0.92, and reading the printed numbers back gives the floats 1.18 and
    0.92, not the floats [map] produced. *)
Lemma C9_counterexample :
  let p := VoiceMapper.mkVoiceParams 230 (lit 1175 3)
             (fadd (lit 85 2) (fmul (lit 15 2) (lit 5 1))) in
  VoiceMapper.map VoiceMapper.default "joy" (lit 5 1) = Ok p
  /\ VoiceMapper.explain Sample.float_repr VoiceMapper.default "joy" (lit 5 1)
     = Ok "Emotion:   joy
Intensity: 50.0%

Voice Parameters (intensity-scaled):
  Rate:   230 wpm  (baseline 200, delta +60 × 0.50)
  Pitch:  1.18×  (baseline 1.0, target 1.35× × 0.50)
  Volume: 0.92  (baseline 0.85, delta +0.15 × 0.50)"
  /\ VoiceMapper.rendered p = ("230", "1.18", "0.92")
  /\ VoiceMapper.reparse (VoiceMapper.rendered p)
     = Some (VoiceMapper.mkVoiceParams 230 (lit 118 2) (lit 92 2))
  /\ VoiceMapper.reparse (VoiceMapper.rendered p) <> Some p.
Proof.
  cbv zeta. repeat split; try (vm_compute; reflexivity).
  vm_compute. discriminate.
Qed.

(** C9, amended: [explain] recomputes the mapping by calling [map] and
    prints the values of that result, the rate exactly and the pitch and
    the volume rounded to two decimals: reading the printed rate back gives
    [map]'s rate, while the printed pitch and volume are within half a
    hundredth of [map]'s values. *)
Theorem C9_explain_renders_map
  (float_repr : float -> string) (emotion : string) (i : float)
  (Hwf : wf i) :
  exists p,
    VoiceMapper.map VoiceMapper.default emotion i = Ok p
    /\ (let '(a, b, c) := VoiceMapper.rendered p in
        let '(rate_delta, pitch_mult, vol_delta) :=
          dict_get_default VoiceMapper.EMOTION_PROFILE emotion
                           VoiceMapper.neutral_profile in
        VoiceMapper.explain float_repr VoiceMapper.default emotion i
        = Ok (String.concat nl
                [ "Emotion:   " ++ emotion;
                  "Intensity: " ++ format_pct 1 i;
                  "";
                  "Voice Parameters (intensity-scaled):";
                  "  Rate:   " ++ a ++ " wpm  (baseline "
                    ++ str_int VoiceMapper.BASELINE_RATE ++ ", "
                    ++ "delta " ++ format_plus_d rate_delta ++ " × "
                    ++ format_f false 2 i ++ ")";
                  "  Pitch:  " ++ b ++ "×  (baseline "
                    ++ float_repr VoiceMapper.BASELINE_PITCH ++ ", "
                    ++ "target " ++ float_repr pitch_mult ++ "× × "
                    ++ format_f false 2 i ++ ")";
                  "  Volume: " ++ c ++ "  (baseline "
                    ++ float_repr VoiceMapper.BASELINE_VOLUME ++ ", "
                    ++ "delta " ++ format_f true 2 vol_delta ++ " × "
                    ++ format_f false 2 i ++ ")" ]))
    /\ parse_int (fst (fst (VoiceMapper.rendered p))) = Some (VoiceMapper.rate p)
    /\ (forall x s m e,
           x = VoiceMapper.pitch p \/ x = VoiceMapper.volume p ->
           x = S754_finite s m e ->
           let n := scaled_round 2 m e in
           format_f false 2 x = (if s then "-" else "") ++ fixed_digits 2 n
           /\ (0 <= e -> n = Zpos m * 100 * 2 ^ e)
           /\ (e < 0 -> 2 * Z.abs (n * 2 ^ (- e) - Zpos m * 100) <= 2 ^ (- e))).
Proof.
  destruct (map_total emotion i Hwf) as [r Hr].
  eexists. split; [exact Hr | ]. split; [ | split ].
  - unfold VoiceMapper.rendered, VoiceMapper.explain.
    rewrite Hr, lookup_profile_eq. cbn [bind].
    destruct (dict_get_default VoiceMapper.EMOTION_PROFILE emotion
                               VoiceMapper.neutral_profile) as [[rd pt] vd].
    reflexivity.
  - cbn [VoiceMapper.rendered fst VoiceMapper.rate]. apply parse_int_str_int.
  - intros x s m e _ -> n.
    destruct (scaled_round_error 2 m e) as [Hge Hlt].
    split; [reflexivity | ]. split; [exact Hge | exact Hlt].
Qed.

Lemma C9_explain_renders_map_witness :
  exists p,
    VoiceMapper.map VoiceMapper.default "joy" (lit 5 1) = Ok p
    /\ parse_int (fst (fst (VoiceMapper.rendered p))) = Some (VoiceMapper.rate p).
Proof.
  destruct (C9_explain_renders_map Sample.float_repr "joy" (lit 5 1)
              ltac:(vm_compute; reflexivity)) as [p [Hmap [_ [Hrate _]]]].
  exists p. split; [exact Hmap | exact Hrate].
Defined.

(* ===================================================================== *)
(** * Further facts: the classifier's scores *)
(* ===================================================================== *)

Section FloatOrder.

(** The float comparisons form a strict order with its reflexive closure,
    NaN being incomparable to everything. *)

Lemma flt_le_trans (a b c : float) :
  fltb a b = true -> fleb b c = true -> fltb a c = true.
Proof.
  unfold fltb, fleb, SFltb, SFleb.
  destruct a as [sa | sa | | sa ma ea], b as [sb | sb | | sb mb eb],
           c as [sc | sc | | sc mc ec];
    cbn [SFcompare];
    repeat match goal with s : bool |- _ => destruct s end;
    try discriminate; try reflexivity;
    change (Pos.compare_cont Eq ma mb) with (Pos.compare ma mb);
    change (Pos.compare_cont Eq mb mc) with (Pos.compare mb mc);
    change (Pos.compare_cont Eq ma mc) with (Pos.compare ma mc);
    destruct (Z.compare_spec ea eb); destruct (Z.compare_spec eb ec);
    destruct (Z.compare_spec ea ec); try lia;
    destruct (Pos.compare_spec ma mb); destruct (Pos.compare_spec mb mc);
    destruct (Pos.compare_spec ma mc);
    cbn; try discriminate; try reflexivity; try lia.
Qed.

Lemma flt_asym (a b : float) : fltb a b = true -> fleb b a = false.
Proof.
  unfold fltb, fleb, SFltb, SFleb.
  destruct a as [sa | sa | | sa ma ea], b as [sb | sb | | sb mb eb];
    cbn [SFcompare];
    repeat match goal with s : bool |- _ => destruct s end;
    try discriminate; try reflexivity;
    change (Pos.compare_cont Eq ma mb) with (Pos.compare ma mb);
    change (Pos.compare_cont Eq mb ma) with (Pos.compare mb ma);
    destruct (Z.compare_spec ea eb); destruct (Z.compare_spec eb ea); try lia;
    destruct (Pos.compare_spec ma mb); destruct (Pos.compare_spec mb ma);
    cbn; try discriminate; try reflexivity; try lia.
Qed.

Lemma fle_lt_trans (a b c : float) :
  fleb a b = true -> fltb b c = true -> fltb a c = true.
Proof.
  unfold fltb, fleb, SFltb, SFleb.
  destruct a as [sa | sa | | sa ma ea], b as [sb | sb | | sb mb eb],
           c as [sc | sc | | sc mc ec];
    cbn [SFcompare];
    repeat match goal with s : bool |- _ => destruct s end;
    try discriminate; try reflexivity;
    change (Pos.compare_cont Eq ma mb) with (Pos.compare ma mb);
    change (Pos.compare_cont Eq mb mc) with (Pos.compare mb mc);
    change (Pos.compare_cont Eq ma mc) with (Pos.compare ma mc);
    destruct (Z.compare_spec ea eb); destruct (Z.compare_spec eb ec);
    destruct (Z.compare_spec ea ec); try lia;
    destruct (Pos.compare_spec ma mb); destruct (Pos.compare_spec mb mc);
    destruct (Pos.compare_spec ma mc);
    cbn; try discriminate; try reflexivity; try lia.
Qed.

(** Two floats that are not NaN are comparable. *)
Lemma flt_total (a b : float) :
  a <> S754_nan -> b <> S754_nan -> fltb a b = false -> fleb b a = true.
Proof.
  unfold fltb, fleb, SFltb, SFleb.
  destruct a as [sa | sa | | sa ma ea], b as [sb | sb | | sb mb eb];
    cbn [SFcompare]; intros Ha Hb;
    try contradiction (Ha eq_refl); try contradiction (Hb eq_refl);
    repeat match goal with s : bool |- _ => destruct s end;
    try discriminate; try reflexivity;
    change (Pos.compare_cont Eq ma mb) with (Pos.compare ma mb);
    change (Pos.compare_cont Eq mb ma) with (Pos.compare mb ma);
    destruct (Z.compare_spec ea eb); destruct (Z.compare_spec eb ea); try lia;
    destruct (Pos.compare_spec ma mb); destruct (Pos.compare_spec mb ma);
    cbn; try discriminate; try reflexivity; try lia.
Qed.

Lemma flt_not_nan (a b : float) :
  fltb a b = true -> a <> S754_nan /\ b <> S754_nan.
Proof.
  unfold fltb, SFltb.
  destruct a as [sa | sa | | sa ma ea], b as [sb | sb | | sb mb eb];
    cbn [SFcompare]; try discriminate; intros _; split; discriminate.
Qed.

End FloatOrder.

Section ScoreFacts.

Import EmotionDetector.

Lemma dict_get_set {V : Type} (d : dict V) (k : string) (v : V) (k' : string) :
  dict_get (dict_set d k v) k'
  = if String.eqb k' k then Some v else dict_get d k'.
Proof.
  induction d as [ | [k0 v0] d IH]; cbn [dict_set dict_get].
  - reflexivity.
  - destruct (String.eqb_spec k k0) as [-> | Hk]; cbn [dict_get].
    + destruct (String.eqb k' k0); reflexivity.
    + rewrite IH. destruct (String.eqb_spec k' k0) as [-> | Hk'].
      * apply String.eqb_neq in Hk. rewrite String.eqb_sym, Hk. reflexivity.
      * reflexivity.
Qed.

Lemma dict_set_keys {V : Type} (d : dict V) (k : string) (v : V) (k' : string) :
  In k' (map fst (dict_set d k v)) <-> k' = k \/ In k' (map fst d).
Proof.
  induction d as [ | [k0 v0] d IH]; cbn [dict_set map fst In].
  - intuition congruence.
  - destruct (String.eqb_spec k k0) as [-> | Hk]; cbn [map fst In].
    + intuition congruence.
    + rewrite IH. intuition congruence.
Qed.

Lemma dict_set_nodup {V : Type} (d : dict V) (k : string) (v : V) :
  NoDup (map fst d) -> NoDup (map fst (dict_set d k v)).
Proof.
  induction d as [ | [k0 v0] d IH]; cbn [dict_set map fst]; intros H.
  - constructor; [intros [] | constructor].
  - inversion H as [ | x l Hnotin Hnd]; subst.
    destruct (String.eqb_spec k k0) as [-> | Hk]; cbn [map fst].
    + constructor; assumption.
    + constructor; [ | exact (IH Hnd)].
      rewrite dict_set_keys. intros [-> | Hin]; [congruence | contradiction].
Qed.

Lemma fold_scores_absent (rs : list (string * float)) (d0 : dict float)
  (k : string) :
  (forall r, In r rs -> fst r <> k) ->
  dict_get (fold_left (fun d r => dict_set d (fst r) (snd r)) rs d0) k = dict_get d0 k.
Proof.
  revert d0. induction rs as [ | r rs IH]; intros d0 H; cbn [fold_left].
  - reflexivity.
  - rewrite IH by (intros r' Hr'; apply H; right; exact Hr').
    cbv beta. rewrite dict_get_set.
    assert (Hne : fst r <> k) by (apply H; left; reflexivity).
    destruct (String.eqb_spec k (fst r)); congruence.
Qed.

Lemma fold_scores_nodup (rs : list (string * float)) (d0 : dict float) :
  NoDup (map fst d0) -> NoDup (map fst (fold_left (fun d r => dict_set d (fst r) (snd r)) rs d0)).
Proof.
  revert d0. induction rs as [ | r rs IH]; intros d0 H; cbn [fold_left].
  - exact H.
  - apply IH. apply dict_set_nodup. exact H.
Qed.

Lemma fold_scores_keys (rs : list (string * float)) (d0 : dict float)
  (k : string) :
  In k (map fst (fold_left (fun d r => dict_set d (fst r) (snd r)) rs d0))
  <-> In k (map fst d0) \/ In k (map fst rs).
Proof.
  revert d0. induction rs as [ | r rs IH]; intros d0; cbn [fold_left map In].
  - intuition.
  - rewrite IH. cbv beta. rewrite dict_set_keys. intuition congruence.
Qed.

(** The running maximum of [max(scores, key=scores.get)]: the entry kept
    is strictly greater than every earlier score that is a number, and no
    later score is greater than it. *)
Lemma max_fold (rest pre post : list (string * float)) (best : string * float) :
  (forall kv, In kv pre ->
              fltb (snd kv) (snd best) = true \/ snd kv = S754_nan) ->
  (forall kv, In kv post -> fltb (snd best) (snd kv) = false) ->
  exists pre' post',
    (pre ++ best :: post ++ rest
     = pre' ++ fold_left (fun best kv => if fgtb (snd kv) (snd best) then kv else best) rest best :: post')%list
    /\ (forall kv, In kv pre' ->
                   fltb (snd kv) (snd (fold_left (fun best kv => if fgtb (snd kv) (snd best) then kv else best) rest best)) = true
                   \/ snd kv = S754_nan)
    /\ (forall kv, In kv post' ->
                   fltb (snd (fold_left (fun best kv => if fgtb (snd kv) (snd best) then kv else best) rest best)) (snd kv) = false).
Proof.
  revert pre post best.
  induction rest as [ | x rest IH]; intros pre post best Hpre Hpost;
    cbn [fold_left].
  - exists pre, post. rewrite app_nil_r. repeat split; assumption.
  - cbv beta.
    destruct (fgtb (snd x) (snd best)) eqn:Hx; unfold fgtb in Hx.
    + destruct (IH (pre ++ best :: post)%list [] x) as [pre' [post' [Heq [H1 H2]]]].
      * intros kv Hin. apply in_app_or in Hin.
        destruct Hin as [Hin | [<- | Hin]].
        -- destruct (Hpre kv Hin) as [Hlt | Hnan]; [left | right; exact Hnan].
           exact (flt_le_trans _ _ _ Hlt (fltb_fleb _ _ Hx)).
        -- left. exact Hx.
        -- destruct (flt_not_nan _ _ Hx) as [Hb _].
           assert (Hdec : snd kv = S754_nan \/ snd kv <> S754_nan)
             by (destruct (snd kv); (left; reflexivity) || (right; discriminate)).
           destruct Hdec as [Hnan | Hk]; [right; exact Hnan | left].
           pose proof (flt_total _ _ Hb Hk (Hpost kv Hin)) as Hle.
           exact (fle_lt_trans _ _ _ Hle Hx).
      * intros kv [].
      * exists pre', post'. split; [ | split; assumption].
        rewrite <- Heq. cbn [app]. rewrite <- !app_assoc. reflexivity.
    + destruct (IH pre (post ++ [x])%list best) as [pre' [post' [Heq [H1 H2]]]].
      * exact Hpre.
      * intros kv Hin. apply in_app_or in Hin.
        destruct Hin as [Hin | [<- | []]]; [exact (Hpost kv Hin) | exact Hx].
      * exists pre', post'. split; [ | split; assumption].
        rewrite <- Heq. rewrite <- !app_assoc. reflexivity.
Qed.

End ScoreFacts.

Section AnalyseFacts.

Import EmotionDetector.

Lemma hf_label_map_identity (label : string) :
  dict_get_default HF_LABEL_MAP label label = label.
Proof.
  unfold dict_get_default.
  destruct (dict_get HF_LABEL_MAP label) as [v | ] eqn:H; [ | reflexivity].
  apply dict_get_In in H. unfold HF_LABEL_MAP in H. cbn [In] in H.
  repeat (destruct H as [H | H]; [injection H as <- <-; reflexivity | ]).
  contradiction H.
Qed.

End AnalyseFacts.

(** X1: the label [_hf_analyse] returns is a key of the score dictionary it
    returns, and the dictionary has no repeated key.  Its score is
    strictly greater than every score before it that is a number (an
    earlier NaN is passed over), and no score after it is greater (so the
    first of several equal best labels wins).  If no score is NaN, its
    score is strictly greater than every score before it and at least
    every score after it. *)
Theorem X1_top_label_is_maximal
  (clf : EmotionDetector.classifier) (txt : string)
  (scores : dict float) (top : string)
  (Hrun : EmotionDetector._hf_analyse clf txt = Ok (scores, top)) :
  exists v pre post,
    scores = (pre ++ (top, v) :: post)%list
    /\ dict_get scores top = Some v
    /\ (forall kv, In kv pre ->
                   fltb (snd kv) v = true \/ snd kv = S754_nan)
    /\ (forall kv, In kv post -> fltb v (snd kv) = false)
    /\ NoDup (map fst scores)
    /\ ((forall kv, In kv scores -> snd kv <> S754_nan) ->
        (forall kv, In kv pre -> fltb (snd kv) v = true)
        /\ (forall kv, In kv post -> fleb (snd kv) v = true)).
Proof.
  unfold EmotionDetector._hf_analyse in Hrun.
  destruct (clf txt) as [[ | results rest] | e]; cbn [bind] in Hrun;
    try discriminate Hrun.
  assert (Hnd : NoDup (map fst (EmotionDetector.scores_of_results results))).
  { unfold EmotionDetector.scores_of_results. apply fold_scores_nodup.
    constructor. }
  destruct (EmotionDetector.scores_of_results results) as [ | [k0 v0] d] eqn:Hs;
    cbn [EmotionDetector.max_key bind] in Hrun; [discriminate Hrun | ].
  injection Hrun as <- <-.
  destruct (max_fold d [] [] (k0, v0)) as [pre [post [Heq [Hpre Hpost]]]];
    [intros kv [] | intros kv [] | ].
  change ([] ++ (k0, v0) :: [] ++ d)%list with ((k0, v0) :: d) in Heq.
  destruct (fold_left _ d (k0, v0)) as [k v] eqn:Hfold. cbn [fst snd] in *.
  exists v, pre, post. split; [exact Heq | ].
  split; [ | split; [ | split; [ | split ] ] ].
  - rewrite Heq in Hnd |- *. clear Heq Hpre Hpost Hfold Hs.
    induction pre as [ | [k' v'] pre IH]; simpl.
    + rewrite String.eqb_refl. reflexivity.
    + simpl in Hnd. inversion Hnd as [ | x l Hnotin Hnd']; subst.
      destruct (String.eqb_spec k k') as [-> | Hne]; [ | exact (IH Hnd')].
      exfalso. apply Hnotin. rewrite map_app. apply in_or_app. right.
      left. reflexivity.
  - exact Hpre.
  - exact Hpost.
  - exact Hnd.
  - intros Hnum. rewrite Heq in Hnum. split.
    + intros kv Hin. destruct (Hpre kv Hin) as [Hlt | Hnan]; [exact Hlt | ].
      exfalso. apply (Hnum kv); [ | exact Hnan].
      apply in_or_app. left. exact Hin.
    + intros kv Hin. apply flt_total.
      * apply (Hnum (k, v)). apply in_or_app. right. left. reflexivity.
      * apply (Hnum kv). apply in_or_app. right. right. exact Hin.
      * exact (Hpost kv Hin).
Qed.

Lemma X1_top_label_is_maximal_witness :
  exists v pre post,
    [("joy", lit 1 1); ("love", lit 9 1)] = (pre ++ ("love", v) :: post)%list
    /\ dict_get [("joy", lit 1 1); ("love", lit 9 1)] "love" = Some v
    /\ (forall kv, In kv pre ->
                   fltb (snd kv) v = true \/ snd kv = S754_nan)
    /\ (forall kv, In kv post -> fltb v (snd kv) = false)
    /\ NoDup (map fst [("joy", lit 1 1); ("love", lit 9 1)])
    /\ ((forall kv, In kv [("joy", lit 1 1); ("love", lit 9 1)] ->
                    snd kv <> S754_nan) ->
        (forall kv, In kv pre -> fltb (snd kv) v = true)
        /\ (forall kv, In kv post -> fleb (snd kv) v = true)).
Proof.
  apply (X1_top_label_is_maximal Sample.clf_love "I adore you").
  vm_compute. reflexivity.
Defined.

(** X2: when the classifier returns a non-empty list of entries,
    [_hf_analyse] succeeds; its dictionary has exactly the labels returned,
    and a label returned several times carries the score of its last
    entry. *)
Theorem X2_scores_last_entry_wins
  (clf : EmotionDetector.classifier) (txt : string)
  (pre post : list (string * float)) (label : string) (score : float)
  (rest : list (list (string * float)))
  (Hout : clf txt = Ok ((pre ++ (label, score) :: post)%list :: rest))
  (Hlast : forall r, In r post -> fst r <> label) :
  exists scores top,
    EmotionDetector._hf_analyse clf txt = Ok (scores, top)
    /\ dict_get scores label = Some score
    /\ (forall k, In k (map fst scores)
                  <-> In k (map fst (pre ++ (label, score) :: post)%list)).
Proof.
  unfold EmotionDetector._hf_analyse. rewrite Hout. cbn [bind].
  set (results := (pre ++ (label, score) :: post)%list).
  assert (Hget : dict_get (EmotionDetector.scores_of_results results) label
                 = Some score).
  { unfold EmotionDetector.scores_of_results, results.
    rewrite fold_left_app. cbn [fold_left fst snd].
    rewrite fold_scores_absent by exact Hlast.
    rewrite dict_get_set, String.eqb_refl. reflexivity. }
  assert (Hkeys : forall k,
             In k (map fst (EmotionDetector.scores_of_results results))
             <-> In k (map fst results)).
  { intros k. unfold EmotionDetector.scores_of_results.
    rewrite fold_scores_keys. cbn [map In]. intuition. }
  destruct (EmotionDetector.scores_of_results results) as [ | [k0 v0] d] eqn:Hs.
  - discriminate Hget.
  - cbn [EmotionDetector.max_key bind]. eexists. eexists.
    split; [reflexivity | ]. split; [exact Hget | exact Hkeys].
Qed.

Lemma X2_scores_last_entry_wins_witness :
  exists scores top,
    EmotionDetector._hf_analyse
      (fun _ => Ok [[("joy", lit 1 1); ("fear", lit 2 1); ("joy", lit 7 1)]])
      "again" = Ok (scores, top)
    /\ dict_get scores "joy" = Some (lit 7 1)
    /\ (forall k, In k (map fst scores)
                  <-> In k (map fst ([("joy", lit 1 1); ("fear", lit 2 1)]
                                     ++ ("joy", lit 7 1) :: [])%list)).
Proof.
  apply (X2_scores_last_entry_wins
           (fun _ => Ok [[("joy", lit 1 1); ("fear", lit 2 1); ("joy", lit 7 1)]])
           "again" [("joy", lit 1 1); ("fear", lit 2 1)] [] "joy" (lit 7 1) []).
  - reflexivity.
  - intros r [].
Defined.

(** X3: an empty answer of the classifier is an error that [detect] lets
    through: no result list raises [IndexError], an empty result list
    raises [ValueError] from [max]. *)
Theorem X3_empty_classifier_output_raises
  (analyzer : string -> EmotionDetector.VaderScores) (txt : string)
  (rest : list (list (string * float))) :
  EmotionDetector.detect
    (EmotionDetector.mkEmotionDetector analyzer (Some (fun _ => Ok []))) txt
  = Raise (IndexError "list index out of range")
  /\ EmotionDetector.detect
       (EmotionDetector.mkEmotionDetector analyzer
          (Some (fun _ => Ok ([] :: rest)))) txt
     = Raise (ValueError "max() arg is an empty sequence").
Proof. split; reflexivity. Qed.

(** X4: whenever [detect] returns, the granular label equals the primary
    emotion (the normalization table maps each of its labels to itself),
    the result carries the input text and the scorer's scores, and on the
    polarity-only path the primary emotion is "joy", "sadness" or
    "neutral", each of which has a row in the profile table. *)
Theorem X4_detect_result_shape
  (d : EmotionDetector.t) (txt : string) (r : EmotionDetector.EmotionResult)
  (Hrun : EmotionDetector.detect d txt = Ok r) :
  EmotionDetector.granular_label r = EmotionDetector.primary_emotion r
  /\ EmotionDetector.text r = txt
  /\ EmotionDetector.vader_scores r = EmotionDetector.vader d txt
  /\ (EmotionDetector.hf_classifier d = None ->
      In (EmotionDetector.primary_emotion r) ["joy"; "sadness"; "neutral"]
      /\ In (EmotionDetector.primary_emotion r) EmotionDetector.EMOTION_CATEGORIES
      /\ dict_get VoiceMapper.EMOTION_PROFILE (EmotionDetector.primary_emotion r)
         <> None
      /\ EmotionDetector.hf_scores r = []).
Proof.
  destruct d as [analyzer [clf | ]].
  - rewrite detect_with_classifier in Hrun.
    destruct (EmotionDetector._hf_analyse clf txt) as [[scores label] | e];
      [ | discriminate Hrun].
    injection Hrun as <-.
    cbn [EmotionDetector.granular_label EmotionDetector.primary_emotion
         EmotionDetector.text EmotionDetector.vader_scores
         EmotionDetector.vader EmotionDetector.hf_classifier].
    rewrite hf_label_map_identity.
    split; [reflexivity | split; [reflexivity | split; [reflexivity | ]]].
    intros H. discriminate H.
  - rewrite detect_polarity_only in Hrun. injection Hrun as <-. cbn zeta.
    cbn [EmotionDetector.granular_label EmotionDetector.primary_emotion
         EmotionDetector.text EmotionDetector.vader_scores
         EmotionDetector.vader EmotionDetector.hf_scores].
    split; [reflexivity | split; [reflexivity | split; [reflexivity | ]]].
    intros _. split; [ | split; [ | split; [ | reflexivity ]]].
    + destruct (fgeb _ _); [left; reflexivity | ].
      destruct (fleb _ _); [right; left | right; right; left]; reflexivity.
    + destruct (fgeb _ _); [left; reflexivity | ].
      destruct (fleb _ _); cbn; tauto.
    + destruct (fgeb _ _); [discriminate | ].
      destruct (fleb _ _); discriminate.
Qed.

Lemma X4_detect_result_shape_witness :
  exists r,
    EmotionDetector.detect
      (EmotionDetector.mkEmotionDetector (Sample.scorer (lit 5 1))
                                         (Some Sample.clf_love))
      "I adore you" = Ok r
    /\ EmotionDetector.granular_label r = EmotionDetector.primary_emotion r.
Proof.
  eexists. split; [vm_compute; reflexivity | ].
  apply (X4_detect_result_shape
           (EmotionDetector.mkEmotionDetector (Sample.scorer (lit 5 1))
                                              (Some Sample.clf_love))
           "I adore you").
  vm_compute. reflexivity.
Defined.

(* ===================================================================== *)
(** * Further facts: intensities *)
(* ===================================================================== *)

Section IntensityFacts.

Import VoiceMapper.

(** Rounding a positive mantissa never yields NaN, keeps the sign, and
    leaves a mantissa of at most [2^53]. *)
Lemma round_aux_shape (s : bool) (mx ex : Z) (l : location) :
  0 < mx ->
  match binary_round_aux prec emax s mx ex l with
  | S754_nan => False
  | S754_zero s' | S754_infinity s' => s' = s
  | S754_finite s' m _ => s' = s /\ Zpos m <= 2 ^ 53
  end.
Proof.
  intros Hpos.
  assert (Hd : 1 <= Zdigits2 mx /\ mx < 2 ^ Zdigits2 mx).
  { destruct mx as [ | q | q]; try lia. cbn [Zdigits2].
    pose proof (Pos2Z.is_pos (digits2_pos q)).
    pose proof (digits2_pos_bounds q). lia. }
  destruct Hd as [Hd Hmx].
  unfold binary_round_aux.
  destruct (shr_fexp_spec mx ex l) as [He1 Hm1]; [lia | ].
  destruct (shr_fexp prec emax mx ex l) as [r1 e1]. cbn [fst snd] in He1, Hm1.
  rewrite <- He1 in Hm1.
  set (m2 := round_nearest_even (shr_m r1) (loc_of_shr_record r1)).
  pose proof (round_nearest_even_bounds (shr_m r1) (loc_of_shr_record r1)) as Hm2.
  fold m2 in Hm2.
  assert (He1' : ex <= e1 /\ Zdigits2 mx + ex - 53 <= e1).
  { rewrite He1. unfold fexp, SpecFloat.emin, prec, emax. lia. }
  assert (Hpow : 0 < 2 ^ (e1 - ex)) by (apply Z.pow_pos_nonneg; lia).
  assert (Hm1' : 0 <= shr_m r1 < 2 ^ 53).
  { rewrite Hm1. split.
    - apply Z.div_pos; lia.
    - apply Z.div_lt_upper_bound; [exact Hpow | ].
      rewrite <- Z.pow_add_r by lia.
      assert (2 ^ Zdigits2 mx <= 2 ^ (e1 - ex + 53))
        by (apply Z.pow_le_mono_r; lia).
      lia. }
  destruct (shr_fexp_spec m2 e1 loc_Exact) as [He2 Hm3]; [lia | ].
  destruct (shr_fexp prec emax m2 e1 loc_Exact) as [r2 e2].
  cbn [fst snd] in He2, Hm3. rewrite <- He2 in Hm3.
  assert (He2' : e1 <= e2) by (rewrite He2; lia).
  assert (Hpow2 : 0 < 2 ^ (e2 - e1)) by (apply Z.pow_pos_nonneg; lia).
  assert (Hm3' : 0 <= shr_m r2 <= m2).
  { rewrite Hm3. split.
    - apply Z.div_pos; lia.
    - apply Z.div_le_upper_bound; [exact Hpow2 | nia]. }
  destruct (shr_m r2) as [ | q | q]; [reflexivity | | lia].
  destruct (e2 <=? emax - prec); [ | reflexivity].
  split; [reflexivity | lia].
Qed.

(** A float that is not above one, and is neither NaN nor negative, is at
    most one. *)
Lemma not_above_one (a : float) :
  fltb (lit 10 1) a = false ->
  match a with
  | S754_zero false | S754_finite false _ _ => fleb a (lit 10 1) = true
  | _ => True
  end.
Proof.
  rewrite one_eq. unfold fltb, fleb, SFltb, SFleb.
  destruct a as [[ | ] | s | | [ | ] m e]; cbn [SFcompare];
    try (intros _; exact I); try reflexivity.
  rewrite (Z.compare_antisym e (-52)).
  rewrite (ZC4 4503599627370496 m).
  destruct (e ?= -52); cbn [CompOpp]; try discriminate; try reflexivity.
  destruct (Pos.compare_cont Eq m 4503599627370496); cbn [CompOpp];
    try discriminate; reflexivity.
Qed.

(** [map] sees its intensity only through the clamp. *)
Lemma map_clamp (m : t) (emotion : string) (i j : float) :
  clamp_intensity i = clamp_intensity j -> map m emotion i = map m emotion j.
Proof. intros H. unfold map. rewrite H. reflexivity. Qed.

End IntensityFacts.

Section IntensityRange.

(** The intensity is 1.0, the positive zero, or a positive float that is
    at most one and has a mantissa of at most [2^53]; for a NaN compound
    score it is NaN. *)
Lemma compute_intensity_cases (scores : EmotionDetector.VaderScores) :
  let x := EmotionDetector._compute_intensity scores in
  x = lit 10 1 \/ x = S754_zero false
  \/ (exists m e, x = S754_finite false m e
                  /\ fleb x (lit 10 1) = true /\ Zpos m <= 2 ^ 53)
  \/ (x = S754_nan /\ EmotionDetector.compound scores = S754_nan).
Proof.
  intros x. unfold x, EmotionDetector._compute_intensity, min2.
  set (a := fmul (fabs (EmotionDetector.compound scores)) (lit 12 1)).
  assert (Ha : match a with
               | S754_nan => EmotionDetector.compound scores = S754_nan
               | S754_zero s | S754_infinity s => s = false
               | S754_finite s m _ => s = false /\ Zpos m <= 2 ^ 53
               end).
  { unfold a.
    replace (lit 12 1) with (S754_finite false 5404319552844595 (-52))
      by (vm_compute; reflexivity).
    destruct (EmotionDetector.compound scores) as [s | s | | s m e];
      cbn [fabs SFabs fmul SFmul xorb]; try reflexivity.
    pose proof (round_aux_shape false (Zpos (m * 5404319552844595))
                  (e + -52) loc_Exact eq_refl) as Hs.
    destruct (binary_round_aux prec emax false
                (Zpos (m * 5404319552844595)) (e + -52) loc_Exact);
      [exact Hs | exact Hs | contradiction Hs | exact Hs]. }
  destruct (fltb (lit 10 1) a) eqn:Hlt; [left; reflexivity | right].
  pose proof (not_above_one a Hlt) as Hle.
  destruct a as [s | s | | s m' e'].
  - left. rewrite Ha. reflexivity.
  - rewrite Ha in Hlt. vm_compute in Hlt. discriminate Hlt.
  - right. right. split; [reflexivity | exact Ha].
  - destruct Ha as [-> Hm]. right. left. exists m', e'.
    split; [reflexivity | split; [exact Hle | exact Hm]].
Qed.

(** Whatever the scorer answers, the clamped intensity is below two. *)
Lemma compute_intensity_mag (scores : EmotionDetector.VaderScores) :
  mag_leb (VoiceMapper.clamp_intensity
             (EmotionDetector._compute_intensity scores)) 1 = true.
Proof.
  destruct (compute_intensity_cases scores)
    as [-> | [-> | [[m [e [-> [Hle Hm]]]] | [-> _]]]];
    [vm_compute; reflexivity | vm_compute; reflexivity |
    | vm_compute; reflexivity].
  assert (Hlo : fleb (lit 0 1) (S754_finite false m e) = true)
    by (rewrite zero_eq; reflexivity).
  destruct (clamp_in_range _ Hlo Hle) as [-> | [s [Hz _]]];
    [ | discriminate Hz].
  cbn [mag_leb]. apply Z.leb_le.
  revert Hle. rewrite one_eq. unfold fleb, SFleb. cbn [SFcompare].
  assert (H54 : 2 ^ 53 < 2 ^ 54) by (vm_compute; reflexivity).
  destruct (Z.compare_spec e (-52)) as [-> | He | He].
  - destruct (Pos.compare_cont Eq m 4503599627370496) eqn:Hc;
      try discriminate; intros _.
    + apply Pcompare_Eq_eq in Hc. subst m. vm_compute. discriminate.
    + assert (Hlt : Zpos m < 2 ^ 53).
      { apply Z.lt_trans with 4503599627370496; [exact Hc | reflexivity]. }
      apply digits2_pos_le in Hlt. clear - Hlt. lia.
  - intros _. pose proof (digits2_pos_le m 54). lia.
  - discriminate.
Qed.

(** [map] with the default baselines returns whenever the clamped
    intensity is below two. *)
Lemma map_total_mag (emotion : string) (i : float) :
  mag_leb (VoiceMapper.clamp_intensity i) 1 = true ->
  exists p, VoiceMapper.map VoiceMapper.default emotion i = Ok p.
Proof.
  intros Hc.
  destruct (lookup_in_table emotion) as [k Hin].
  unfold VoiceMapper.map. rewrite lookup_profile_eq. cbn [bind].
  destruct (dict_get_default VoiceMapper.EMOTION_PROFILE emotion
                             VoiceMapper.neutral_profile) as [[rd pt] vd].
  destruct (table_rows k rd pt vd Hin) as [[f [Hf Hmag]] _].
  rewrite Hf.
  cbn [bind VoiceMapper.baseline_rate VoiceMapper.default VoiceMapper.__init__].
  assert (H200 : float_of_int VoiceMapper.BASELINE_RATE
                 = Ok (S754_finite false 7036874417766400 (-45)))
    by (vm_compute; reflexivity).
  rewrite H200. cbn [bind].
  pose proof (fmul_mag f _ 7 1 Hmag Hc ltac:(lia)) as Hmul.
  assert (Hbr : mag_leb (S754_finite false 7036874417766400 (-45))
                        (Z.max (7 + 1) (-1073) + 54) = true)
    by (vm_compute; reflexivity).
  pose proof (fadd_mag _ _ _ Hbr Hmul ltac:(lia)) as Hadd.
  destruct (int_of_float_mag _ _ Hadd) as [z Hz].
  rewrite Hz. cbn [bind]. eexists. reflexivity.
Qed.

End IntensityRange.

(** X5: unless the compound score is NaN, the intensity
    [_compute_intensity] returns lies between 0 and 1, so that the clamp in
    [VoiceMapper.map] leaves it as it is. *)
Theorem X5_intensity_in_unit_interval
  (scores : EmotionDetector.VaderScores)
  (Hnan : EmotionDetector.compound scores <> S754_nan) :
  let x := EmotionDetector._compute_intensity scores in
  fleb (lit 0 1) x = true
  /\ fleb x (lit 10 1) = true
  /\ VoiceMapper.clamp_intensity x = x.
Proof.
  intros x.
  destruct (compute_intensity_cases scores) as [Hx | [Hx | [Hx | [_ Hx]]]];
    fold x in Hx; [ | | | contradiction (Hnan Hx)].
  - rewrite Hx. repeat split; vm_compute; reflexivity.
  - rewrite Hx. repeat split; vm_compute; reflexivity.
  - destruct Hx as [m [e [Hx [Hle _]]]].
    assert (Hlo : fleb (lit 0 1) x = true)
      by (rewrite Hx, zero_eq; reflexivity).
    split; [exact Hlo | split; [exact Hle | ]].
    destruct (clamp_in_range x Hlo Hle) as [Hc | [s [Hz _]]]; [exact Hc | ].
    rewrite Hx in Hz. discriminate Hz.
Qed.

Lemma X5_intensity_in_unit_interval_witness :
  let x := EmotionDetector._compute_intensity
             (Sample.scorer (SFopp (lit 73 2)) "grim") in
  fleb (lit 0 1) x = true
  /\ fleb x (lit 10 1) = true
  /\ VoiceMapper.clamp_intensity x = x.
Proof.
  apply (X5_intensity_in_unit_interval (Sample.scorer (SFopp (lit 73 2)) "grim")).
  vm_compute. discriminate.
Defined.

(** X6: an intensity that is not strictly between 0 and 1 saturates: at or
    below zero [map] answers as for 0.0, and at or above one, or for NaN,
    as for 1.0, whatever the mapper's baselines and the emotion. *)
Theorem X6_map_saturates
  (m : VoiceMapper.t) (emotion : string) (i : float)
  (Hout : (fltb (lit 0 1) i && fltb i (lit 10 1))%bool = false) :
  VoiceMapper.map m emotion i
  = VoiceMapper.map m emotion (if fleb i (lit 0 1) then lit 0 1 else lit 10 1).
Proof.
  apply map_clamp.
  assert (H0 : VoiceMapper.clamp_intensity (lit 0 1) = S754_zero false)
    by (vm_compute; reflexivity).
  assert (H1 : VoiceMapper.clamp_intensity (lit 10 1) = lit 10 1)
    by (vm_compute; reflexivity).
  revert Hout. unfold VoiceMapper.clamp_intensity at 1. unfold max2, min2, fgtb.
  rewrite one_eq, zero_eq in *.
  unfold fltb, fleb, SFltb, SFleb.
  destruct i as [[ | ] | [ | ] | | [ | ] mi ei]; cbn [SFcompare andb];
    try (intros _; rewrite ?H0, ?H1; reflexivity);
    try discriminate.
  destruct (ei ?= -52);
    [destruct (Pos.compare_cont Eq mi 4503599627370496) | | ];
    try discriminate; intros _; rewrite ?H1; reflexivity.
Qed.

Lemma X6_map_saturates_witness :
  VoiceMapper.map VoiceMapper.default "fear" S754_nan
  = VoiceMapper.map VoiceMapper.default "fear" (lit 10 1).
Proof.
  apply (X6_map_saturates VoiceMapper.default "fear" S754_nan). reflexivity.
Defined.

(** X7: with the default baselines, every emotion at intensity 0.0 yields
    exactly the baseline voice (rate 200, pitch 1.0, volume 0.85), and at
    intensity 1.0 exactly its profile row: the baseline rate plus the rate
    delta, the pitch target itself, and the baseline volume plus the volume
    delta. *)
Theorem X7_map_endpoints
  (emotion : string) (rd : Z) (pt vd : float)
  (Hrow : dict_get_default VoiceMapper.EMOTION_PROFILE emotion
                           VoiceMapper.neutral_profile = (rd, pt, vd)) :
  VoiceMapper.map VoiceMapper.default emotion (lit 0 1)
  = Ok (VoiceMapper.mkVoiceParams VoiceMapper.BASELINE_RATE
          VoiceMapper.BASELINE_PITCH VoiceMapper.BASELINE_VOLUME)
  /\ VoiceMapper.map VoiceMapper.default emotion (lit 10 1)
     = Ok (VoiceMapper.mkVoiceParams (VoiceMapper.BASELINE_RATE + rd) pt
             (fadd VoiceMapper.BASELINE_VOLUME vd)).
Proof.
  destruct (lookup_in_table emotion) as [k Hin]. rewrite Hrow in Hin.
  unfold VoiceMapper.map. rewrite lookup_profile_eq, Hrow. cbn [bind].
  clear Hrow. unfold VoiceMapper.EMOTION_PROFILE in Hin. cbn [In] in Hin.
  repeat (destruct Hin as [Hin | Hin];
          [ injection Hin as <- <- <- <-; split; vm_compute; reflexivity | ]).
  contradiction Hin.
Qed.

Lemma X7_map_endpoints_witness :
  VoiceMapper.map VoiceMapper.default "surprise" (lit 0 1)
  = Ok (VoiceMapper.mkVoiceParams 200 (lit 10 1) (lit 85 2))
  /\ VoiceMapper.map VoiceMapper.default "surprise" (lit 10 1)
     = Ok (VoiceMapper.mkVoiceParams (200 + 70) (lit 145 2)
             (fadd (lit 85 2) (lit 10 2))).
Proof.
  apply (X7_map_endpoints "surprise" 70 (lit 145 2) (lit 10 2)). reflexivity.
Defined.

(* ===================================================================== *)
(** * Further facts: the pipeline and the HTTP handler *)
(* ===================================================================== *)

Section PipelineFacts.

(** [explain] fails only if [map] does. *)
Lemma explain_of_map (float_repr : float -> string) (m : VoiceMapper.t)
  (emotion : string) (i : float) (p : VoiceMapper.VoiceParams) :
  VoiceMapper.map m emotion i = Ok p ->
  exists s, VoiceMapper.explain float_repr m emotion i = Ok s.
Proof.
  intros H. unfold VoiceMapper.explain. rewrite H, lookup_profile_eq.
  cbn [bind].
  destruct (dict_get_default VoiceMapper.EMOTION_PROFILE emotion
                             VoiceMapper.neutral_profile) as [[rd pt] vd].
  eexists. reflexivity.
Qed.

(** The intensity of a result is the one computed from the scorer. *)
Lemma detect_intensity (d : EmotionDetector.t) (txt : string)
  (r : EmotionDetector.EmotionResult) :
  EmotionDetector.detect d txt = Ok r ->
  EmotionDetector.intensity r
  = EmotionDetector._compute_intensity (EmotionDetector.vader d txt).
Proof.
  destruct d as [analyzer [clf | ]].
  - rewrite detect_with_classifier.
    destruct (EmotionDetector._hf_analyse clf txt) as [[scores label] | e];
      [ | discriminate].
    intros [= <-]. reflexivity.
  - rewrite detect_polarity_only. intros [= <-]. reflexivity.
Qed.

Lemma list_of_append (a b : string) :
  list_ascii_of_string (a ++ b)
  = (list_ascii_of_string a ++ list_ascii_of_string b)%list.
Proof.
  induction a as [ | c a IH]; simpl; [reflexivity | rewrite IH; reflexivity].
Qed.

Lemma string_of_app (l k : list ascii) :
  string_of_list_ascii (l ++ k)%list
  = string_of_list_ascii l ++ string_of_list_ascii k.
Proof.
  induction l as [ | c l IH]; simpl; [reflexivity | rewrite IH; reflexivity].
Qed.

Lemma reverse_app (a b : string) :
  reverse (a ++ b) = reverse b ++ reverse a.
Proof.
  unfold reverse. rewrite list_of_append, rev_app_distr. apply string_of_app.
Qed.

Lemma reverse_involutive (s : string) : reverse (reverse s) = s.
Proof.
  unfold reverse. rewrite list_ascii_of_string_of_list_ascii, rev_involutive.
  apply string_of_list_ascii_of_string.
Qed.

Lemma reverse_empty (s : string) : reverse s = "" -> s = "".
Proof.
  intros H. rewrite <- (reverse_involutive s), H. reflexivity.
Qed.

Lemma append_empty_r (s : string) : s ++ "" = s.
Proof.
  induction s as [ | c s IH]; cbn [append]; [reflexivity | rewrite IH; reflexivity].
Qed.

Lemma append_assoc (a b c : string) : (a ++ b) ++ c = a ++ b ++ c.
Proof.
  induction a as [ | x a IH]; cbn [append]; [reflexivity | ].
  rewrite IH. reflexivity.
Qed.

(** A white space character has one, two or three bytes; its first byte
    alone, and its first two bytes alone, are no white space character. *)
Lemma token_shape (t : string) :
  is_space t = true ->
  (exists c1, t = String c1 "")
  \/ (exists c1 c2, t = String c1 (String c2 "")
                    /\ is_space (String c1 "") = false)
  \/ (exists c1 c2 c3, t = String c1 (String c2 (String c3 ""))
                       /\ is_space (String c1 "") = false
                       /\ forall c, is_space (String c1 (String c "")) = false).
Proof.
  unfold is_space at 1. intros H. apply existsb_exists in H.
  destruct H as [t' [Hin Ht]]. apply String.eqb_eq in Ht. subst t'.
  unfold WHITESPACE in Hin. cbn [List.map In] in Hin.
  repeat (destruct Hin as [Hin | Hin];
          [ subst t;
            first [ left; eexists; reflexivity
                  | right; left; eexists; eexists; split; reflexivity
                  | right; right; eexists; eexists; eexists;
                    split; [reflexivity | split; [reflexivity | ]];
                    intros c;
                    destruct c as [[ | ] [ | ] [ | ] [ | ] [ | ] [ | ] [ | ] [ | ]];
                    vm_compute; reflexivity ]
          | ]).
  contradiction Hin.
Qed.

(** What is stripped away entirely is white space. *)
Lemma strip_lead_blank (order : string -> string) (n : nat) (s : string) :
  (String.length s <= n)%nat -> strip_lead order s = "" -> blank order s.
Proof.
  revert s. induction n as [ | n IH]; intros s Hn.
  - destruct s; [intros _; constructor | cbn [String.length] in Hn; lia].
  - destruct s as [ | c1 r1]; [intros _; constructor | ].
    cbn [String.length] in Hn. cbn [strip_lead].
    destruct (is_space (order (String c1 ""))) eqn:H1.
    { intros H. apply (blank_app order (String c1 "") r1);
        [discriminate | exact H1 | apply IH; [lia | exact H]]. }
    destruct r1 as [ | c2 r2]; [discriminate | ].
    cbn [String.length] in Hn.
    destruct (is_space (order (String c1 (String c2 "")))) eqn:H2.
    { intros H. apply (blank_app order (String c1 (String c2 "")) r2);
        [discriminate | exact H2 | apply IH; [lia | exact H]]. }
    destruct r2 as [ | c3 r3]; [discriminate | ].
    cbn [String.length] in Hn.
    destruct (is_space (order (String c1 (String c2 (String c3 ""))))) eqn:H3;
      [ | discriminate].
    intros H.
    apply (blank_app order (String c1 (String c2 (String c3 ""))) r3);
      [discriminate | exact H3 | apply IH; [lia | exact H]].
Qed.

(** White space at the head is stripped. *)
Lemma lstrip_token (t r : string) :
  is_space t = true -> lstrip (t ++ r) = lstrip r.
Proof.
  intros Ht. unfold lstrip.
  destruct (token_shape t Ht)
    as [[c1 ->] | [[c1 [c2 [-> H1]]] | [c1 [c2 [c3 [-> [H1 H2]]]]]]];
    cbn [append strip_lead].
  - rewrite Ht. reflexivity.
  - rewrite H1, Ht. reflexivity.
  - rewrite H1, H2, Ht. reflexivity.
Qed.

Lemma lstrip_of_blank (s : string) : blank (fun t => t) s -> lstrip s = "".
Proof.
  induction 1 as [ | t r Hne Ht Hr IH]; [reflexivity | ].
  rewrite lstrip_token by exact Ht. exact IH.
Qed.

(** What [lstrip] leaves does not start with white space. *)
Lemma lstrip_not_blank (n : nat) (s : string) :
  (String.length s <= n)%nat -> blank (fun t => t) (lstrip s) -> lstrip s = "".
Proof.
  unfold lstrip. revert s. induction n as [ | n IH]; intros s Hn.
  - destruct s; [reflexivity | cbn [String.length] in Hn; lia].
  - destruct s as [ | c1 r1]; [reflexivity | ].
    cbn [String.length] in Hn. cbn [strip_lead].
    destruct (is_space (String c1 "")) eqn:H1; [apply IH; lia | ].
    assert (Hstart : forall r, blank (fun t => t) (String c1 r) ->
                exists t r', t ++ r' = String c1 r /\ t <> ""
                             /\ is_space t = true).
    { intros r Hb. inversion Hb as [ | t r' Hne Ht Hr Heq].
      exists t, r'. repeat split; assumption. }
    destruct r1 as [ | c2 r2].
    { intros Hb. exfalso. destruct (Hstart _ Hb) as [t [r' [Heq [Hne Ht]]]].
      destruct (token_shape t Ht)
        as [[a ->] | [[a [b [-> _]]] | [a [b [c [-> _]]]]]];
        cbn [append] in Heq; try discriminate Heq.
      injection Heq as -> _. congruence. }
    cbn [String.length] in Hn.
    destruct (is_space (String c1 (String c2 ""))) eqn:H2;
      [apply IH; lia | ].
    destruct r2 as [ | c3 r3].
    { intros Hb. exfalso. destruct (Hstart _ Hb) as [t [r' [Heq [Hne Ht]]]].
      destruct (token_shape t Ht)
        as [[a ->] | [[a [b [-> _]]] | [a [b [c [-> _]]]]]];
        cbn [append] in Heq; try discriminate Heq.
      - injection Heq as -> _. congruence.
      - injection Heq as -> -> _. congruence. }
    cbn [String.length] in Hn.
    destruct (is_space (String c1 (String c2 (String c3 "")))) eqn:H3;
      [apply IH; lia | ].
    intros Hb. exfalso. destruct (Hstart _ Hb) as [t [r' [Heq [Hne Ht]]]].
    destruct (token_shape t Ht)
      as [[a ->] | [[a [b [-> _]]] | [a [b [c [-> _]]]]]];
      cbn [append] in Heq.
    + injection Heq as -> _. congruence.
    + injection Heq as -> -> _. congruence.
    + injection Heq as -> -> -> _. congruence.
Qed.

Lemma blank_snoc (a t : string) :
  blank (fun t => t) a -> t <> "" -> is_space t = true ->
  blank (fun t => t) (a ++ t).
Proof.
  intros Ha Hne Ht. induction Ha as [ | p r Hp Hsp Hr IH].
  - cbn [append]. rewrite <- (append_empty_r t).
    apply blank_app; [exact Hne | exact Ht | constructor].
  - rewrite append_assoc. apply blank_app; assumption.
Qed.

Lemma blank_reverse (x : string) :
  blank reverse x -> blank (fun t => t) (reverse x).
Proof.
  induction 1 as [ | p r Hp Hsp Hr IH]; [constructor | ].
  rewrite reverse_app. apply blank_snoc; [exact IH | | exact Hsp].
  intros H. apply Hp. apply reverse_empty. exact H.
Qed.

(** [strip] leaves nothing exactly of the strings of white space. *)
Lemma strip_empty_iff (s : string) :
  strip s = "" <-> blank (fun t => t) s.
Proof.
  unfold strip. split.
  - intros H. unfold rstrip in H. apply reverse_empty in H.
    apply (strip_lead_blank reverse _ _ (le_n _)) in H.
    apply blank_reverse in H. rewrite reverse_involutive in H.
    apply (lstrip_not_blank _ _ (le_n _)) in H.
    exact (strip_lead_blank (fun t => t) _ _ (le_n _) H).
  - intros H. rewrite (lstrip_of_blank s H). reflexivity.
Qed.

Lemma basename_no_slash (s : string) : has_slash (basename s) = false.
Proof.
  induction s as [ | c s IH]; cbn [basename]; [reflexivity | ].
  destruct (has_slash s) eqn:Hs; [exact IH | ].
  destruct (Ascii.eqb c "/") eqn:Hc; [exact Hs | ].
  cbn [has_slash]. rewrite Hc. exact Hs.
Qed.

Lemma has_slash_app (a b : string) :
  has_slash (a ++ b) = (has_slash a || has_slash b)%bool.
Proof.
  induction a as [ | c a IH]; cbn [append has_slash]; [reflexivity | ].
  destruct (Ascii.eqb c "/"); [reflexivity | exact IH].
Qed.

Lemma basename_join (dir name : string) :
  has_slash name = false -> basename (dir ++ "/" ++ name) = name.
Proof.
  intros Hn. induction dir as [ | c dir IH]; cbn [append basename].
  - rewrite Hn. reflexivity.
  - rewrite has_slash_app. cbn [append has_slash Ascii.eqb Bool.eqb].
    rewrite orb_true_r. exact IH.
Qed.

End PipelineFacts.

(** X8: with the default mapper, [process] fails only where [detect] or
    [synthesize] fails: the mapper and the explanation never raise on the
    emotion and intensity [detect] hands over, whatever the scorer and the
    classifier returned.  When [detect] raises, nothing is synthesized and
    the world is left as it was. *)
Theorem X8_process_failures
  (env : EmpathyEngine.Env) (d : EmotionDetector.t) (t : TTSEngine.t)
  (txt : string) (output_path : option string) (w : TTSEngine.World) :
  let self := EmpathyEngine.mkEmpathyEngine d VoiceMapper.default t in
  match EmotionDetector.detect d txt with
  | Raise e => EmpathyEngine.process env self txt output_path w = (Raise e, w)
  | Ok emo =>
      exists vp expl,
        VoiceMapper.map VoiceMapper.default
          (EmotionDetector.primary_emotion emo)
          (EmotionDetector.intensity emo) = Ok vp
        /\ EmpathyEngine.process env self txt output_path w
           = match TTSEngine.synthesize (EmpathyEngine.tts_env env) t txt vp
                                        output_path w with
             | (Ok path, w') =>
                 (Ok (EmpathyEngine.mkProcessResult emo vp expl path), w')
             | (Raise e, w') => (Raise e, w')
             end
  end.
Proof.
  intros self. unfold EmpathyEngine.process, self.
  cbn [EmpathyEngine.detector EmpathyEngine.mapper EmpathyEngine.tts].
  destruct (EmotionDetector.detect d txt) as [emo | e] eqn:Hd; cbn [bind];
    [ | reflexivity].
  pose proof (detect_intensity d txt emo Hd) as Hi.
  destruct (map_total_mag (EmotionDetector.primary_emotion emo)
              (EmotionDetector.intensity emo)) as [vp Hvp].
  { rewrite Hi. apply compute_intensity_mag. }
  destruct (explain_of_map (EmpathyEngine.float_repr env) VoiceMapper.default
              _ _ vp Hvp) as [expl Hexpl].
  exists vp, expl. split; [exact Hvp | ].
  rewrite Hvp. cbn [bind]. rewrite Hexpl. cbn [bind].
  destruct (TTSEngine.synthesize _ t txt vp output_path w) as [[path | e] w'];
    reflexivity.
Qed.

(** X9: take a request whose body is absent or is a JSON object with
    string members.  If it has no "text" member, or its text is blank, that
    is made of white space characters only (those of ASCII or any other of
    Unicode's), it is answered with status 400 and the message "Please
    provide some text."; neither the state nor the world changes, and the
    engine is not even built.  Any other such request is answered with 200
    or 500 and leaves an engine in the state. *)
Theorem X9_blank_text_rejected
  (env : EmpathyEngine.Env) (json : option (dict string))
  (st : WebApp.State) (w : TTSEngine.World) :
  let data := match json with Some d => d | None => [] end in
  let text := dict_get_default data "text" "" in
  let out := WebApp.synthesize env json st w in
  (blank (fun t => t) text ->
   out = (WebApp.mkResponse (WebApp.ErrorBody "Please provide some text.")
                            400, st, w))
  /\ (~ blank (fun t => t) text ->
      (WebApp.status (fst (fst out)) = 200
       \/ WebApp.status (fst (fst out)) = 500)
      /\ WebApp._engine (snd (fst out)) <> None)
  /\ (dict_get data "text" = None -> blank (fun t => t) text)
  /\ (forall t r, In t WHITESPACE ->
                  (blank (fun t => t) (t ++ r) <-> blank (fun t => t) r)).
Proof.
  intros data text out. unfold out, WebApp.synthesize. fold data. fold text.
  pose proof (strip_empty_iff text) as Hiff.
  split; [ | split; [ | split]].
  - intros Hb. rewrite (proj2 Hiff Hb). reflexivity.
  - intros Hnb.
    destruct (String.eqb_spec (strip text) "") as [He | Hne];
      [contradiction (Hnb (proj1 Hiff He)) | ].
    destruct (WebApp.get_engine env st) as [e st1].
    destruct (EmpathyEngine.process env _ _ None w) as [[r | exc] w'];
      cbn [fst snd WebApp.status WebApp._engine];
      (split; [tauto | discriminate]).
  - intros Hnone. unfold text, dict_get_default. rewrite Hnone. constructor.
  - intros t r Hin.
    assert (Ht : is_space t = true).
    { unfold is_space. apply existsb_exists. exists t.
      split; [exact Hin | apply String.eqb_refl]. }
    split.
    + intros Hb. apply strip_empty_iff.
      apply strip_empty_iff in Hb. unfold strip in Hb |- *.
      rewrite lstrip_token in Hb by exact Ht. exact Hb.
    + intros Hb. apply blank_app; [ | exact Ht | exact Hb].
      intros ->. vm_compute in Ht. discriminate Ht.
Qed.

Lemma X9_blank_text_rejected_witness :
  WebApp.synthesize (Sample.env false)
    (Some [("text", bytes [32; 194; 160; 226; 128; 131; 10]%nat);
           ("engine", "gtts")])
    WebApp.initial Sample.world0
  = (WebApp.mkResponse (WebApp.ErrorBody "Please provide some text.") 400,
     WebApp.initial, Sample.world0).
Proof.
  apply (proj1 (X9_blank_text_rejected (Sample.env false)
                  (Some [("text", bytes [32; 194; 160; 226; 128; 131; 10]%nat);
                         ("engine", "gtts")])
                  WebApp.initial Sample.world0)).
  apply (proj1 (strip_empty_iff _)). vm_compute. reflexivity.
Defined.

(** X10: a response that carries a result has status 200, the result is
    the one [process] returned, and its audio URL is "/audio/" followed by
    the last component of the audio path, which holds no "/"; for an audio
    path [dir/name] with a slash-free [name] the URL is "/audio/name". *)
Theorem X10_audio_url
  (env : EmpathyEngine.Env) (json : option (dict string))
  (st : WebApp.State) (w : TTSEngine.World)
  (result : EmpathyEngine.ProcessResult) (url : string)
  (Hbody : WebApp.content (fst (fst (WebApp.synthesize env json st w)))
           = WebApp.ResultBody result url) :
  WebApp.status (fst (fst (WebApp.synthesize env json st w))) = 200
  /\ url = "/audio/" ++ basename (EmpathyEngine.audio result)
  /\ has_slash (basename (EmpathyEngine.audio result)) = false
  /\ (forall dir name,
         EmpathyEngine.audio result = dir ++ "/" ++ name ->
         has_slash name = false -> url = "/audio/" ++ name).
Proof.
  revert Hbody. unfold WebApp.synthesize.
  destruct (String.eqb _ ""); cbn [fst WebApp.content]; [discriminate | ].
  destruct (WebApp.get_engine env st) as [e st1].
  destruct (EmpathyEngine.process env _ _ None w) as [[r | exc] w'];
    cbn [fst WebApp.content WebApp.status]; [ | discriminate].
  intros [= <- <-]. split; [reflexivity | ]. split; [reflexivity | ].
  split; [apply basename_no_slash | ].
  intros dir name Hpath Hname. rewrite Hpath, basename_join by exact Hname.
  reflexivity.
Qed.

Lemma X10_audio_url_witness :
  exists result,
    WebApp.content
      (fst (fst (WebApp.synthesize (Sample.env false)
                   (Some [("text", "Good morning")]) WebApp.initial
                   Sample.world0)))
    = WebApp.ResultBody result "/audio/empathy_0a1b2c3d.wav"
    /\ WebApp.status
         (fst (fst (WebApp.synthesize (Sample.env false)
                      (Some [("text", "Good morning")]) WebApp.initial
                      Sample.world0))) = 200.
Proof.
  eexists. split; [vm_compute; reflexivity | ].
  eapply (X10_audio_url (Sample.env false) (Some [("text", "Good morning")])
            WebApp.initial Sample.world0).
  vm_compute. reflexivity.
Defined.

(** X11: no request changes the detector or the mapper of the shared
    engine: if the engine in the state, when there is one, has the
    detector built at first use (with the classifier asked for) and the
    default mapper, the same holds after any request; it holds at start,
    and once an engine is there, it stays. *)
Theorem X11_engine_parts_stable
  (env : EmpathyEngine.Env) (json : option (dict string))
  (st : WebApp.State) (w : TTSEngine.World)
  (Hinv : forall e, WebApp._engine st = Some e ->
                    EmpathyEngine.detector e
                    = EmotionDetector.__init__
                        (EmpathyEngine.polarity_scores env)
                        (EmpathyEngine.HF_AVAILABLE env)
                        (EmpathyEngine.hf_pipeline env) true
                    /\ EmpathyEngine.mapper e = VoiceMapper.default) :
  let st' := snd (fst (WebApp.synthesize env json st w)) in
  (forall e, WebApp._engine st' = Some e ->
             EmpathyEngine.detector e
             = EmotionDetector.__init__
                 (EmpathyEngine.polarity_scores env)
                 (EmpathyEngine.HF_AVAILABLE env)
                 (EmpathyEngine.hf_pipeline env) true
             /\ EmpathyEngine.mapper e = VoiceMapper.default)
  /\ (WebApp._engine st <> None -> WebApp._engine st' <> None)
  /\ WebApp._engine WebApp.initial = None.
Proof.
  intros st'. unfold st'. rewrite handler_state.
  destruct (String.eqb _ "").
  - split; [exact Hinv | split; [tauto | reflexivity]].
  - split; [ | split; [intros _; discriminate | reflexivity]].
    intros e [= <-].
    cbn [EmpathyEngine.detector EmpathyEngine.mapper].
    unfold WebApp.get_engine.
    destruct (WebApp._engine st) as [e0 | ] eqn:He0; cbn [fst].
    + exact (Hinv e0 eq_refl).
    + split; reflexivity.
Qed.

Lemma X11_engine_parts_stable_witness :
  exists e,
    WebApp._engine
      (snd (fst (WebApp.synthesize (Sample.env true)
                   (Some [("text", "Hello there"); ("engine", "gtts")])
                   WebApp.initial Sample.world0))) = Some e
    /\ EmpathyEngine.mapper e = VoiceMapper.default.
Proof.
  eexists. split; [vm_compute; reflexivity | ].
  refine (proj2 (proj1 (X11_engine_parts_stable (Sample.env true)
                          (Some [("text", "Hello there"); ("engine", "gtts")])
                          WebApp.initial Sample.world0 _) _ _)).
  - intros e0 H0. discriminate H0.
  - vm_compute. reflexivity.
Defined.

(* ===================================================================== *)
(** * Further facts: the backend methods *)
(* ===================================================================== *)

Section PathFacts.

Import Backends.

Lemma length_app (a b : string) :
  String.length (a ++ b) = (String.length a + String.length b)%nat.
Proof.
  induction a as [ | c a IH]; cbn [append String.length]; [reflexivity | ].
  rewrite IH. reflexivity.
Qed.

Lemma substring_all (s : string) : substring 0 (String.length s) s = s.
Proof.
  induction s as [ | c s IH]; cbn [String.length substring]; [reflexivity | ].
  rewrite IH. reflexivity.
Qed.


Lemma substring_prefix (a b : string) :
  substring 0 (String.length a) (a ++ b) = a.
Proof.
  induction a as [ | c a IH]; cbn [append String.length substring].
  - destruct b; reflexivity.
  - rewrite IH. reflexivity.
Qed.

Lemma substring_split (s : string) (i : nat) :
  (i <= String.length s)%nat ->
  s = substring 0 i s ++ substring i (String.length s - i) s.
Proof.
  revert i. induction s as [ | c s IH]; intros i Hi.
  - destruct i; reflexivity.
  - destruct i as [ | i].
    + cbn [substring append]. rewrite Nat.sub_0_r.
      cbn [String.length substring]. rewrite substring_all. reflexivity.
    + cbn [String.length] in Hi |- *. cbn [substring append Nat.sub].
      rewrite <- (IH i) by lia. reflexivity.
Qed.


Lemma endswith_split (s suffix : string) :
  endswith s suffix = true ->
  s = drop_last (String.length suffix) s ++ suffix.
Proof.
  unfold endswith, drop_last. intros H.
  apply andb_prop in H. destruct H as [Hlen Heq].
  apply Nat.leb_le in Hlen. apply String.eqb_eq in Heq.
  rewrite (substring_split s (String.length s - String.length suffix)) at 1
    by lia.
  replace (String.length s - (String.length s - String.length suffix))%nat
    with (String.length suffix) by lia.
  rewrite Heq. reflexivity.
Qed.

Lemma drop_last_app (a suffix : string) :
  drop_last (String.length suffix) (a ++ suffix) = a.
Proof.
  unfold drop_last. rewrite length_app.
  replace (String.length a + String.length suffix - String.length suffix)%nat
    with (String.length a) by lia.
  apply substring_prefix.
Qed.

Lemma has_dot_app (a b : string) :
  has_dot (a ++ b) = (has_dot a || has_dot b)%bool.
Proof.
  induction a as [ | c a IH]; cbn [append has_dot]; [reflexivity | ].
  destruct (Ascii.eqb c "."); [reflexivity | exact IH].
Qed.

(** Splitting at the last dot undoes the appending of an extension. *)
Lemma rsplit_dot_ext (stem ext : string) :
  has_dot ext = false -> rsplit_dot_head (stem ++ "." ++ ext) = stem.
Proof.
  intros Hext. change (stem ++ "." ++ ext) with (stem ++ String "." ext).
  induction stem as [ | c stem IH]; cbn [append rsplit_dot_head].
  - rewrite Hext. reflexivity.
  - rewrite has_dot_app. cbn [has_dot Ascii.eqb Bool.eqb].
    rewrite orb_true_r, IH. reflexivity.
Qed.

Lemma rsplit_dot_none (s : string) :
  has_dot s = false -> rsplit_dot_head s = s.
Proof.
  induction s as [ | c s IH]; cbn [has_dot rsplit_dot_head]; [reflexivity | ].
  destruct (Ascii.eqb c ".") eqn:Hc; [discriminate | ].
  intros Hs. rewrite Hs. reflexivity.
Qed.

(** The output path [_synthesize_macos_say] works with, after the
    coercion of the extension. *)
Lemma macos_coerced (output_path : string) :
  exists stem ext,
    (ext = "wav" \/ ext = "mp3")
    /\ (if endswith output_path ".aiff"
        then drop_last 5 output_path ++ ".wav"
        else if negb (endswith output_path ".wav"
                      || endswith output_path ".mp3")
             then output_path ++ ".wav" else output_path)
       = stem ++ "." ++ ext
    /\ (endswith output_path ".aiff" = true ->
        output_path = stem ++ ".aiff" /\ ext = "wav")
    /\ (endswith output_path ".aiff" = false ->
        (endswith output_path ".wav" || endswith output_path ".mp3")%bool
        = true -> output_path = stem ++ "." ++ ext)
    /\ (endswith output_path ".aiff" = false ->
        (endswith output_path ".wav" || endswith output_path ".mp3")%bool
        = false -> output_path = stem /\ ext = "wav").
Proof.
  destruct (endswith output_path ".aiff") eqn:Ha.
  - exists (drop_last 5 output_path), "wav".
    split; [left; reflexivity | ]. split; [reflexivity | ].
    split; [ | split; discriminate].
    intros _. split; [exact (endswith_split _ ".aiff" Ha) | reflexivity].
  - destruct (endswith output_path ".wav") eqn:Hw; cbn [orb negb].
    + exists (drop_last 4 output_path), "wav".
      pose proof (endswith_split _ ".wav" Hw) as Hs.
      split; [left; reflexivity | ]. split; [exact Hs | ].
      split; [discriminate | split; [intros _ _; exact Hs | discriminate]].
    + destruct (endswith output_path ".mp3") eqn:Hm; cbn [negb].
      * exists (drop_last 4 output_path), "mp3".
        pose proof (endswith_split _ ".mp3" Hm) as Hs.
        split; [right; reflexivity | ]. split; [exact Hs | ].
        split; [discriminate | split; [intros _ _; exact Hs | discriminate]].
      * exists output_path, "wav".
        split; [left; reflexivity | ]. split; [reflexivity | ].
        split; [discriminate | split; [discriminate | ]].
        intros _ _. split; reflexivity.
Qed.

End PathFacts.

(** X12: when [_synthesize_macos_say] returns a path, it is the absolute
    path of [stem.wav] or [stem.mp3], the caller's path with its extension
    coerced ([.aiff] becomes [.wav], [.wav] and [.mp3] are kept, anything
    else gets [.wav] appended), or of the sibling [stem.aiff] that [say]
    wrote. *)
Theorem X12_macos_say_result_path
  (os : Backends.OS) (txt : string) (params : VoiceMapper.VoiceParams)
  (output_path : string) (w : TTSEngine.World) (path : string)
  (Hok : fst (Backends._synthesize_macos_say os txt params output_path w)
         = Ok path) :
  exists stem ext,
    (ext = "wav" \/ ext = "mp3")
    /\ (path = Backends.abspath os (stem ++ "." ++ ext)
        \/ path = Backends.abspath os (stem ++ ".aiff"))
    /\ (Backends.endswith output_path ".aiff" = true ->
        output_path = stem ++ ".aiff" /\ ext = "wav")
    /\ (Backends.endswith output_path ".aiff" = false ->
        (Backends.endswith output_path ".wav"
         || Backends.endswith output_path ".mp3")%bool = true ->
        output_path = stem ++ "." ++ ext)
    /\ (Backends.endswith output_path ".aiff" = false ->
        (Backends.endswith output_path ".wav"
         || Backends.endswith output_path ".mp3")%bool = false ->
        output_path = stem /\ ext = "wav").
Proof.
  destruct (macos_coerced output_path) as [stem [ext [Hext [Hco [H1 [H2 H3]]]]]].
  exists stem, ext. split; [exact Hext | ].
  split; [ | split; [exact H1 | split; [exact H2 | exact H3]]].
  revert Hok. unfold Backends._synthesize_macos_say. rewrite Hco.
  assert (Haiff : Backends.rsplit_dot_head (stem ++ "." ++ ext) = stem).
  { apply rsplit_dot_ext. destruct Hext as [-> | ->]; reflexivity. }
  rewrite Haiff.
  destruct (Backends.subprocess_run os _ 30 w) as [[rc err | | | e] w1];
    cbn [fst]; try discriminate.
  destruct (negb (rc =? 0)); cbn [fst]; [discriminate | ].
  destruct (Backends.subprocess_run os _ 15 w1) as [[rc2 err2 | | | e] w2];
    cbn [fst]; try discriminate;
    try (intros [= <-]; right; reflexivity).
  destruct (rc2 =? 0); cbn [fst]; intros [= <-];
    [left; reflexivity | right; reflexivity].
Qed.

Lemma X12_macos_say_result_path_witness :
  exists stem ext,
    (ext = "wav" \/ ext = "mp3")
    /\ ("out/hello.aiff" = Backends.abspath SampleOS.mac (stem ++ "." ++ ext)
        \/ "out/hello.aiff" = Backends.abspath SampleOS.mac (stem ++ ".aiff")).
Proof.
  destruct (X12_macos_say_result_path SampleOS.mac "Hello" SampleOS.params
              "out/hello.aiff" Sample.world0 "out/hello.aiff"
              ltac:(vm_compute; reflexivity))
    as [stem [ext [Hext [Hpath _]]]].
  exists stem, ext. split; [exact Hext | exact Hpath].
Defined.

(** X13: what [_synthesize_macos_say] runs and how it ends.  It runs
    [say] with the rate, a voice that is "Daniel" exactly when the pitch is
    below 0.9 and "Samantha" otherwise, and an [.aiff] output file.  A
    missing [say] and a non-zero exit of [say] become [RuntimeError], and
    nothing more is run.  Once [say] has succeeded the method returns a
    path, whether [afconvert] succeeds, fails, is missing or times out; only
    another exception of that second run gets through. *)
Theorem X13_macos_say_outcomes
  (os : Backends.OS) (txt : string) (params : VoiceMapper.VoiceParams)
  (output_path : string) (w : TTSEngine.World) :
  exists aiff out,
    let voice := if fltb (VoiceMapper.pitch params) (lit 9 1)
                 then "Daniel" else "Samantha" in
    let cmd := ["say"; "-r"; str_int (VoiceMapper.rate params); "-v"; voice;
                "-o"; aiff ++ ".aiff"; txt] in
    let conv := ["afconvert"; "-f"; "WAVE"; "-d"; "LEI16";
                 aiff ++ ".aiff"; out] in
    let result := Backends._synthesize_macos_say os txt params output_path w in
    match Backends.subprocess_run os cmd 30 w with
    | (Backends.FileNotFoundError, w1) =>
        result
        = (Raise (RuntimeError
                    "macOS 'say' command not found. Use --engine pyttsx3 or --engine gtts."),
           w1)
    | (Backends.TimeoutExpired, w1) => exists e, result = (Raise e, w1)
    | (Backends.OtherError e, w1) => result = (Raise e, w1)
    | (Backends.Completed rc err, w1) =>
        if rc =? 0 then
          match Backends.subprocess_run os conv 15 w1 with
          | (Backends.OtherError e, w2) => result = (Raise e, w2)
          | _ => exists path w', result = (Ok path, w')
          end
        else result
             = (Raise (RuntimeError ("'say' command failed: " ++ err)), w1)
    end.
Proof.
  unfold Backends._synthesize_macos_say.
  set (out := if Backends.endswith output_path ".aiff"
              then Backends.drop_last 5 output_path ++ ".wav"
              else if negb (Backends.endswith output_path ".wav"
                            || Backends.endswith output_path ".mp3")
                   then output_path ++ ".wav" else output_path).
  exists (Backends.rsplit_dot_head out), out. cbv zeta.
  replace (if fltb (VoiceMapper.pitch params) (lit 9 1)
           then "Daniel"
           else if fgtb (VoiceMapper.pitch params) (lit 12 1)
                then "Samantha" else "Samantha")
    with (if fltb (VoiceMapper.pitch params) (lit 9 1)
          then "Daniel" else "Samantha")
    by (destruct (fltb _ _); [reflexivity | destruct (fgtb _ _); reflexivity]).
  destruct (Backends.subprocess_run os _ 30 w) as [[rc err | | | e] w1].
  - destruct (rc =? 0); cbn [negb]; [ | reflexivity].
    destruct (Backends.subprocess_run os _ 15 w1) as [[rc2 err2 | | | e] w2].
    + destruct (rc2 =? 0); eexists; eexists; reflexivity.
    + eexists. eexists. reflexivity.
    + eexists. eexists. reflexivity.
    + reflexivity.
  - reflexivity.
  - eexists. reflexivity.
  - reflexivity.
Qed.

(** X14: the continuous pitch never reaches a backend.  [_synthesize_gtts]
    ignores the pitch; [_synthesize_pyttsx3] ignores it on a host that is
    not macOS; [_synthesize_macos_say], and with it the macOS fallback of
    [_synthesize_pyttsx3], sees of the pitch only whether it is below
    0.9. *)
Theorem X14_pitch_is_lost
  (os : Backends.OS) (txt : string) (rate : Z) (vol p1 p2 : float)
  (output_path : string) (w : TTSEngine.World) :
  let a := VoiceMapper.mkVoiceParams rate p1 vol in
  let b := VoiceMapper.mkVoiceParams rate p2 vol in
  Backends._synthesize_gtts os txt a output_path w
  = Backends._synthesize_gtts os txt b output_path w
  /\ (Backends.platform_is_macos os = false ->
      Backends._synthesize_pyttsx3 os txt a output_path w
      = Backends._synthesize_pyttsx3 os txt b output_path w)
  /\ (fltb p1 (lit 9 1) = fltb p2 (lit 9 1) ->
      Backends._synthesize_macos_say os txt a output_path w
      = Backends._synthesize_macos_say os txt b output_path w
      /\ Backends._synthesize_pyttsx3 os txt a output_path w
         = Backends._synthesize_pyttsx3 os txt b output_path w).
Proof.
  intros a b.
  assert (Hmac : fltb p1 (lit 9 1) = fltb p2 (lit 9 1) ->
                 forall out w0,
                   Backends._synthesize_macos_say os txt a out w0
                   = Backends._synthesize_macos_say os txt b out w0).
  { intros Hp out w0. unfold Backends._synthesize_macos_say, a, b.
    cbn [VoiceMapper.pitch VoiceMapper.rate VoiceMapper.volume].
    rewrite Hp.
    replace (if fgtb p1 (lit 12 1) then "Samantha" else "Samantha")
      with "Samantha" by (destruct (fgtb p1 (lit 12 1)); reflexivity).
    replace (if fgtb p2 (lit 12 1) then "Samantha" else "Samantha")
      with "Samantha" by (destruct (fgtb p2 (lit 12 1)); reflexivity).
    reflexivity. }
  split; [reflexivity | split].
  - intros Hos. unfold Backends._synthesize_pyttsx3, a, b.
    cbn [VoiceMapper.rate VoiceMapper.volume]. rewrite Hos. reflexivity.
  - intros Hp. split; [apply Hmac; exact Hp | ].
    unfold Backends._synthesize_pyttsx3, a, b.
    cbn [VoiceMapper.rate VoiceMapper.volume].
    destruct (Backends.subprocess_run os _ 30 w) as [[rc err | | | e] w1];
      try reflexivity.
    destruct (Backends.platform_is_macos os); [ | reflexivity].
    apply Hmac. exact Hp.
Qed.

Section GttsFacts.

Import Backends.



(** The output path [_synthesize_gtts] works with. *)
Lemma gtts_coerced (output_path : string) :
  exists stem,
    (if negb (endswith output_path ".mp3")
     then rsplit_dot_head output_path ++ ".mp3" else output_path)
    = stem ++ ".mp3"
    /\ (endswith output_path ".mp3" = true -> output_path = stem ++ ".mp3")
    /\ (endswith output_path ".mp3" = false ->
        (has_dot output_path = false -> stem = output_path)
        /\ (forall t e, output_path = t ++ "." ++ e -> has_dot e = false ->
                        stem = t)).
Proof.
  destruct (endswith output_path ".mp3") eqn:Hm; cbn [negb].
  - exists (drop_last 4 output_path).
    pose proof (endswith_split _ ".mp3" Hm) as Hs.
    split; [exact Hs | split; [intros _; exact Hs | discriminate]].
  - exists (rsplit_dot_head output_path).
    split; [reflexivity | split; [discriminate | ]].
    intros _. split.
    + intros Hd. apply rsplit_dot_none. exact Hd.
    + intros t e -> He. apply rsplit_dot_ext. exact He.
Qed.

End GttsFacts.

(** X15: when [_synthesize_gtts] returns a path, it is the absolute path
    of [stem.mp3]: the caller's path itself if it ends in [.mp3];
    otherwise what follows the last dot of the caller's path is replaced by
    [mp3], also when that dot lies in a directory name, and a path without
    any dot gets [.mp3] appended. *)
Theorem X15_gtts_result_path
  (os : Backends.OS) (txt : string) (params : VoiceMapper.VoiceParams)
  (output_path : string) (w : TTSEngine.World) (path : string)
  (Hok : fst (Backends._synthesize_gtts os txt params output_path w)
         = Ok path) :
  exists stem,
    path = Backends.abspath os (stem ++ ".mp3")
    /\ (Backends.endswith output_path ".mp3" = true ->
        output_path = stem ++ ".mp3")
    /\ (Backends.endswith output_path ".mp3" = false ->
        (Backends.has_dot output_path = false -> stem = output_path)
        /\ (forall t e, output_path = t ++ "." ++ e ->
                        Backends.has_dot e = false -> stem = t)).
Proof.
  destruct (gtts_coerced output_path) as [stem [Hco [H1 H2]]].
  exists stem. split; [ | split; [exact H1 | exact H2]].
  revert Hok. unfold Backends._synthesize_gtts. rewrite Hco.
  destruct (negb (Backends.gtts_installed os)); cbn [fst]; [discriminate | ].
  destruct (Backends.gtts_save os txt _ _) as [[u | e] w1]; cbn [fst];
    [ | discriminate].
  destruct (Backends.try_postprocess os params _ _ w1)
    as [[u' | e] w2]; cbn [fst]; [ | discriminate].
  intros [= <-]. reflexivity.
Qed.

Lemma X15_gtts_result_path_witness :
  exists stem,
    "out/v1.mp3" = Backends.abspath SampleOS.cloud (stem ++ ".mp3")
    /\ (Backends.endswith "out/v1.2/speech" ".mp3" = false ->
        (Backends.has_dot "out/v1.2/speech" = false -> stem = "out/v1.2/speech")
        /\ (forall t e, "out/v1.2/speech" = t ++ "." ++ e ->
                        Backends.has_dot e = false -> stem = t)).
Proof.
  destruct (X15_gtts_result_path SampleOS.cloud "Hello" SampleOS.params
              "out/v1.2/speech" Sample.world0 "out/v1.mp3"
              ltac:(vm_compute; reflexivity))
    as [stem [Hpath [_ H2]]].
  exists stem. split; [exact Hpath | exact H2].
Defined.

(** X16: once gTTS has saved its temporary file, [_synthesize_gtts] leaves
    no temporary file behind, whether the post-processing succeeds, pydub
    is missing, or loading, the frame-rate computation, the export or the
    move raises: provided [os.remove] removes, the file
    [tempdir/gtts_<uuid>.mp3] does not exist when the method ends. *)
Theorem X16_gtts_removes_temporary_file
  (os : Backends.OS) (txt : string) (params : VoiceMapper.VoiceParams)
  (output_path : string) (w w1 : TTSEngine.World)
  (Hremove : forall p w0,
      Backends.os_path_exists os p (Backends.os_remove os p w0) = false)
  (Hinstalled : Backends.gtts_installed os = true)
  (Hsaved :
     Backends.gtts_save os txt
       (Backends.os_path_join (Backends.tempdir os)
          ("gtts_" ++ Backends.uuid_hex8 os (TTSEngine.uuids_drawn w)
             ++ ".mp3"))
       (TTSEngine.mkWorld (TTSEngine.files w) (S (TTSEngine.uuids_drawn w)))
     = (Ok tt, w1)) :
  Backends.os_path_exists os
    (Backends.os_path_join (Backends.tempdir os)
       ("gtts_" ++ Backends.uuid_hex8 os (TTSEngine.uuids_drawn w)
          ++ ".mp3"))
    (snd (Backends._synthesize_gtts os txt params output_path w))
  = false.
Proof.
  unfold Backends._synthesize_gtts. rewrite Hinstalled. cbn [negb].
  rewrite Hsaved.
  destruct (Backends.try_postprocess os params _ _ w1)
    as [[u' | e] w2]; cbn [snd]; unfold Backends.remove_tmp;
    (destruct (Backends.os_path_exists os _ w2) eqn:Hex;
     [apply Hremove | exact Hex]).
Qed.

Lemma sample_remove_removes (p : string) (w0 : TTSEngine.World) :
  SampleOS.present p (SampleOS.remove p w0) = false.
Proof.
  unfold SampleOS.present, SampleOS.remove. cbn [TTSEngine.files].
  induction (TTSEngine.files w0) as [ | f l IH]; cbn [filter existsb];
    [reflexivity | ].
  destruct (String.eqb_spec f p) as [-> | Hne]; cbn [negb existsb].
  - exact IH.
  - rewrite IH. apply not_eq_sym in Hne. apply String.eqb_neq in Hne.
    rewrite Hne. reflexivity.
Qed.

Lemma X16_gtts_removes_temporary_file_witness :
  Backends.os_path_exists SampleOS.cloud "/tmp/gtts_0a1b2c3d.mp3"
    (snd (Backends._synthesize_gtts SampleOS.cloud "Hello" SampleOS.params
            "out/hello.mp3" Sample.world0))
  = false.
Proof.
  apply (X16_gtts_removes_temporary_file SampleOS.cloud "Hello"
           SampleOS.params "out/hello.mp3" Sample.world0
           (SampleOS.write "/tmp/gtts_0a1b2c3d.mp3"
              (TTSEngine.mkWorld [] 1))).
  - exact sample_remove_removes.
  - reflexivity.
  - reflexivity.
Defined.

Section DispatchWithBackends.

Import Backends.



End DispatchWithBackends.



(* ===================================================================== *)
(** * Further facts: rounding and the intensity bar *)
(* ===================================================================== *)

Section RoundingBounds.

(** *** A shift that drops only zero bits is exact *)

Lemma shr_1_exact (r : shr_record) :
  0 <= shr_m r -> shr_r r = false -> shr_s r = false ->
  (exists q, shr_m r = 2 * q) ->
  shr_r (shr_1 r) = false /\ shr_s (shr_1 r) = false.
Proof.
  destruct r as [m rb sb]. cbn [shr_m shr_r shr_s].
  intros Hm -> -> [q Hq].
  destruct m as [ | [p | p | ] | p]; cbn [shr_1 shr_r shr_s orb];
    try (split; reflexivity); lia.
Qed.

Lemma iter_shr_exact (p : positive) (r : shr_record) :
  0 <= shr_m r -> shr_r r = false -> shr_s r = false ->
  (exists q, shr_m r = 2 ^ Zpos p * q) ->
  shr_r (iter_pos shr_1 p r) = false /\ shr_s (iter_pos shr_1 p r) = false.
Proof.
  revert r.
  assert (Hstep : forall (k : positive) (x : shr_record) (q : Z),
             0 <= shr_m x -> shr_m x = 2 ^ Zpos k * q ->
             0 <= shr_m (iter_pos shr_1 k x)
             /\ shr_m (iter_pos shr_1 k x) = q).
  { intros k x q Hx Hq. rewrite iter_shr_m by exact Hx.
    assert (Hp : 0 < 2 ^ Zpos k) by (apply Z.pow_pos_nonneg; lia).
    assert (Hd : shr_m x / 2 ^ Zpos k = q).
    { rewrite Hq, Z.mul_comm. apply Z.div_mul. lia. }
    rewrite Hd. split; [nia | reflexivity]. }
  induction p as [p IH | p IH | ]; intros r Hm Hr Hs [q Hq]; cbn [iter_pos].
  - assert (Hp : 0 < 2 ^ Zpos p) by (apply Z.pow_pos_nonneg; lia).
    assert (Hq' : shr_m r = 2 * (2 ^ Zpos p * (2 ^ Zpos p * q))).
    { rewrite Hq, Pos2Z.inj_xI.
      replace (2 * Zpos p + 1) with (Z.succ (Zpos p + Zpos p)) by lia.
      rewrite Z.pow_succ_r, Z.pow_add_r by lia. ring. }
    destruct (shr_1_exact r Hm Hr Hs (ex_intro _ _ Hq')) as [Hr1 Hs1].
    assert (Hm1 : 0 <= shr_m (shr_1 r)
                  /\ shr_m (shr_1 r) = 2 ^ Zpos p * (2 ^ Zpos p * q)).
    { rewrite shr_1_m by exact Hm. rewrite Hq'.
      rewrite (Z.mul_comm 2), Z.div_mul by lia. split; [nia | reflexivity]. }
    destruct Hm1 as [Hm1 Hq1].
    destruct (IH _ Hm1 Hr1 Hs1 (ex_intro _ _ Hq1)) as [Hr2 Hs2].
    destruct (Hstep p _ _ Hm1 Hq1) as [Hm2 Hq2].
    apply (IH _ Hm2 Hr2 Hs2). exists q. exact Hq2.
  - assert (Hp : 0 < 2 ^ Zpos p) by (apply Z.pow_pos_nonneg; lia).
    assert (Hq' : shr_m r = 2 ^ Zpos p * (2 ^ Zpos p * q)).
    { rewrite Hq. change (Zpos p~0) with (2 * Zpos p).
      replace (2 * Zpos p) with (Zpos p + Zpos p) by lia.
      rewrite Z.pow_add_r by lia. ring. }
    destruct (IH _ Hm Hr Hs (ex_intro _ _ Hq')) as [Hr2 Hs2].
    destruct (Hstep p _ _ Hm Hq') as [Hm2 Hq2].
    apply (IH _ Hm2 Hr2 Hs2). exists q. exact Hq2.
  - apply shr_1_exact; try assumption. exists q.
    rewrite Hq. reflexivity.
Qed.

Lemma shr_fexp_exact (m e : Z) :
  0 <= m ->
  (exists q, m = 2 ^ (Z.max e (fexp prec emax (Zdigits2 m + e)) - e) * q) ->
  loc_of_shr_record (fst (shr_fexp prec emax m e loc_Exact)) = loc_Exact.
Proof.
  intros Hm [q Hq]. unfold shr_fexp, shr. cbn [shr_record_of_loc].
  revert Hq. set (f := fexp prec emax (Zdigits2 m + e)).
  destruct (f - e) as [ | p | p] eqn:Hd; cbn [fst]; try reflexivity.
  replace (Z.max e f - e) with (Zpos p) by lia. intros Hq.
  destruct (iter_shr_exact p (Build_shr_record m false false))
    as [Hr Hs]; try reflexivity; [exact Hm | exists q; exact Hq | ].
  destruct (iter_pos shr_1 p (Build_shr_record m false false)) as [m' r' s'].
  cbn [shr_r shr_s] in Hr, Hs. subst r' s'. reflexivity.
Qed.

(** *** Rounding does not cross an integer *)

(** A positive number that is at most the integer [N] is rounded to a
    float that is at most [N]. *)
Lemma round_aux_le (s : bool) (mx ex N : Z) :
  0 < mx -> ex <= 0 -> 0 < N < 2 ^ 53 -> mx <= N * 2 ^ (- ex) ->
  match binary_round_aux prec emax s mx ex loc_Exact with
  | S754_zero _ => True
  | S754_finite s' m e => s' = s /\ e <= 0 /\ Zpos m <= N * 2 ^ (- e)
  | _ => False
  end.
Proof.
  intros Hpos Hex HN Hle.
  assert (Hlt : mx < 2 ^ (53 - ex)).
  { replace (53 - ex) with (53 + - ex) by lia. rewrite Z.pow_add_r by lia.
    assert (0 < 2 ^ (- ex)) by (apply Z.pow_pos_nonneg; lia). nia. }
  assert (Hd : 1 <= Zdigits2 mx <= 53 - ex).
  { destruct mx as [ | q | q]; try lia. cbn [Zdigits2].
    pose proof (digits2_pos_le q _ Hlt).
    pose proof (Pos2Z.is_pos (digits2_pos q)). lia. }
  unfold binary_round_aux.
  destruct (shr_fexp_spec mx ex loc_Exact) as [He1 Hm1]; [lia | ].
  pose proof (shr_fexp_exact mx ex) as Hloc.
  destruct (shr_fexp prec emax mx ex loc_Exact) as [r1 e1].
  cbn [fst snd] in He1, Hm1, Hloc. rewrite <- He1 in Hm1, Hloc.
  set (m2 := round_nearest_even (shr_m r1) (loc_of_shr_record r1)).
  assert (He1' : ex <= e1 <= 0).
  { rewrite He1. unfold fexp, SpecFloat.emin, prec, emax. lia. }
  assert (Hpow : 0 < 2 ^ (e1 - ex)) by (apply Z.pow_pos_nonneg; lia).
  assert (HK : N * 2 ^ (- ex) = 2 ^ (e1 - ex) * (N * 2 ^ (- e1))).
  { replace (- ex) with ((e1 - ex) + - e1) by lia.
    rewrite Z.pow_add_r by lia. ring. }
  assert (Hm2 : 0 <= m2 <= N * 2 ^ (- e1)).
  { pose proof (round_nearest_even_bounds (shr_m r1) (loc_of_shr_record r1))
      as Hb. fold m2 in Hb.
    assert (H0 : 0 <= shr_m r1) by (rewrite Hm1; apply Z.div_pos; lia).
    split; [lia | ].
    destruct (Z.eq_dec (mx mod 2 ^ (e1 - ex)) 0) as [Hz | Hnz].
    - assert (Hq : mx = 2 ^ (e1 - ex) * (mx / 2 ^ (e1 - ex))).
      { pose proof (Z.div_mod mx (2 ^ (e1 - ex))). lia. }
      unfold m2. rewrite (Hloc ltac:(lia) (ex_intro _ _ Hq)).
      cbn [round_nearest_even]. rewrite Hm1.
      apply Z.div_le_upper_bound; [exact Hpow | lia].
    - assert (Hne : mx <> 2 ^ (e1 - ex) * (N * 2 ^ (- e1))).
      { intros Heq. apply Hnz. rewrite Heq, Z.mul_comm.
        apply Z.mod_mul. lia. }
      assert (shr_m r1 < N * 2 ^ (- e1)).
      { rewrite Hm1. apply Z.div_lt_upper_bound; [exact Hpow | lia]. }
      lia. }
  assert (Hlt2 : m2 < 2 ^ (53 - e1)).
  { replace (53 - e1) with (53 + - e1) by lia. rewrite Z.pow_add_r by lia.
    assert (0 < 2 ^ (- e1)) by (apply Z.pow_pos_nonneg; lia). nia. }
  assert (Hd2 : 0 <= Zdigits2 m2 <= 53 - e1).
  { destruct m2 as [ | q | q]; cbn [Zdigits2]; try lia.
    pose proof (digits2_pos_le q _ Hlt2).
    pose proof (Pos2Z.is_pos (digits2_pos q)). lia. }
  destruct (shr_fexp_spec m2 e1 loc_Exact) as [He2 Hm3]; [lia | ].
  destruct (shr_fexp prec emax m2 e1 loc_Exact) as [r2 e2].
  cbn [fst snd] in He2, Hm3. rewrite <- He2 in Hm3.
  assert (He2' : e1 <= e2 <= 0).
  { rewrite He2. unfold fexp, SpecFloat.emin, prec, emax. lia. }
  assert (Hpow2 : 0 < 2 ^ (e2 - e1)) by (apply Z.pow_pos_nonneg; lia).
  assert (HK2 : N * 2 ^ (- e1) = 2 ^ (e2 - e1) * (N * 2 ^ (- e2))).
  { replace (- e1) with ((e2 - e1) + - e2) by lia.
    rewrite Z.pow_add_r by lia. ring. }
  assert (Hm3' : 0 <= shr_m r2 <= N * 2 ^ (- e2)).
  { rewrite Hm3. split.
    - apply Z.div_pos; lia.
    - apply Z.div_le_upper_bound; [exact Hpow2 | lia]. }
  destruct (shr_m r2) as [ | q | q] eqn:Hr2; [exact I | | lia].
  unfold prec, emax.
  replace (e2 <=? 1024 - 53) with true by (symmetry; apply Z.leb_le; lia).
  split; [reflexivity | split; lia].
Qed.

End RoundingBounds.

Section IntensityBar.


(** A well-formed float between 0.0 and 1.0 is a zero or a positive
    number [m * 2^e] with [m <= 2^-e]. *)
Lemma unit_interval_shape (x : float) :
  wf x -> fleb (lit 0 1) x = true -> fleb x (lit 10 1) = true ->
  (exists s, x = S754_zero s)
  \/ (exists m e, x = S754_finite false m e /\ e <= -52
                  /\ Zpos m <= 2 ^ (- e)).
Proof.
  rewrite one_eq, zero_eq. unfold wf, fleb, SFleb.
  destruct x as [s | s | | s m e]; cbn [SFcompare valid_binary];
    try discriminate.
  - intros _ _ _. left. exists s. reflexivity.
  - destruct s; discriminate.
  - destruct s; [discriminate | ]. intros Hwf _ Hle. right. exists m, e.
    split; [reflexivity | ].
    unfold bounded, canonical_mantissa in Hwf.
    apply andb_prop in Hwf. destruct Hwf as [Hc _].
    apply Z.eqb_eq in Hc.
    assert (Hd : Zpos (digits2_pos m) <= 53).
    { revert Hc. unfold fexp, SpecFloat.emin, prec, emax. lia. }
    apply digits2_pos_lt in Hd.
    destruct (Z.compare_spec e (-52)) as [He | He | He]; [ | | discriminate].
    + split; [lia | ]. subst e.
      rewrite Pos.compare_cont_spec in Hle. cbn [Pos.switch_Eq] in Hle.
      assert (Hm : (m <= 4503599627370496)%positive).
      { unfold Pos.le. intros Hgt. rewrite Hgt in Hle. discriminate. }
      exact Hm.
    + split; [lia | ].
      assert (2 ^ 53 <= 2 ^ (- e)) by (apply Z.pow_le_mono_r; lia).
      clear Hle Hc. lia.
Qed.



End IntensityBar.



(* ===================================================================== *)
(** * Further facts: the command line *)
(* ===================================================================== *)

Section CommandLine.

(** What [TTSEngine.__init__] makes of each of the command line's
    choices. *)
Lemma choice_backend (env : TTSEngine.Env) (engine : string) :
  In engine Cli.ENGINE_CHOICES ->
  let b := TTSEngine.backend (TTSEngine.__init__ env engine) in
  (b = "macos_say" /\ engine = "auto" /\ TTSEngine.is_macos env = true)
  \/ (b = "pyttsx3"
      /\ (engine = "pyttsx3"
          \/ (engine = "auto" /\ TTSEngine.is_macos env = false)))
  \/ (b = "gtts" /\ engine = "gtts").
Proof.
  intros [<- | [<- | [<- | []]]]; unfold TTSEngine.__init__.
  - right. left. split; [reflexivity | left; reflexivity].
  - right. right. split; reflexivity.
  - cbn [String.eqb Ascii.eqb Bool.eqb andb].
    destruct (TTSEngine.is_macos env) eqn:Hos; cbn [TTSEngine.backend].
    + left. repeat split.
    + right. left. split; [reflexivity | right; split; reflexivity].
Qed.

(** With a known backend, [synthesize] is a call of one of the three
    backend methods. *)
Lemma synthesize_dispatches (env : TTSEngine.Env) (self : TTSEngine.t)
  (txt : string) (params : VoiceMapper.VoiceParams)
  (output_path : option string) (w : TTSEngine.World) :
  TTSEngine.known_backend (TTSEngine.backend self) = true ->
  exists method path w1,
    In method [TTSEngine._synthesize_macos_say env;
               TTSEngine._synthesize_pyttsx3 env;
               TTSEngine._synthesize_gtts env]
    /\ TTSEngine.synthesize env self txt params output_path w
       = method txt params path w1.
Proof.
  unfold TTSEngine.known_backend, TTSEngine.synthesize. intros Hk.
  destruct (match output_path with
            | Some p => (p, w)
            | None => _
            end) as [path w1].
  destruct (String.eqb (TTSEngine.backend self) "macos_say").
  - eexists; exists path, w1. split; [left; reflexivity | reflexivity].
  - destruct (String.eqb (TTSEngine.backend self) "pyttsx3").
    + eexists; exists path, w1.
      split; [right; left; reflexivity | reflexivity].
    + destruct (String.eqb (TTSEngine.backend self) "gtts");
        [ | discriminate Hk].
      eexists; exists path, w1.
      split; [right; right; left; reflexivity | reflexivity].
Qed.

End CommandLine.

(** X19: the command line cannot reach the unknown-backend error.  For an
    [--engine] among the choices of [main], the engine that [main] builds
    has the backend "macos_say", "pyttsx3" or "gtts", and "macos_say" only
    through "auto" on macOS; so when its [process] fails, either [detect]
    raised (then nothing was synthesized), or one of the three backend
    methods did. *)
Theorem X19_cli_backend_is_known
  (env : EmpathyEngine.Env) (engine : string) (use_hf : bool)
  (txt : string) (output : option string) (w : TTSEngine.World)
  (Hin : In engine Cli.ENGINE_CHOICES) :
  let self := EmpathyEngine.__init__ env engine use_hf in
  let tenv := EmpathyEngine.tts_env env in
  let run := EmpathyEngine.process env self txt output w in
  TTSEngine.known_backend (TTSEngine.backend (EmpathyEngine.tts self)) = true
  /\ (TTSEngine.backend (EmpathyEngine.tts self) = "macos_say" ->
      engine = "auto" /\ TTSEngine.is_macos tenv = true)
  /\ forall e, fst run = Raise e ->
       (EmotionDetector.detect (EmpathyEngine.detector self) txt = Raise e
        /\ snd run = w)
       \/ exists method params path w1,
            In method [TTSEngine._synthesize_macos_say tenv;
                       TTSEngine._synthesize_pyttsx3 tenv;
                       TTSEngine._synthesize_gtts tenv]
            /\ method txt params path w1 = (Raise e, snd run).
Proof.
  intros self tenv run.
  assert (Hk : TTSEngine.known_backend
                 (TTSEngine.backend (EmpathyEngine.tts self)) = true).
  { unfold self, EmpathyEngine.__init__. cbn [EmpathyEngine.tts].
    destruct (choice_backend (EmpathyEngine.tts_env env) _ Hin)
      as [[-> _] | [[-> _] | [-> _]]]; reflexivity. }
  split; [exact Hk | split].
  - unfold self, EmpathyEngine.__init__. cbn [EmpathyEngine.tts]. fold tenv.
    destruct (choice_backend tenv _ Hin)
      as [[_ H] | [[-> _] | [-> _]]]; [intros _; exact H | | ];
      discriminate.
  - intros e. unfold run, EmpathyEngine.process.
    assert (Hm : EmpathyEngine.mapper self = VoiceMapper.default)
      by reflexivity.
    rewrite Hm.
    destruct (EmotionDetector.detect (EmpathyEngine.detector self) txt)
      as [emo | e0] eqn:Hd; cbn [bind].
    + pose proof (detect_intensity _ _ emo Hd) as Hi.
      destruct (map_total_mag (EmotionDetector.primary_emotion emo)
                  (EmotionDetector.intensity emo)) as [vp Hvp].
      { rewrite Hi. apply compute_intensity_mag. }
      destruct (explain_of_map (EmpathyEngine.float_repr env)
                  VoiceMapper.default _ _ vp Hvp) as [expl Hexpl].
      rewrite Hvp. cbn [bind]. rewrite Hexpl. cbn [bind]. fold tenv.
      destruct (synthesize_dispatches tenv (EmpathyEngine.tts self)
                  txt vp output w Hk)
        as [method [path [w1 [Hmeth Hs]]]].
      rewrite Hs.
      destruct (method txt vp path w1) as [[a | e1] w2] eqn:Hrun;
        cbn [fst snd]; [discriminate | ].
      intros [= <-]. right. exists method, vp, path, w1.
      split; [exact Hmeth | exact Hrun].
    + cbn [fst snd]. intros [= <-]. left. split; reflexivity.
Qed.

Lemma X19_cli_backend_is_known_witness :
  TTSEngine.known_backend
    (TTSEngine.backend
       (EmpathyEngine.tts (EmpathyEngine.__init__ (Sample.env false) "gtts"
                             false))) = true.
Proof.
  exact (proj1 (X19_cli_backend_is_known (Sample.env false) "gtts" false
                  "Hello" None Sample.world0
                  ltac:(right; left; reflexivity))).
Defined.

(* ===================================================================== *)
(** * Further facts: the range of the rate *)
(* ===================================================================== *)

Section RateBounds.

(** A positive number between the integers [L] and [N] is rounded to a
    float between [L] and [N]. *)
Lemma round_aux_between (s : bool) (mx ex L N : Z) :
  ex <= 0 -> 0 < L -> N + 1 < 2 ^ 53 ->
  L * 2 ^ (- ex) <= mx <= N * 2 ^ (- ex) ->
  exists m e,
    binary_round_aux prec emax s mx ex loc_Exact = S754_finite s m e
    /\ e <= 0 /\ L * 2 ^ (- e) <= Zpos m <= N * 2 ^ (- e).
Proof.
  intros Hex HL HN [Hlo Hhi].
  assert (Hpx : 0 < 2 ^ (- ex)) by (apply Z.pow_pos_nonneg; lia).
  assert (Hpos : 0 < mx) by nia.
  assert (HLN : L <= N) by nia.
  pose proof (round_aux_le s mx ex N Hpos Hex ltac:(lia) Hhi) as Hle.
  assert (Hlt : mx < 2 ^ (53 - ex)).
  { replace (53 - ex) with (53 + - ex) by lia. rewrite Z.pow_add_r by lia.
    nia. }
  assert (Hd : 1 <= Zdigits2 mx <= 53 - ex).
  { destruct mx as [ | q | q]; try lia. cbn [Zdigits2].
    pose proof (digits2_pos_le q _ Hlt).
    pose proof (Pos2Z.is_pos (digits2_pos q)). lia. }
  revert Hle. unfold binary_round_aux.
  destruct (shr_fexp_spec mx ex loc_Exact) as [He1 Hm1]; [lia | ].
  destruct (shr_fexp prec emax mx ex loc_Exact) as [r1 e1].
  cbn [fst snd] in He1, Hm1. rewrite <- He1 in Hm1.
  set (m2 := round_nearest_even (shr_m r1) (loc_of_shr_record r1)).
  assert (He1' : ex <= e1 <= 0).
  { rewrite He1. unfold fexp, SpecFloat.emin, prec, emax. lia. }
  assert (Hpow : 0 < 2 ^ (e1 - ex)) by (apply Z.pow_pos_nonneg; lia).
  assert (Hp1 : 0 < 2 ^ (- e1)) by (apply Z.pow_pos_nonneg; lia).
  assert (HK : forall c, c * 2 ^ (- ex) = 2 ^ (e1 - ex) * (c * 2 ^ (- e1))).
  { intros c. replace (- ex) with ((e1 - ex) + - e1) by lia.
    rewrite Z.pow_add_r by lia. ring. }
  assert (Hm2 : L * 2 ^ (- e1) <= m2 <= N * 2 ^ (- e1) + 1).
  { pose proof (round_nearest_even_bounds (shr_m r1) (loc_of_shr_record r1))
      as Hb. fold m2 in Hb.
    assert (L * 2 ^ (- e1) <= shr_m r1).
    { rewrite Hm1. apply Z.div_le_lower_bound; [exact Hpow | ].
      rewrite <- HK. exact Hlo. }
    assert (shr_m r1 <= N * 2 ^ (- e1)).
    { rewrite Hm1. apply Z.div_le_upper_bound; [exact Hpow | ].
      rewrite <- HK. exact Hhi. }
    lia. }
  assert (Hlt2 : m2 < 2 ^ (53 - e1)).
  { replace (53 - e1) with (53 + - e1) by lia. rewrite Z.pow_add_r by lia.
    nia. }
  assert (Hd2 : 0 <= Zdigits2 m2 <= 53 - e1).
  { destruct m2 as [ | q | q]; cbn [Zdigits2]; try lia.
    pose proof (digits2_pos_le q _ Hlt2).
    pose proof (Pos2Z.is_pos (digits2_pos q)). lia. }
  destruct (shr_fexp_spec m2 e1 loc_Exact) as [He2 Hm3]; [nia | ].
  destruct (shr_fexp prec emax m2 e1 loc_Exact) as [r2 e2].
  cbn [fst snd] in He2, Hm3. rewrite <- He2 in Hm3.
  assert (He2' : e1 <= e2 <= 0).
  { rewrite He2. unfold fexp, SpecFloat.emin, prec, emax. lia. }
  assert (Hpow2 : 0 < 2 ^ (e2 - e1)) by (apply Z.pow_pos_nonneg; lia).
  destruct (shr_m r2) as [ | q | q] eqn:Hr2.
  - exfalso.
    assert (Hsmall : m2 < 2 ^ (e2 - e1)).
    { pose proof (Z.div_mod m2 (2 ^ (e2 - e1)) ltac:(lia)).
      pose proof (Z.mod_pos_bound m2 (2 ^ (e2 - e1)) Hpow2). lia. }
    assert (2 ^ (e2 - e1) <= 2 ^ (- e1)) by (apply Z.pow_le_mono_r; lia).
    nia.
  - unfold prec, emax.
    replace (e2 <=? 1024 - 53) with true by (symmetry; apply Z.leb_le; lia).
    intros [_ [He20 Hq]]. exists q, e2.
    split; [reflexivity | split; [exact He20 | split; [ | exact Hq]]].
    rewrite Hm3.
    apply Z.div_le_lower_bound; [exact Hpow2 | ].
    replace (2 ^ (e2 - e1) * (L * 2 ^ (- e2))) with (L * 2 ^ (- e1)); [lia | ].
    replace (- e1) with ((e2 - e1) + - e2) by lia.
    rewrite Z.pow_add_r by lia. ring.
  - assert (0 <= m2 / 2 ^ (e2 - e1)) by (apply Z.div_pos; nia). lia.
Qed.

Lemma shl_align_spec (m : positive) (e e' : Z) :
  snd (shl_align m e e') <= e
  /\ Zpos (fst (shl_align m e e')) = Zpos m * 2 ^ (e - snd (shl_align m e e')).
Proof.
  unfold shl_align.
  destruct (e' - e) as [ | d | d] eqn:Hd; cbn [fst snd].
  - rewrite Z.sub_diag. change (2 ^ 0) with 1. lia.
  - rewrite Z.sub_diag. change (2 ^ 0) with 1. lia.
  - split; [lia | ]. rewrite pos_iter_xO.
    replace (e - e') with (Zpos d) by lia. reflexivity.
Qed.

Lemma binary_round_between (q : positive) (ez L N : Z) :
  ez <= 0 -> 0 < L -> N + 1 < 2 ^ 53 ->
  L * 2 ^ (- ez) <= Zpos q <= N * 2 ^ (- ez) ->
  exists m e,
    binary_round prec emax false q ez = S754_finite false m e
    /\ e <= 0 /\ L * 2 ^ (- e) <= Zpos m <= N * 2 ^ (- e).
Proof.
  intros Hez HL HN Hq. unfold binary_round.
  destruct (shl_align_spec q ez (fexp prec emax (Zpos (digits2_pos q) + ez)))
    as [He Hm].
  destruct (shl_align q ez (fexp prec emax (Zpos (digits2_pos q) + ez)))
    as [mz e2]. cbn [fst snd] in He, Hm.
  apply round_aux_between; [lia | exact HL | exact HN | ].
  rewrite Hm.
  assert (Hp : 0 < 2 ^ (ez - e2)) by (apply Z.pow_pos_nonneg; lia).
  assert (HK : forall c, c * 2 ^ (- e2) = c * 2 ^ (- ez) * 2 ^ (ez - e2)).
  { intros c. replace (- e2) with (- ez + (ez - e2)) by lia.
    rewrite Z.pow_add_r by lia. ring. }
  rewrite !HK. nia.
Qed.

Lemma int_of_float_between (m : positive) (e L N : Z) :
  e <= 0 -> L * 2 ^ (- e) <= Zpos m <= N * 2 ^ (- e) ->
  exists k, int_of_float (S754_finite false m e) = Ok k /\ L <= k <= N.
Proof.
  intros He Hm. cbn [int_of_float]. eexists. split; [reflexivity | ].
  assert (Hp : 0 < 2 ^ (- e)) by (apply Z.pow_pos_nonneg; lia).
  destruct (Z.leb_spec 0 e) as [H0 | H0].
  - replace e with 0 in * by lia. change (2 ^ (- 0)) with 1 in Hm.
    change (2 ^ 0) with 1. lia.
  - split.
    + apply Z.div_le_lower_bound; [exact Hp | lia].
    + apply Z.div_le_upper_bound; [exact Hp | lia].
Qed.

(** The baseline rate plus a product of magnitude at most [D]. *)
Lemma rate_sum (s : bool) (m : positive) (e D : Z) :
  e <= 0 -> 0 <= D < 200 -> Zpos m <= D * 2 ^ (- e) ->
  exists k,
    int_of_float (fadd (S754_finite false 7036874417766400 (-45))
                       (S754_finite s m e)) = Ok k
    /\ (if s then 200 - D <= k <= 200 else 200 <= k <= 200 + D).
Proof.
  intros He HD Hm. unfold fadd, SFadd. cbv zeta.
  set (ez := Z.min (-45) e).
  assert (Hez : ez <= -45 /\ ez <= e) by (unfold ez; lia).
  rewrite (shl_align_value 7036874417766400 (-45) ez),
          (shl_align_value m e ez) by lia.
  assert (H53 : 2 ^ 53 = 9007199254740992) by reflexivity.
  assert (Hp : 0 < 2 ^ (- ez)) by (apply Z.pow_pos_nonneg; lia).
  assert (Hpe : 0 < 2 ^ (e - ez)) by (apply Z.pow_pos_nonneg; lia).
  assert (HA : 7036874417766400 * 2 ^ (-45 - ez) = 200 * 2 ^ (- ez)).
  { change 7036874417766400 with (200 * 2 ^ 45).
    rewrite <- Z.mul_assoc, <- Z.pow_add_r by lia.
    do 2 f_equal. lia. }
  assert (HB : 0 < Zpos m * 2 ^ (e - ez) <= D * 2 ^ (- ez)).
  { split; [nia | ].
    replace (- ez) with (- e + (e - ez)) by lia.
    rewrite Z.pow_add_r by lia. nia. }
  rewrite HA.
  set (P := 2 ^ (- ez)) in *. set (B := Zpos m * 2 ^ (e - ez)) in *.
  clearbody B.
  destruct s; cbn [cond_Zopp].
  - assert (Hs : (200 - D) * P <= 200 * P + - B <= 200 * P) by nia.
    destruct (200 * P + - B) as [ | q | q] eqn:Hq; [nia | | nia].
    cbn [binary_normalize].
    destruct (binary_round_between q ez (200 - D) 200)
      as [m' [e' [-> [He' Hm']]]]; [lia | lia | lia | exact Hs | ].
    apply int_of_float_between; assumption.
  - assert (Hs : 200 * P <= 200 * P + B <= (200 + D) * P) by nia.
    destruct (200 * P + B) as [ | q | q] eqn:Hq; [nia | | nia].
    cbn [binary_normalize].
    destruct (binary_round_between q ez 200 (200 + D))
      as [m' [e' [-> [He' Hm']]]]; [lia | lia | lia | exact Hs | ].
    apply int_of_float_between; assumption.
Qed.

(** Each rate delta of the table is an integer between -50 and 70 that
    converts to a float exactly. *)
Lemma rate_delta_rows (k : string) (rd : Z) (pt vd : float) :
  In (k, (rd, pt, vd)) VoiceMapper.EMOTION_PROFILE ->
  -50 <= rd <= 70
  /\ exists f,
       float_of_int rd = Ok f
       /\ match f with
          | S754_zero _ => rd = 0
          | S754_finite s m e =>
              s = (rd <? 0) /\ e <= 0 /\ Zpos m = Z.abs rd * 2 ^ (- e)
          | _ => False
          end.
Proof.
  unfold VoiceMapper.EMOTION_PROFILE. cbn [In]. intros H.
  repeat (destruct H as [H | H];
          [ injection H as <- <- <- <-;
            split; [lia | ];
            eexists; split; [vm_compute; reflexivity | ];
            lazy beta iota;
            first [ reflexivity
                  | split; [reflexivity | split; [lia | reflexivity]] ]
          | ]).
  contradiction H.
Qed.

Lemma rate_of_zero (s : bool) :
  int_of_float (fadd (S754_finite false 7036874417766400 (-45))
                     (S754_zero s)) = Ok 200.
Proof. reflexivity. Qed.

(** The interpolated rate lies between the baseline and the baseline plus
    the delta. *)
Lemma rate_of_product (f c : float) (rd : Z) :
  -50 <= rd <= 70 ->
  match f with
  | S754_zero _ => rd = 0
  | S754_finite s m e =>
      s = (rd <? 0) /\ e <= 0 /\ Zpos m = Z.abs rd * 2 ^ (- e)
  | _ => False
  end ->
  ((exists s, c = S754_zero s)
   \/ (exists m e, c = S754_finite false m e /\ e <= -52
                   /\ Zpos m <= 2 ^ (- e))) ->
  exists k,
    int_of_float (fadd (S754_finite false 7036874417766400 (-45)) (fmul f c))
    = Ok k
    /\ Z.min 200 (200 + rd) <= k <= Z.max 200 (200 + rd).
Proof.
  intros Hrd Hf Hc.
  destruct f as [sf | sf | | sf mf ef]; try contradiction.
  - exists 200. split; [ | lia].
    destruct Hc as [[s ->] | [m [e [-> _]]]]; apply rate_of_zero.
  - destruct Hf as [Hs [Hef Hmf]].
    destruct Hc as [[s ->] | [m [e [-> [He Hm]]]]].
    + exists 200. split; [apply rate_of_zero | lia].
    + unfold fmul, SFmul. rewrite xorb_false_r.
      assert (Hp : 0 < 2 ^ (- ef)) by (apply Z.pow_pos_nonneg; lia).
      assert (Hpe : 0 < 2 ^ (- e)) by (apply Z.pow_pos_nonneg; lia).
      assert (Habs : 0 < Z.abs rd) by nia.
      assert (H53 : 2 ^ 53 = 9007199254740992) by reflexivity.
      assert (Hle : Zpos (mf * m) <= Z.abs rd * 2 ^ (- (ef + e))).
      { rewrite Pos2Z.inj_mul, Hmf.
        replace (- (ef + e)) with (- ef + - e) by lia.
        rewrite Z.pow_add_r by lia. nia. }
      pose proof (round_aux_le sf (Zpos (mf * m)) (ef + e) (Z.abs rd)
                    ltac:(lia) ltac:(lia) ltac:(lia) Hle) as Hr.
      destruct (binary_round_aux prec emax sf (Zpos (mf * m)) (ef + e)
                  loc_Exact) as [s' | s' | | s' m' e']; try contradiction.
      * exists 200. split; [apply rate_of_zero | lia].
      * destruct Hr as [-> [He' Hm']].
        destruct (rate_sum sf m' e' (Z.abs rd) He' ltac:(lia) Hm')
          as [k [Hk Hb]].
        exists k. split; [exact Hk | ].
        rewrite Hs in Hb. destruct (Z.ltb_spec rd 0); lia.
Qed.

End RateBounds.

(** X20: with the default baselines, whatever the emotion and the
    intensity, the rate [map] returns lies between the baseline rate and
    the baseline plus the emotion's rate delta, so between 150 and 270 words
    per minute. *)
Theorem X20_rate_between_baseline_and_target
  (emotion : string) (i : float) (Hwf : wf i) :
  let rd := fst (fst (dict_get_default VoiceMapper.EMOTION_PROFILE emotion
                        VoiceMapper.neutral_profile)) in
  exists p,
    VoiceMapper.map VoiceMapper.default emotion i = Ok p
    /\ Z.min VoiceMapper.BASELINE_RATE (VoiceMapper.BASELINE_RATE + rd)
       <= VoiceMapper.rate p
       <= Z.max VoiceMapper.BASELINE_RATE (VoiceMapper.BASELINE_RATE + rd)
    /\ 150 <= VoiceMapper.rate p <= 270.
Proof.
  intros rd. subst rd.
  destruct (lookup_in_table emotion) as [k Hin].
  unfold VoiceMapper.map. rewrite lookup_profile_eq. cbn [bind].
  destruct (dict_get_default VoiceMapper.EMOTION_PROFILE emotion
              VoiceMapper.neutral_profile) as [[rd pt] vd].
  cbn [fst snd].
  destruct (rate_delta_rows k rd pt vd Hin) as [Hrd [f [Hf Hshape]]].
  rewrite Hf.
  cbn [bind VoiceMapper.baseline_rate VoiceMapper.default VoiceMapper.__init__].
  assert (H200 : float_of_int VoiceMapper.BASELINE_RATE
                 = Ok (S754_finite false 7036874417766400 (-45)))
    by (vm_compute; reflexivity).
  rewrite H200. cbn [bind].
  assert (Hc : (exists s, VoiceMapper.clamp_intensity i = S754_zero s)
               \/ (exists m e,
                      VoiceMapper.clamp_intensity i = S754_finite false m e
                      /\ e <= -52 /\ Zpos m <= 2 ^ (- e))).
  { destruct (clamp_cases i Hwf) as [_ [-> | [-> | [-> [H0 H1]]]]].
    - left. exists false. reflexivity.
    - right. rewrite one_eq. eexists. eexists.
      split; [reflexivity | split; [lia | reflexivity]].
    - apply unit_interval_shape;
        [exact Hwf | apply fltb_fleb; exact H0 | apply fltb_fleb; exact H1]. }
  destruct (rate_of_product f (VoiceMapper.clamp_intensity i) rd Hrd Hshape Hc)
    as [r [Hr Hb]].
  rewrite Hr. cbn [bind]. eexists. split; [reflexivity | ].
  cbn [VoiceMapper.rate]. unfold VoiceMapper.BASELINE_RATE. lia.
Qed.

Lemma X20_rate_between_baseline_and_target_witness :
  exists p,
    VoiceMapper.map VoiceMapper.default "sadness" (lit 64 2) = Ok p
    /\ Z.min 200 (200 + -50) <= VoiceMapper.rate p <= Z.max 200 (200 + -50)
    /\ 150 <= VoiceMapper.rate p <= 270.
Proof.
  apply (X20_rate_between_baseline_and_target "sadness" (lit 64 2)).
  vm_compute. reflexivity.
Defined.
